(** * Persona management of SillyTavern: a shallow embedding of
    [public/scripts/personas.js] and the proofs of its specification.

    The module keeps its state in a handful of shared JavaScript objects
    ([power_user], [chat_metadata], [user_avatar], ...) that every handler
    mutates.  The embedding threads one explicit [State] record through
    every function; calls to the collaborators the module only consumes
    (notifications, persistence, pop-ups, uploads) are recorded, in order,
    in an event log, and the answers of the collaborators (the avatar list
    of the server, the answer to a pop-up, the clock) are arguments. *)

From stdpp Require Import base option list strings pretty gmap.
From Stdlib Require Import ZArith.

Open Scope string_scope.
Open Scope list_scope.

(** ** JavaScript values *)

(** A value that is a string, [null] or [undefined] is an [option string];
    [truthy] is its truth value in a condition: [null], [undefined] and the
    empty string are false. *)
Definition truthy (v : option string) : bool :=
  match v with
  | Some s => negb (String.eqb s EmptyString)
  | None => false
  end.
Arguments truthy : simpl never.

(** [a || b] on such values. *)
Definition js_or (a b : option string) : option string :=
  if truthy a then a else b.

(** [a ?? b]: the default replaces [null] and [undefined] only. *)
Definition nullish {A : Type} (a : option A) (b : A) : A :=
  match a with
  | Some x => x
  | None => b
  end.

(** ** Objects whose keys are enumerated

    [power_user.persona_descriptions] is walked with [Object.entries], so
    the order of its keys is observable.  Avatar ids are file names, never
    canonical array indices, and for such keys JavaScript enumerates in
    insertion order: an assignment to an existing key keeps its place, an
    assignment to a new key appends it, [delete] removes it.  (Nor are they
    names of [Object.prototype], which [in] would find in any object.) *)
Module Obj.

Definition t (V : Type) : Type := list (string * V).

Fixpoint get {V : Type} (k : string) (o : t V) : option V :=
  match o with
  | [] => None
  | (k', v) :: o' => if decide (k = k') then Some v else get k o'
  end.

(** [k in o] *)
Definition has {V : Type} (k : string) (o : t V) : bool :=
  match get k o with
  | Some _ => true
  | None => false
  end.

(** [o[k] = v] *)
Fixpoint set {V : Type} (k : string) (v : V) (o : t V) : t V :=
  match o with
  | [] => [(k, v)]
  | (k', v') :: o' =>
      if decide (k = k') then (k, v) :: o' else (k', v') :: set k v o'
  end.

(** [delete o[k]] *)
Fixpoint del {V : Type} (k : string) (o : t V) : t V :=
  match o with
  | [] => []
  | (k', v') :: o' =>
      if decide (k = k') then del k o' else (k', v') :: del k o'
  end.

(** [Object.entries(o)] *)
Definition entries {V : Type} (o : t V) : list (string * V) := o.

End Obj.

(** ** Data model *)

(** [PersonaConnection]: [{ type: 'character' | 'group', id: string }]. *)
Inductive ConnectionType := character | group.

Record PersonaConnection := mkConnection {
  conn_type : ConnectionType;
  conn_id : string }.

#[global] Instance ConnectionType_eq_dec : EqDecision ConnectionType.
Proof. solve_decision. Defined.

#[global] Instance PersonaConnection_eq_dec : EqDecision PersonaConnection.
Proof. solve_decision. Defined.

(** Modelled from the spec: the table [persona_description_positions] is
    imported from [power-user.js], which is not among the sources.  The
    data model lists the positions in-prompt, at-depth and none; the module
    also names the retired [AFTER_CHAR]. *)
Inductive DescriptionPosition := IN_PROMPT | AFTER_CHAR | AT_DEPTH | NONE.

#[global] Instance DescriptionPosition_eq_dec : EqDecision DescriptionPosition.
Proof. solve_decision. Defined.

Definition DEFAULT_DEPTH : Z := 2.
Definition DEFAULT_ROLE : Z := 0.

(** A persona descriptor is a plain object: any of its properties may be
    missing (descriptors come from several constructors of the module and
    from restored backup files), and every reader guards with [?.] and
    [??]. *)
Record PersonaDescriptor := mkDescriptor {
  description : option string;
  position : option DescriptionPosition;
  depth : option Z;
  role : option Z;
  lorebook : option string;
  connections : option (list PersonaConnection) }.

Definition with_connections (cs : list PersonaConnection)
    (d : PersonaDescriptor) : PersonaDescriptor :=
  {| description := description d; position := position d; depth := depth d;
     role := role d; lorebook := lorebook d; connections := Some cs |}.

(** [PersonaLockType], as the constant a caller writes. *)
Inductive PersonaLockType := lock_chat | lock_character | lock_default.

(** The two images the module uploads: [default_user_avatar] and
    [getUserAvatar(avatarId)]. *)
Inductive AvatarUrl := default_user_avatar | getUserAvatar (avatarId : string).

(** The lines of the restore report, one constructor per message:
    - [Persona KEY (VALUE) already exists, skipping]
    - [Persona image KEY (VALUE) is missing, uploading default avatar]
    - [Persona description for KEY (NAME) already exists, skipping]
    - [Persona for KEY does not exist, skipping]
    - [Default persona KEY does not exist, skipping] *)
Inductive RestoreWarning :=
| persona_already_exists (key value : string)
| persona_image_missing (key value : string)
| description_already_exists (key : string) (name : option string)
| persona_does_not_exist (key : string)
| default_does_not_exist (key : string).

(** Calls to the collaborators, in the order the module makes them. *)
Inductive event :=
| console_warn (msg : string)
| toastr_info (title : string)
| toastr_success (title : string)
| toastr_warning (title : string)
| saveSettingsDebounced
| saveMetadata
| saveMetadataDebounced
| setUserName (name : string)
| popup_show (personas : list string)
| popup_confirm (title : string)
| fetch_avatars_delete (avatar : string)
| uploadUserAvatar (url : AvatarUrl) (name : string)
| restore_report (warnings : list RestoreWarning).

#[global] Instance AvatarUrl_eq_dec : EqDecision AvatarUrl.
Proof. solve_decision. Defined.

#[global] Instance RestoreWarning_eq_dec : EqDecision RestoreWarning.
Proof. solve_decision. Defined.

#[global] Instance event_eq_dec : EqDecision event.
Proof. solve_decision. Defined.

(** The state the module reads and writes: the persona part of
    [power_user], the [persona] key of [chat_metadata], the module variable
    [user_avatar], and what it imports from the chat ([name1],
    [selected_group], [characters[this_chid]?.avatar]). *)
Record State := mkState {
  personas : gmap string string;
  persona_descriptions : Obj.t PersonaDescriptor;
  default_persona : option string;
  persona_allow_multi_connections : bool;
  persona_auto_lock : bool;
  persona_show_notifications : bool;
  persona_description : string;
  persona_description_position : DescriptionPosition;
  persona_description_depth : Z;
  persona_description_role : Z;
  persona_description_lorebook : string;
  chat_metadata_persona : option string;
  user_avatar : string;
  name1 : string;
  selected_group : option string;
  this_chid_avatar : option string;
  log : list event }.

(** *** Assignments to the state *)

Definition set_personas (f : gmap string string → gmap string string)
    (st : State) : State :=
  mkState (f (personas st)) (persona_descriptions st) (default_persona st)
    (persona_allow_multi_connections st) (persona_auto_lock st)
    (persona_show_notifications st) (persona_description st)
    (persona_description_position st) (persona_description_depth st)
    (persona_description_role st) (persona_description_lorebook st)
    (chat_metadata_persona st) (user_avatar st) (name1 st)
    (selected_group st) (this_chid_avatar st) (log st).

Definition set_persona_descriptions
    (f : Obj.t PersonaDescriptor → Obj.t PersonaDescriptor)
    (st : State) : State :=
  mkState (personas st) (f (persona_descriptions st)) (default_persona st)
    (persona_allow_multi_connections st) (persona_auto_lock st)
    (persona_show_notifications st) (persona_description st)
    (persona_description_position st) (persona_description_depth st)
    (persona_description_role st) (persona_description_lorebook st)
    (chat_metadata_persona st) (user_avatar st) (name1 st)
    (selected_group st) (this_chid_avatar st) (log st).

Definition set_default_persona (v : option string) (st : State) : State :=
  mkState (personas st) (persona_descriptions st) v
    (persona_allow_multi_connections st) (persona_auto_lock st)
    (persona_show_notifications st) (persona_description st)
    (persona_description_position st) (persona_description_depth st)
    (persona_description_role st) (persona_description_lorebook st)
    (chat_metadata_persona st) (user_avatar st) (name1 st)
    (selected_group st) (this_chid_avatar st) (log st).

(** The five [power_user.persona_description*] properties, which hold the
    descriptor of the active persona while it is edited. *)
Definition set_current_description (d : string) (p : DescriptionPosition)
    (dp r : Z) (l : string) (st : State) : State :=
  mkState (personas st) (persona_descriptions st) (default_persona st)
    (persona_allow_multi_connections st) (persona_auto_lock st)
    (persona_show_notifications st) d p dp r l
    (chat_metadata_persona st) (user_avatar st) (name1 st)
    (selected_group st) (this_chid_avatar st) (log st).

Definition set_chat_metadata_persona (v : option string) (st : State)
    : State :=
  mkState (personas st) (persona_descriptions st) (default_persona st)
    (persona_allow_multi_connections st) (persona_auto_lock st)
    (persona_show_notifications st) (persona_description st)
    (persona_description_position st) (persona_description_depth st)
    (persona_description_role st) (persona_description_lorebook st)
    v (user_avatar st) (name1 st)
    (selected_group st) (this_chid_avatar st) (log st).

Definition set_user_avatar (v : string) (st : State) : State :=
  mkState (personas st) (persona_descriptions st) (default_persona st)
    (persona_allow_multi_connections st) (persona_auto_lock st)
    (persona_show_notifications st) (persona_description st)
    (persona_description_position st) (persona_description_depth st)
    (persona_description_role st) (persona_description_lorebook st)
    (chat_metadata_persona st) v (name1 st)
    (selected_group st) (this_chid_avatar st) (log st).

Definition set_name1 (v : string) (st : State) : State :=
  mkState (personas st) (persona_descriptions st) (default_persona st)
    (persona_allow_multi_connections st) (persona_auto_lock st)
    (persona_show_notifications st) (persona_description st)
    (persona_description_position st) (persona_description_depth st)
    (persona_description_role st) (persona_description_lorebook st)
    (chat_metadata_persona st) (user_avatar st) v
    (selected_group st) (this_chid_avatar st) (log st).

(** A call to a collaborator: appended to the log. *)
Definition emit (e : event) (st : State) : State :=
  mkState (personas st) (persona_descriptions st) (default_persona st)
    (persona_allow_multi_connections st) (persona_auto_lock st)
    (persona_show_notifications st) (persona_description st)
    (persona_description_position st) (persona_description_depth st)
    (persona_description_role st) (persona_description_lorebook st)
    (chat_metadata_persona st) (user_avatar st) (name1 st)
    (selected_group st) (this_chid_avatar st) (log st ++ [e]).

(** [if (c) st = f(st)] *)
Definition when (c : bool) (f : State → State) (st : State) : State :=
  if c then f st else st.

(** ** Connections of the open character or group *)

(** [array.includes(v)] on an array of strings. *)
Definition includes (l : list string) (v : option string) : bool :=
  match v with
  | Some s => bool_decide (s ∈ l)
  | None => false
  end.

(** [isPersonaConnectionLocked]: the connection is the one of the open
    character or of the open group. *)
Definition isPersonaConnectionLocked (st : State) (c : PersonaConnection)
    : bool :=
  (negb (truthy (selected_group st))
   && bool_decide (conn_type c = character)
   && bool_decide (Some (conn_id c) = this_chid_avatar st))
  || (truthy (selected_group st)
      && bool_decide (conn_type c = group)
      && bool_decide (Some (conn_id c) = selected_group st)).

(** [getCurrentConnectionObj] *)
Definition getCurrentConnectionObj (st : State) : option PersonaConnection :=
  if truthy (selected_group st) then
    mkConnection group <$> selected_group st
  else if truthy (this_chid_avatar st) then
    mkConnection character <$> this_chid_avatar st
  else None.

(** [desc.connections?.some(conn => conn.type === 'character' &&
    conn.id === characterKey)] *)
Definition connected_to (characterKey : option string)
    (desc : PersonaDescriptor) : bool :=
  match connections desc with
  | Some cs =>
      existsb (λ conn, bool_decide (conn_type conn = character)
                       && bool_decide (Some (conn_id conn) = characterKey)) cs
  | None => false
  end.

(** [getConnectedPersonas(characterKey = undefined)] *)
Definition getConnectedPersonas (characterKey : option string) (st : State)
    : list string :=
  let characterKey :=
    match characterKey with
    | Some k => Some k
    | None => js_or (selected_group st) (this_chid_avatar st)
    end in
  (List.filter (λ kd, connected_to characterKey kd.2)
     (Obj.entries (persona_descriptions st))).*1.

(** [isPersonaLocked(type)], on a well-typed lock type. *)
Definition isPersonaLocked_of (type : PersonaLockType) (st : State) : bool :=
  match type with
  | lock_default => bool_decide (default_persona st = Some (user_avatar st))
  | lock_chat => bool_decide (chat_metadata_persona st = Some (user_avatar st))
  | lock_character =>
      match Obj.get (user_avatar st) (persona_descriptions st) with
      | Some d =>
          match connections d with
          | Some cs => existsb (isPersonaConnectionLocked st) cs
          | None => false
          end
      | None => false
      end
  end.

(** ** Selecting a persona *)

(** The default descriptor written by [lockPersona], [selectCurrentPersona]
    and [getOrCreatePersonaDescriptor]. *)
Definition empty_descriptor : PersonaDescriptor :=
  {| description := Some EmptyString; position := Some IN_PROMPT;
     depth := Some DEFAULT_DEPTH; role := Some DEFAULT_ROLE;
     lorebook := Some EmptyString; connections := Some [] |}.

(** [setPersonaDescription()] refreshes the panel; on the state it replaces
    the retired position. *)
Definition setPersonaDescription (st : State) : State :=
  when (bool_decide (persona_description_position st = AFTER_CHAR))
    (set_current_description (persona_description st) IN_PROMPT
       (persona_description_depth st) (persona_description_role st)
       (persona_description_lorebook st)) st.

(** [selectCurrentPersona({ toastPersonaNameChange })], block by block.
    [setUserName] is imported from [script.js]; its effect on this module
    is the new value of [name1]. *)

(** Lines 755-758: the user name follows the persona. *)
Definition scp_user_name (personaName : string) (st : State) : State :=
  when (negb (bool_decide (personaName = name1 st)))
    (λ st, set_name1 personaName (emit (setUserName personaName) st)) st.

(** Lines 760-782: the descriptor of the persona becomes the current
    description; a persona without a descriptor gets the default one. *)
Definition scp_descriptor (st : State) : State :=
  match Obj.get (user_avatar st) (persona_descriptions st) with
  | Some descriptor =>
      set_current_description
        (nullish (description descriptor) EmptyString)
        (nullish (position descriptor) IN_PROMPT)
        (nullish (depth descriptor) DEFAULT_DEPTH)
        (nullish (role descriptor) DEFAULT_ROLE)
        (nullish (lorebook descriptor) EmptyString) st
  | None =>
      set_persona_descriptions
        (Obj.set (user_avatar st) empty_descriptor)
        (set_current_description EmptyString IN_PROMPT DEFAULT_DEPTH
           DEFAULT_ROLE EmptyString st)
  end.

(** Lines 786-795: the persona is locked to the chat if the setting asks
    for it. *)
Definition scp_auto_lock (shouldAutoLock toastPersonaNameChange : bool)
    (st : State) : State :=
  when shouldAutoLock
    (λ st,
       let st := set_chat_metadata_persona (Some (user_avatar st)) st in
       let st :=
         when (toastPersonaNameChange && persona_show_notifications st)
           (emit (toastr_success "Persona Selected")) st in
       emit saveMetadataDebounced st) st.

(** Lines 797-810: the user is told when the persona is only temporary. *)
Definition scp_temporary (st : State) : State :=
  when (persona_show_notifications st)
    (λ st,
       let hasDifferentChatLock :=
         truthy (chat_metadata_persona st)
         && negb (bool_decide
                    (chat_metadata_persona st = Some (user_avatar st))) in
       let hasDifferentDefaultLock :=
         truthy (default_persona st)
         && negb (bool_decide (default_persona st = Some (user_avatar st))) in
       when (hasDifferentChatLock
             || (negb (truthy (chat_metadata_persona st))
                 && hasDifferentDefaultLock))
         (emit (toastr_info "Temporary Persona")) st) st.

Definition selectCurrentPersona (toastPersonaNameChange : bool) (st : State)
    : State :=
  let personaName := personas st !! user_avatar st in
  if truthy personaName then
    let shouldAutoLock :=
      persona_auto_lock st
      && negb (bool_decide (Some (user_avatar st) = chat_metadata_persona st)) in
    let st := scp_user_name (nullish personaName EmptyString) st in
    let st := scp_descriptor st in
    let st := setPersonaDescription st in
    let st := scp_auto_lock shouldAutoLock toastPersonaNameChange st in
    scp_temporary st
  else st.

(** [setUserAvatar(imgfile, { toastPersonaNameChange })], called with a
    non-empty string as the module does when it resolves a persona (the
    other branch reads the id off the clicked element). *)
Definition setUserAvatar (imgfile : string) (toastPersonaNameChange : bool)
    (st : State) : State :=
  let st := set_user_avatar imgfile st in
  let st := selectCurrentPersona toastPersonaNameChange st in
  emit saveSettingsDebounced st.

(** What the user does with the selection pop-up: clicks the persona at an
    index of the list shown, presses the button that removes all
    connections of the targeted character, or closes it. *)
Inductive PopupAnswer := popup_pick (i : nat) | popup_remove_all | popup_none.

(** The action of the button [Remove All Connections]. *)
Definition remove_all_connections (targetedChar : PersonaConnection)
    (st : State) : State :=
  let st :=
    set_persona_descriptions
      (map (λ kd : string * PersonaDescriptor,
              match connections kd.2 with
              | Some cs =>
                  (kd.1,
                   with_connections
                     (List.filter
                        (λ c, negb (bool_decide (conn_type targetedChar = conn_type c)
                                    && bool_decide (conn_id targetedChar = conn_id c)))
                        cs) kd.2)
              | None => kd
              end)) st in
  let st := emit saveSettingsDebounced st in
  when (persona_show_notifications st)
    (emit (toastr_info "Personas Unlocked")) st.

(** [askForPersonaSelection(title, text, personas, { targetedChar })]: the
    chosen persona id, or [null]. *)
Definition askForPersonaSelection (personas : list string)
    (targetedChar : option PersonaConnection) (answer : PopupAnswer)
    (st : State) : option string * State :=
  let st := emit (popup_show personas) st in
  match answer, targetedChar with
  | popup_pick i, _ => (personas !! i, st)
  | popup_remove_all, Some c => (None, remove_all_connections c st)
  | _, _ => (None, st)
  end.

(** ** The lock resolver: [loadPersonaForCurrentChat] *)

(** The locals [chatPersona] and [connectType] with the state. *)
Definition Resolution : Type :=
  option string * option PersonaLockType * State.

(** Lines 1296-1308: the chat lock. *)
Definition lpc_chat_lock (userAvatars : list string) (st : State)
    : Resolution :=
  if truthy (chat_metadata_persona st) then
    let chatPersona := chat_metadata_persona st in
    if negb (includes userAvatars chatPersona) then
      let st :=
        emit (console_warn
                "Chat-locked persona avatar not found, unlocking persona") st in
      let st := set_chat_metadata_persona None st in
      let st := emit saveSettingsDebounced st in
      (Some EmptyString, None, st)
    else (chatPersona, Some lock_chat, st)
  else (Some EmptyString, None, st).

(** Lines 1311-1328: the personas connected to the open character. *)
Definition lpc_connection (answer : PopupAnswer) (r : Resolution)
    : Resolution :=
  let '(chatPersona, connectType, st) := r in
  if negb (truthy chatPersona) then
    let connectedPersonas := getConnectedPersonas None st in
    let '(chatPersona, st) :=
      match connectedPersonas with
      | [] => (chatPersona, st)
      | [p] => (Some p, st)
      | p :: _ =>
          if negb (persona_allow_multi_connections st) then
            (Some p,
             emit (console_warn
                     "More than one persona is connected to this character.Using the first available persona for this chat.")
               st)
          else
            askForPersonaSelection connectedPersonas
              (getCurrentConnectionObj st) answer st
      end in
    (chatPersona,
     if truthy chatPersona then Some lock_character else connectType, st)
  else r.

(** Lines 1331-1336: the default persona. *)
Definition lpc_default (r : Resolution) : Resolution :=
  let '(chatPersona, connectType, st) := r in
  if negb (truthy chatPersona) && truthy (default_persona st) then
    (default_persona st, Some lock_default, st)
  else r.

(** Lines 1339-1349: locks whose avatar is gone. *)
Definition lpc_missing (userAvatars : list string) (st : State) : State :=
  let st :=
    when (truthy (chat_metadata_persona st)
          && negb (includes userAvatars (chat_metadata_persona st)))
      (λ st,
         set_chat_metadata_persona None
           (emit (console_warn "Persona avatar not found, unlocking persona")
              st)) st in
  when (truthy (default_persona st)
        && negb (includes userAvatars (default_persona st)))
    (λ st,
       emit saveSettingsDebounced
         (set_default_persona None
            (emit (console_warn
                     "Default persona avatar not found, clearing default persona")
               st))) st.

(** Lines 1352-1363: the persona found is selected. *)
Definition lpc_select (chatPersona : option string) (st : State) : State :=
  if truthy chatPersona then
    let st := setUserAvatar (nullish chatPersona EmptyString) false st in
    when (persona_show_notifications st)
      (emit (toastr_success "Persona Auto Selected")) st
  else st.

(** The resolution proper: which persona applies, and from which lock. *)
Definition lpc_resolve (userAvatars : list string) (answer : PopupAnswer)
    (st : State) : Resolution :=
  let '(chatPersona, connectType, st) :=
    lpc_default (lpc_connection answer (lpc_chat_lock userAvatars st)) in
  (chatPersona, connectType, lpc_missing userAvatars st).

(** [loadPersonaForCurrentChat()], given the avatar list the server
    answers with and the answer to the pop-up, should it be shown. *)
Definition loadPersonaForCurrentChat (userAvatars : list string)
    (answer : PopupAnswer) (st : State) : State :=
  let '(chatPersona, _, st) := lpc_resolve userAvatars answer st in
  lpc_select chatPersona st.

(** ** Locks *)

(** What a call that may throw ends with; the state it leaves is part of
    both outcomes, since a [throw] undoes nothing. *)
Inductive JsError := Error (msg : string) | TypeError (msg : string).

Inductive Result (A : Type) :=
| Ok (a : A) (st : State)
| Throw (e : JsError) (st : State).
Arguments Ok {A} a st.
Arguments Throw {A} e st.

Definition result_state {A : Type} (r : Result A) : State :=
  match r with
  | Ok _ st => st
  | Throw _ st => st
  end.

Definition throws {A : Type} (r : Result A) : bool :=
  match r with
  | Ok _ _ => false
  | Throw _ _ => true
  end.

(** The [case] labels of the three [switch (type)] statements. *)
Definition lock_type_of (type : string) : option PersonaLockType :=
  if decide (type = "default") then Some lock_default
  else if decide (type = "chat") then Some lock_chat
  else if decide (type = "character") then Some lock_character
  else None.

Definition unknown_lock_type (type : string) : JsError :=
  Error ("Unknown persona lock type: " +:+ type).

(** [isPersonaLocked(type = 'chat')]: the argument is whatever string the
    caller passes, [None] when it passes none. *)
Definition isPersonaLocked (type : option string) (st : State)
    : Result bool :=
  let type := nullish type "chat" in
  match lock_type_of type with
  | Some t => Ok (isPersonaLocked_of t st) st
  | None => Throw (unknown_lock_type type) st
  end.

(** [toggleDefaultPersona(avatarId, { quiet })]; [confirm] is the answer to
    the confirmation, asked for unless [quiet]. *)
Definition toggleDefaultPersona (avatarId : string) (quiet confirm : bool)
    (st : State) : State :=
  if negb (truthy (Some avatarId)) then
    emit (console_warn "No avatar id found") st
  else
    let currentDefault := default_persona st in
    match personas st !! avatarId with
    | None =>
        emit (toastr_warning "Persona Name Not Set")
          (emit (console_warn ("No persona name found for avatar " +:+ avatarId))
             st)
    | Some _ =>
        if bool_decide (Some avatarId = currentDefault) then
          let st :=
            when (negb quiet)
              (emit (popup_confirm
                       "Are you sure you want to remove the default persona?"))
              st in
          if negb quiet && negb confirm then st
          else
            let st :=
              when (persona_show_notifications st)
                (emit (toastr_info "Default Persona Removed")) st in
            emit saveSettingsDebounced (set_default_persona None st)
        else
          let st :=
            when (negb quiet) (emit (popup_confirm "Set Default Persona")) st in
          if negb quiet && negb confirm then st
          else
            let st := set_default_persona (Some avatarId) st in
            let st :=
              when (persona_show_notifications st)
                (emit (toastr_success "Default Persona")) st in
            emit saveSettingsDebounced st
    end.

(** [connections.filter(c => !isPersonaConnectionLocked(c))] *)
Definition without_current (st : State) (cs : list PersonaConnection)
    : list PersonaConnection :=
  List.filter (λ c, negb (isPersonaConnectionLocked st c)) cs.

(** [unlockPersona(type = 'chat')] *)
Definition unlockPersona (type : option string) (st : State) : Result unit :=
  let type := nullish type "chat" in
  match lock_type_of type with
  | Some lock_default =>
      Ok () (toggleDefaultPersona (user_avatar st) true true st)
  | Some lock_chat =>
      Ok ()
        (when (truthy (chat_metadata_persona st))
           (λ st,
              let st := set_chat_metadata_persona None st in
              let st := emit saveMetadata st in
              when (persona_show_notifications st)
                (emit (toastr_info "Persona Unlocked")) st) st)
  | Some lock_character =>
      match Obj.get (user_avatar st) (persona_descriptions st) with
      | Some d =>
          match connections d with
          | Some cs =>
              let st :=
                set_persona_descriptions
                  (Obj.set (user_avatar st)
                     (with_connections (without_current st cs) d)) st in
              let st := emit saveSettingsDebounced st in
              Ok ()
                (when (persona_show_notifications st)
                   (emit (toastr_info "Persona Unlocked")) st)
          | None => Ok () st
          end
      | None => Ok () st
      end
  | None => Throw (unknown_lock_type type) st
  end.

(** [c.type === newConnection.type && c.id === newConnection.id] *)
Definition same_connection (a b : PersonaConnection) : bool :=
  bool_decide (conn_type a = conn_type b)
  && bool_decide (conn_id a = conn_id b).

(** Lines 957-965, the loop over [Object.entries(persona_descriptions)] that
    takes the new connection away from every other persona.  It walks the
    entries in order, assigns to the descriptors in place, and collects the
    names of the personas it changed. *)
Fixpoint unlink_others (names : gmap string string) (me : string)
    (newConnection : PersonaConnection)
    (es : list (string * PersonaDescriptor))
    : list (string * PersonaDescriptor) * list (option string) :=
  match es with
  | [] => ([], [])
  | (avatarId, description) :: es' =>
      let '(rest, unlinked) := unlink_others names me newConnection es' in
      if decide (avatarId = me) then ((avatarId, description) :: rest, unlinked)
      else
        let filteredConnections :=
          match connections description with
          | Some cs =>
              List.filter (λ c, negb (same_connection c newConnection)) cs
          | None => []
          end in
        if bool_decide (Some (length filteredConnections)
                        = length <$> connections description)
        then ((avatarId, description) :: rest, unlinked)
        else
          ((avatarId, with_connections filteredConnections description) :: rest,
           names !! avatarId :: unlinked)
  end.

(** Lines 917-931: a persona is made of the selected avatar if it is none. *)
Definition lock_ensure_persona (st : State) : State :=
  if bool_decide (personas st !! user_avatar st = None) then
    let st :=
      when (persona_show_notifications st)
        (emit (toastr_info "Persona Not Found")) st in
    let st := set_personas (insert (user_avatar st) (name1 st)) st in
    set_persona_descriptions (Obj.set (user_avatar st) empty_descriptor) st
  else st.

(** Lines 933-981: the [switch] of [lockPersona]. *)
Definition lock_switch (type : string) (st : State) : Result unit :=
  match lock_type_of type with
  | Some lock_default =>
      Ok () (toggleDefaultPersona (user_avatar st) true true st)
  | Some lock_chat =>
      let st := set_chat_metadata_persona (Some (user_avatar st)) st in
      let st := emit saveMetadataDebounced st in
      Ok ()
        (when (persona_show_notifications st)
           (emit (toastr_success "Persona Locked")) st)
  | Some lock_character =>
      let newConnection := getCurrentConnectionObj st in
      match Obj.get (user_avatar st) (persona_descriptions st) with
      | None =>
          Throw (TypeError "Cannot read properties of undefined (reading 'connections')")
            st
      | Some d =>
          let connections :=
            match connections d with
            | Some cs => without_current st cs
            | None => []
            end in
          match newConnection with
          | Some newConnection =>
              if truthy (Some (conn_id newConnection)) then
                let st :=
                  set_persona_descriptions
                    (Obj.set (user_avatar st)
                       (with_connections (connections ++ [newConnection]) d))
                    st in
                let st :=
                  when (negb (persona_allow_multi_connections st))
                    (set_persona_descriptions
                       (λ o, (unlink_others (personas st) (user_avatar st)
                                newConnection (Obj.entries o)).1)) st in
                let st := emit saveSettingsDebounced st in
                Ok ()
                  (when (persona_show_notifications st)
                     (emit (toastr_success "Persona Locked")) st)
              else Ok () st
          | None => Ok () st
          end
      end
  | None => Throw (unknown_lock_type type) st
  end.

(** [lockPersona(type = 'chat')] *)
Definition lockPersona (type : option string) (st : State) : Result unit :=
  lock_switch (nullish type "chat") (lock_ensure_persona st).

(** ** Deleting the selected avatar *)

(** Lines 1011-1026 of [deleteUserAvatar]: the server has deleted the
    avatar. *)
Definition delete_entries (avatarId : string) (st : State) : State :=
  let st := set_personas (delete avatarId) st in
  let st := set_persona_descriptions (Obj.del avatarId) st in
  let st :=
    when (bool_decide (Some avatarId = default_persona st))
      (λ st,
         set_default_persona None
           (emit (toastr_warning "Default Persona Deleted") st)) st in
  let st :=
    when (bool_decide (Some avatarId = chat_metadata_persona st))
      (λ st,
         emit saveMetadata
           (set_chat_metadata_persona None
              (emit (toastr_warning "Persona Deleted") st))) st in
  emit saveSettingsDebounced st.

(** [deleteUserAvatar()]: [confirm] is the answer to the confirmation,
    [request_ok] whether the server deleted the file; [userAvatars] and
    [answer] are for the resolution that follows. *)
Definition deleteUserAvatar (confirm request_ok : bool)
    (userAvatars : list string) (answer : PopupAnswer) (st : State) : State :=
  let avatarId := user_avatar st in
  if negb (truthy (Some avatarId)) then
    emit (console_warn "No avatar id found") st
  else
    let st := emit (popup_confirm "Delete Persona") st in
    if negb confirm then st
    else
      let st := emit (fetch_avatars_delete avatarId) st in
      if request_ok then
        loadPersonaForCurrentChat userAvatars answer
          (delete_entries avatarId st)
      else st.

(** ** Backup and restore *)

(** The parsed backup file: [{ personas, persona_descriptions,
    default_persona }], the two objects in the order of their keys. *)
Record Backup := mkBackup {
  backup_personas : list (string * string);
  backup_persona_descriptions : list (string * PersonaDescriptor);
  backup_default_persona : option string }.

(** What the file input holds. *)
Inductive RestoreInput :=
| no_file
| invalid_file
| invalid_format
| backup_file (data : Backup).

(** Lines 1435-1448: the personas of the file. *)
Fixpoint restore_personas (avatarsList : list string)
    (es : list (string * string)) (st : State)
    (warnings : list RestoreWarning) : State * list RestoreWarning :=
  match es with
  | [] => (st, warnings)
  | (key, value) :: es' =>
      if bool_decide (is_Some (personas st !! key)) then
        restore_personas avatarsList es' st
          (warnings ++ [persona_already_exists key value])
      else
        let st := set_personas (insert key value) st in
        if negb (includes avatarsList (Some key)) then
          restore_personas avatarsList es'
            (emit (uploadUserAvatar default_user_avatar key) st)
            (warnings ++ [persona_image_missing key value])
        else restore_personas avatarsList es' st warnings
  end.

(** Lines 1451-1463: the descriptors of the file. *)
Fixpoint restore_descriptions (es : list (string * PersonaDescriptor))
    (st : State) (warnings : list RestoreWarning)
    : State * list RestoreWarning :=
  match es with
  | [] => (st, warnings)
  | (key, value) :: es' =>
      if Obj.has key (persona_descriptions st) then
        restore_descriptions es' st
          (warnings ++ [description_already_exists key (personas st !! key)])
      else if negb (truthy (personas st !! key)) then
        restore_descriptions es' st (warnings ++ [persona_does_not_exist key])
      else
        restore_descriptions es'
          (set_persona_descriptions (Obj.set key value) st) warnings
  end.

(** Lines 1465-1471: the default persona of the file. *)
Definition restore_default (data_default : option string) (st : State)
    (warnings : list RestoreWarning) : State * list RestoreWarning :=
  if truthy data_default then
    if bool_decide (is_Some (personas st !! nullish data_default EmptyString))
    then (set_default_persona data_default st, warnings)
    else
      (st,
       warnings ++ [default_does_not_exist (nullish data_default EmptyString)])
  else (st, warnings).

(** Lines 1431-1471: the merge and its warnings. *)
Definition restore_merge (avatarsList : list string) (data : Backup)
    (st : State) : State * list RestoreWarning :=
  let '(st, warnings) :=
    restore_personas avatarsList (backup_personas data) st [] in
  let '(st, warnings) :=
    restore_descriptions (backup_persona_descriptions data) st warnings in
  restore_default (backup_default_persona data) st warnings.

(** [onPersonasRestoreInput(e)] *)
Definition onPersonasRestoreInput (avatarsList : list string)
    (input : RestoreInput) (st : State) : State :=
  match input with
  | no_file => st
  | invalid_file | invalid_format =>
      emit (toastr_warning "Persona Management") st
  | backup_file data =>
      let '(st, warnings) := restore_merge avatarsList data st in
      let st :=
        match warnings with
        | [] => emit (toastr_success "Persona Management") st
        | _ =>
            emit (restore_report warnings)
              (emit (toastr_success "Persona Management") st)
        end in
      emit saveSettingsDebounced (setPersonaDescription st)
  end.

(** ** Duplicating a persona *)

Definition is_alnum (c : Ascii.ascii) : bool :=
  let n := Ascii.N_of_ascii c in
  ((48 <=? n) && (n <=? 57) || (65 <=? n) && (n <=? 90)
   || (97 <=? n) && (n <=? 122))%N.

(** [name.replace(/[^a-zA-Z0-9]/g, '')] *)
Fixpoint alnum_only (s : string) : string :=
  match s with
  | EmptyString => EmptyString
  | String c s' =>
      if is_alnum c then String c (alnum_only s') else alnum_only s'
  end.

(** The id of a new avatar: the clock, a dash, the letters and digits of
    the name, and the extension. *)
Definition new_avatar_id (now : N) (personaName : string) : string :=
  pretty now +:+ "-" +:+ alnum_only personaName +:+ ".png".

(** [duplicatePersona(avatarId)]: [confirm] is the answer to the
    confirmation and [now] the value of [Date.now()]. *)
Definition duplicatePersona (avatarId : string) (confirm : bool) (now : N)
    (st : State) : State :=
  let personaName := personas st !! avatarId in
  if negb (truthy personaName) then
    emit (toastr_warning "Persona Management") st
  else
    let personaName := nullish personaName EmptyString in
    let st :=
      emit (popup_confirm "Are you sure you want to duplicate this persona?")
        st in
    if negb confirm then st
    else
      let newAvatarId := new_avatar_id now personaName in
      let descriptor := Obj.get avatarId (persona_descriptions st) in
      let st := set_personas (insert newAvatarId personaName) st in
      let st :=
        set_persona_descriptions
          (Obj.set newAvatarId
             {| description :=
                  Some (nullish (descriptor ≫= description) EmptyString);
                position := Some (nullish (descriptor ≫= position) IN_PROMPT);
                depth := Some (nullish (descriptor ≫= depth) DEFAULT_DEPTH);
                role := Some (nullish (descriptor ≫= role) DEFAULT_ROLE);
                lorebook :=
                  Some (nullish (descriptor ≫= lorebook) EmptyString);
                connections := None |}) st in
      let st := emit (uploadUserAvatar (getUserAvatar avatarId) newAvatarId) st in
      emit saveSettingsDebounced st.

#[global] Instance PersonaDescriptor_eq_dec : EqDecision PersonaDescriptor.
Proof. solve_decision. Defined.

(** ** Creating, renaming and binding personas *)

(** The descriptor written by [initPersona], [updatePersonaNameIfExists],
    [duplicatePersona] and [convertCharacterToPersona]: the defaults, and no
    [connections] property. *)
Definition new_descriptor (personaDescription : string) : PersonaDescriptor :=
  {| description := Some personaDescription; position := Some IN_PROMPT;
     depth := Some DEFAULT_DEPTH; role := Some DEFAULT_ROLE;
     lorebook := Some EmptyString; connections := None |}.

(** [initPersona(avatarId, personaName, personaDescription)] *)
Definition initPersona (avatarId personaName : string)
    (personaDescription : option string) (st : State) : State :=
  let st := set_personas (insert avatarId personaName) st in
  let st :=
    set_persona_descriptions
      (Obj.set avatarId
         (new_descriptor
            (nullish (js_or personaDescription (Some EmptyString))
               EmptyString))) st in
  emit saveSettingsDebounced st.

(** [createPersona(avatarId)]: [personaName] and [personaDescription] are
    what the two input pop-ups answer ([null] when cancelled).  The input
    pop-ups are collaborators whose answers are arguments; they leave no
    entry in the log. *)
Definition createPersona (avatarId : string)
    (personaName personaDescription : option string) (st : State) : State :=
  if negb (truthy personaName) then st
  else
    let st :=
      initPersona avatarId (nullish personaName EmptyString)
        personaDescription st in
    when (persona_show_notifications st)
      (emit (toastr_success "Persona Created")) st.

(** [createDummyPersona()]: [personaName] is the answer of the input
    pop-up, [now] the value of [Date.now()]. *)
Definition createDummyPersona (personaName : option string) (now : N)
    (st : State) : State :=
  if negb (truthy personaName) then st
  else
    let avatarId := new_avatar_id now (nullish personaName EmptyString) in
    let st :=
      initPersona avatarId (nullish personaName EmptyString)
        (Some EmptyString) st in
    emit (uploadUserAvatar default_user_avatar avatarId) st.

(** [updatePersonaNameIfExists(avatarId, newName)] *)
Definition updatePersonaNameIfExists (avatarId newName : string)
    (st : State) : State :=
  let st :=
    if bool_decide (is_Some (personas st !! avatarId)) then
      set_personas (insert avatarId newName) st
    else
      set_persona_descriptions
        (Obj.set avatarId (new_descriptor EmptyString))
        (set_personas (insert avatarId newName) st) in
  emit saveSettingsDebounced st.

(** The handler of the rename button: [userName] is the trimmed text of
    the name field. *)
Definition persona_rename_button (userName : string) (st : State) : State :=
  let st := set_name1 userName (emit (setUserName userName) st) in
  updatePersonaNameIfExists (user_avatar st) userName st.

(** [bindUserNameToPersona()]: [personaName] is the answer of the input
    pop-up ([null] when it is cancelled) and [personaUnbind] what its
    [onClose] sets: the pop-up was confirmed with an empty name.  The local
    [avatarId] is [user_avatar], so [isCurrentPersona] is true. *)
Definition bindUserNameToPersona (personaName : option string)
    (personaUnbind : bool) (st : State) : State :=
  let avatarId := user_avatar st in
  if negb (truthy (Some avatarId)) then
    emit (console_warn "No avatar id found") st
  else if bool_decide (personaName = None) && negb personaUnbind then st
  else
    let st :=
      if truthy personaName then
        let personaName := nullish personaName EmptyString in
        let st := set_personas (insert avatarId personaName) st in
        let st :=
          match Obj.get avatarId (persona_descriptions st) with
          | Some _ => st
          | None =>
              set_persona_descriptions
                (Obj.set avatarId
                   {| description := Some (persona_description st);
                      position := Some (persona_description_position st);
                      depth := Some (persona_description_depth st);
                      role := Some (persona_description_role st);
                      lorebook := Some (persona_description_lorebook st);
                      connections := None |}) st
          end in
        let st := set_name1 personaName (emit (setUserName personaName) st) in
        updatePersonaNameIfExists (user_avatar st) personaName st
      else
        set_persona_descriptions (Obj.del avatarId)
          (set_personas (delete avatarId) st) in
    setPersonaDescription (emit saveSettingsDebounced st).

(** ** Editing the description of the selected persona *)

Definition with_description (v : string) (d : PersonaDescriptor)
    : PersonaDescriptor :=
  {| description := Some v; position := position d; depth := depth d;
     role := role d; lorebook := lorebook d; connections := connections d |}.

Definition with_position (v : DescriptionPosition) (d : PersonaDescriptor)
    : PersonaDescriptor :=
  {| description := description d; position := Some v; depth := depth d;
     role := role d; lorebook := lorebook d; connections := connections d |}.

Definition with_depth (v : Z) (d : PersonaDescriptor) : PersonaDescriptor :=
  {| description := description d; position := position d; depth := Some v;
     role := role d; lorebook := lorebook d; connections := connections d |}.

Definition with_role (v : Z) (d : PersonaDescriptor) : PersonaDescriptor :=
  {| description := description d; position := position d; depth := depth d;
     role := Some v; lorebook := lorebook d; connections := connections d |}.

Definition with_lorebook (v : string) (d : PersonaDescriptor)
    : PersonaDescriptor :=
  {| description := description d; position := position d; depth := depth d;
     role := role d; lorebook := Some v; connections := connections d |}.

(** [getOrCreatePersonaDescriptor()]: the descriptor of the selected
    avatar, made of the current description if there is none. *)
Definition getOrCreatePersonaDescriptor (st : State)
    : PersonaDescriptor * State :=
  match Obj.get (user_avatar st) (persona_descriptions st) with
  | Some object => (object, st)
  | None =>
      let object :=
        {| description := Some (persona_description st);
           position := Some (persona_description_position st);
           depth := Some (persona_description_depth st);
           role := Some (persona_description_role st);
           lorebook := Some (persona_description_lorebook st);
           connections := Some [] |} in
      (object,
       set_persona_descriptions (Obj.set (user_avatar st) object) st)
  end.

(** [const object = getOrCreatePersonaDescriptor(); object.f = v], for a
    persona that has a name. *)
Definition edit_descriptor (f : PersonaDescriptor → PersonaDescriptor)
    (st : State) : State :=
  if truthy (personas st !! user_avatar st) then
    let '(object, st) := getOrCreatePersonaDescriptor st in
    set_persona_descriptions (Obj.set (user_avatar st) (f object)) st
  else st.

(** [onPersonaDescriptionInput()]: [value] is the text of the description
    field; [dom_position], [dom_depth] and [dom_role] are what the three
    other fields of the panel hold, read when the persona has no descriptor
    yet. *)
Definition onPersonaDescriptionInput (value : string)
    (dom_position : DescriptionPosition) (dom_depth dom_role : Z)
    (st : State) : State :=
  let st :=
    set_current_description value (persona_description_position st)
      (persona_description_depth st) (persona_description_role st)
      (persona_description_lorebook st) st in
  let st :=
    if truthy (personas st !! user_avatar st) then
      let object :=
        match Obj.get (user_avatar st) (persona_descriptions st) with
        | Some object => object
        | None =>
            {| description := Some (persona_description st);
               position := Some dom_position; depth := Some dom_depth;
               role := Some dom_role; lorebook := Some EmptyString;
               connections := None |}
        end in
      set_persona_descriptions
        (Obj.set (user_avatar st)
           (with_description (persona_description st) object)) st
    else st in
  emit saveSettingsDebounced st.

(** [onPersonaDescriptionDepthValueInput()], [value] being the number in
    the depth field. *)
Definition onPersonaDescriptionDepthValueInput (value : Z) (st : State)
    : State :=
  let st :=
    set_current_description (persona_description st)
      (persona_description_position st) value (persona_description_role st)
      (persona_description_lorebook st) st in
  emit saveSettingsDebounced
    (edit_descriptor (with_depth (persona_description_depth st)) st).

(** [onPersonaDescriptionDepthRoleInput()] *)
Definition onPersonaDescriptionDepthRoleInput (value : Z) (st : State)
    : State :=
  let st :=
    set_current_description (persona_description st)
      (persona_description_position st) (persona_description_depth st) value
      (persona_description_lorebook st) st in
  emit saveSettingsDebounced
    (edit_descriptor (with_role (persona_description_role st)) st).

(** [onPersonaDescriptionPositionInput()] *)
Definition onPersonaDescriptionPositionInput (value : DescriptionPosition)
    (st : State) : State :=
  let st :=
    set_current_description (persona_description st) value
      (persona_description_depth st) (persona_description_role st)
      (persona_description_lorebook st) st in
  emit saveSettingsDebounced
    (edit_descriptor (with_position (persona_description_position st)) st).

(** The [change] handler that [onPersonaLoreButtonClick] gives the list of
    lorebooks. *)
Definition onPersonaLorebookChange (value : string) (st : State) : State :=
  let st :=
    set_current_description (persona_description st)
      (persona_description_position st) (persona_description_depth st)
      (persona_description_role st) value st in
  emit saveSettingsDebounced
    (edit_descriptor (with_lorebook (persona_description_lorebook st)) st).

(** ** The state of the lock buttons *)

(** [PersonaState], without the avatar id it repeats. *)
Record PersonaState := mkPersonaState {
  state_default : bool;
  state_locked_chat : bool;
  state_locked_character : bool }.

(** [getPersonaStates(avatarId)] *)
Definition getPersonaStates (avatarId : string) (st : State) : PersonaState :=
  let isDefaultPersona :=
    bool_decide (default_persona st = Some avatarId) in
  let hasChatLock :=
    bool_decide (chat_metadata_persona st = Some avatarId) in
  let hasCharLock :=
    match Obj.get avatarId (persona_descriptions st) with
    | Some d =>
        match connections d with
        | Some cs =>
            existsb
              (λ c,
                 (negb (truthy (selected_group st))
                  && bool_decide (conn_type c = character)
                  && bool_decide (Some (conn_id c) = this_chid_avatar st))
                 || (truthy (selected_group st)
                     && bool_decide (conn_type c = group)
                     && bool_decide (Some (conn_id c) = selected_group st)))
              cs
        | None => false
        end
    | None => false
    end in
  {| state_default := isDefaultPersona; state_locked_chat := hasChatLock;
     state_locked_character := hasCharLock |}.

(** [setPersonaLockState(state, type = 'chat')] *)
Definition setPersonaLockState (state : bool) (type : option string)
    (st : State) : Result unit :=
  if state then lockPersona type st else unlockPersona type st.

(** [togglePersonaLock(type = 'chat')]: whether the persona is locked when
    it returns. *)
Definition togglePersonaLock (type : option string) (st : State)
    : Result bool :=
  match isPersonaLocked type st with
  | Throw e st => Throw e st
  | Ok true st =>
      match unlockPersona type st with
      | Ok _ st => Ok false st
      | Throw e st => Throw e st
      end
  | Ok false st =>
      match lockPersona type st with
      | Ok _ st => Ok true st
      | Throw e st => Throw e st
      end
  end.

(** ** The messages of the chat *)

(** [getUserAvatar(avatarImg)], as the string it is. *)
Definition USER_AVATAR_PATH : string := "User Avatars/".

Definition getUserAvatar_url (avatarImg : string) : string :=
  USER_AVATAR_PATH +:+ avatarImg.

(** What the module reads and writes of a message of [chat]. *)
Record Message := mkMessage {
  is_user : bool;
  mes_name : string;
  force_avatar : option string }.

(** [syncUserNameToPersona()]: the chat after it, [confirmation] being the
    answer to the confirmation. *)
Definition syncUserNameToPersona (confirmation : bool) (st : State)
    (chat : list Message) : list Message :=
  if negb confirmation then chat
  else
    map (λ mes,
           if is_user mes then
             {| is_user := is_user mes; mes_name := name1 st;
                force_avatar := Some (getUserAvatar_url (user_avatar st)) |}
           else mes) chat.

(** The state without its log. *)
Definition without_log (st : State) : State :=
  mkState (personas st) (persona_descriptions st) (default_persona st)
    (persona_allow_multi_connections st) (persona_auto_lock st)
    (persona_show_notifications st) (persona_description st)
    (persona_description_position st) (persona_description_depth st)
    (persona_description_role st) (persona_description_lorebook st)
    (chat_metadata_persona st) (user_avatar st) (name1 st)
    (selected_group st) (this_chid_avatar st) [].

(** ** The backup file *)

(** [onBackupPersonas()], as the content of the file it offers for
    download: [entries] is [Object.entries(power_user.personas)], whose
    order the persona store of this model does not record. *)
Definition onBackupPersonas (entries : list (string * string)) (st : State)
    : Backup :=
  {| backup_personas := entries;
     backup_persona_descriptions := Obj.entries (persona_descriptions st);
     backup_default_persona := default_persona st |}.

(** ** The vocabulary of the properties *)

(** What the loop of [lockPersona] does to the descriptor of another
    persona. *)
Definition unlink_descriptor (newConnection : PersonaConnection)
    (d : PersonaDescriptor) : PersonaDescriptor :=
  let filteredConnections :=
    match connections d with
    | Some cs => List.filter (λ c, negb (same_connection c newConnection)) cs
    | None => []
    end in
  if bool_decide (Some (length filteredConnections) = length <$> connections d)
  then d
  else with_connections filteredConnections d.

(** The descriptors after [lockPersona('character')] has added the
    connection [c] to the descriptor [d] of the selected persona. *)
Definition locked_descriptions (st : State) (d : PersonaDescriptor)
    (c : PersonaConnection) : Obj.t PersonaDescriptor :=
  let mine :=
    with_connections
      (match connections d with
       | Some cs => without_current st cs
       | None => []
       end ++ [c]) d in
  let o := Obj.set (user_avatar st) mine (persona_descriptions st) in
  if persona_allow_multi_connections st then o
  else (unlink_others (personas st) (user_avatar st) c (Obj.entries o)).1.

(** [holds st k c]: the persona [k] holds the connection [c]. *)
Definition holds (st : State) (k : string) (c : PersonaConnection) : Prop :=
  ∃ d cs, Obj.get k (persona_descriptions st) = Some d
          ∧ connections d = Some cs ∧ c ∈ cs.

(** The invariant of the connection registry when connections are
    exclusive: a connection is held by at most one persona. *)
Definition exclusive (st : State) : Prop :=
  ∀ c k1 k2, holds st k1 c → holds st k2 c → k1 = k2.

(** What the resolver never touches, relative to the state [st0] it started
    from: the persona store, the settings and the open chat; the log only
    grows, and the default persona is kept or cleared. *)
Definition resolver_frame (st0 st : State) : Prop :=
  personas st = personas st0
  ∧ persona_allow_multi_connections st = persona_allow_multi_connections st0
  ∧ persona_auto_lock st = persona_auto_lock st0
  ∧ persona_show_notifications st = persona_show_notifications st0
  ∧ selected_group st = selected_group st0
  ∧ this_chid_avatar st = this_chid_avatar st0
  ∧ log st0 `prefix_of` log st
  ∧ (default_persona st = default_persona st0 ∨ default_persona st = None).

(** Nothing refers to the avatar [a] any more. *)
Definition forgotten (a : string) (st : State) : Prop :=
  personas st !! a = None
  ∧ Obj.get a (persona_descriptions st) = None
  ∧ default_persona st ≠ Some a
  ∧ chat_metadata_persona st ≠ Some a.

(** The line of the report for a descriptor of the file that is skipped. *)
Definition skipped_description (st : State)
    (kd : string * PersonaDescriptor) : RestoreWarning :=
  if Obj.has kd.1 (persona_descriptions st)
  then description_already_exists kd.1 (personas st !! kd.1)
  else persona_does_not_exist kd.1.

(** The lines of the report of a restore that finds nothing to add. *)
Definition second_report (data : Backup) (st : State) : list RestoreWarning :=
  map (λ kv, persona_already_exists kv.1 kv.2) (backup_personas data)
  ++ map (skipped_description st) (backup_persona_descriptions data)
  ++ (if truthy (backup_default_persona data)
         && negb (bool_decide
                    (is_Some (personas st
                                !! nullish (backup_default_persona data)
                                     EmptyString)))
      then [default_does_not_exist
              (nullish (backup_default_persona data) EmptyString)]
      else []).

(** The connections [cs] without [c], in their order. *)
Definition remove_connection (c : PersonaConnection)
    (cs : list PersonaConnection) : list PersonaConnection :=
  List.filter (λ x, negb (bool_decide (x = c))) cs.

(** The default persona, if there is one, is a persona of the store. *)
Definition default_names_persona (st : State) : Prop :=
  ∀ d, default_persona st = Some d → is_Some (personas st !! d).

(** The descriptor [d] without the connection [c]. *)
Definition without_connection (c : PersonaConnection) (d : PersonaDescriptor)
    : PersonaDescriptor :=
  match connections d with
  | Some cs => with_connections (remove_connection c cs) d
  | None => d
  end.

(** The position the panel shows for a stored one: the retired
    [AFTER_CHAR] is shown as [IN_PROMPT]. *)
Definition shown_position (p : DescriptionPosition) : DescriptionPosition :=
  if bool_decide (p = AFTER_CHAR) then IN_PROMPT else p.

(** The current description is the one of the descriptor [d], with the
    defaults for the properties [d] lacks. *)
Definition loaded_from (d : PersonaDescriptor) (st : State) : Prop :=
  persona_description st = nullish (description d) EmptyString
  ∧ persona_description_position st
    = shown_position (nullish (position d) IN_PROMPT)
  ∧ persona_description_depth st = nullish (depth d) DEFAULT_DEPTH
  ∧ persona_description_role st = nullish (role d) DEFAULT_ROLE
  ∧ persona_description_lorebook st = nullish (lorebook d) EmptyString.

(** What the blocks of [selectCurrentPersona] that follow the loading of
    the descriptor leave alone. *)
Definition same_persona_fields (st st' : State) : Prop :=
  personas st' = personas st
  ∧ persona_descriptions st' = persona_descriptions st
  ∧ default_persona st' = default_persona st
  ∧ user_avatar st' = user_avatar st
  ∧ name1 st' = name1 st
  ∧ persona_description st' = persona_description st
  ∧ persona_description_position st' = persona_description_position st
  ∧ persona_description_depth st' = persona_description_depth st
  ∧ persona_description_role st' = persona_description_role st
  ∧ persona_description_lorebook st' = persona_description_lorebook st.

(** The descriptor [getOrCreatePersonaDescriptor] makes of the current
    description. *)
Definition current_descriptor (st : State) : PersonaDescriptor :=
  {| description := Some (persona_description st);
     position := Some (persona_description_position st);
     depth := Some (persona_description_depth st);
     role := Some (persona_description_role st);
     lorebook := Some (persona_description_lorebook st);
     connections := Some [] |}.

(** Selecting the avatar [a] loads the descriptor [d], also after another
    avatar has been selected in between. *)
Definition read_back (d : PersonaDescriptor) (a : string) (st : State)
    : Prop :=
  ∀ other t1 t2,
    a ≠ EmptyString → other ≠ EmptyString →
    loaded_from d (setUserAvatar a t2 (setUserAvatar other t1 st)).

(** An edit of the selected persona: [st'] has [d] for its descriptor and
    reads it back, the settings are saved, and the rest is as in [st]. *)
Definition edited (d : PersonaDescriptor) (st st' : State) : Prop :=
  Obj.get (user_avatar st) (persona_descriptions st') = Some d
  ∧ (∀ k, k ≠ user_avatar st →
       Obj.get k (persona_descriptions st')
       = Obj.get k (persona_descriptions st))
  ∧ personas st' = personas st
  ∧ default_persona st' = default_persona st
  ∧ chat_metadata_persona st' = chat_metadata_persona st
  ∧ user_avatar st' = user_avatar st
  ∧ name1 st' = name1 st
  ∧ saveSettingsDebounced ∈ log st'
  ∧ read_back d (user_avatar st) st'.

(** No persona holds in [st'] a connection it does not hold in [st]. *)
Definition no_new_connections (st st' : State) : Prop :=
  ∀ k c, holds st' k c → holds st k c.

(** ** Example states *)

(** A character chat with two personas, opened with nothing selected. *)
Definition alice_and_bob : State :=
  mkState
    {[ "alice.png" := "Alice"; "bob.png" := "Bob" ]}
    [("alice.png", empty_descriptor); ("bob.png", empty_descriptor)]
    None false false false EmptyString IN_PROMPT DEFAULT_DEPTH DEFAULT_ROLE
    EmptyString None "alice.png" "Alice" None (Some "seraphina.png") [].

(** Alice is locked to the character, then Bob is selected. *)
Definition alice_locked_bob_selected : State :=
  set_user_avatar "bob.png"
    (result_state (lockPersona (Some "character") alice_and_bob)).

(** An avatar uploaded without a name, selected in a group chat. *)
Definition unbound_avatar : State :=
  mkState ∅ [] None false false true EmptyString IN_PROMPT DEFAULT_DEPTH
    DEFAULT_ROLE EmptyString None "new.png" "You" (Some "group-1") None [].

(** Alice has a description and a connection to a character. *)
Definition alice_described : State :=
  mkState {[ "alice.png" := "Alice" ]}
    [("alice.png",
      {| description := Some "A traveller."; position := Some AT_DEPTH;
         depth := Some 4%Z; role := Some 1%Z; lorebook := Some "Travels";
         connections := Some [mkConnection character "seraphina.png"] |})]
    None false false false "A traveller." AT_DEPTH 4 1 "Travels" None
    "alice.png" "Alice" None (Some "seraphina.png") [].

(** The example of the specification: Alice is the default persona and
    locked to the open chat. *)
Definition alice_default_and_locked : State :=
  mkState {[ "alice.png" := "Alice" ]} [("alice.png", empty_descriptor)]
    (Some "alice.png") false false false EmptyString IN_PROMPT DEFAULT_DEPTH
    DEFAULT_ROLE EmptyString (Some "alice.png") "alice.png" "Alice" None
    (Some "seraphina.png") [].

(** Alice and Bob are both connected to the open character, and
    connections are exclusive by setting. *)
Definition two_connected : State :=
  mkState {[ "alice.png" := "Alice"; "bob.png" := "Bob" ]}
    [("alice.png",
      with_connections [mkConnection character "seraphina.png"]
        empty_descriptor);
     ("bob.png",
      with_connections [mkConnection character "seraphina.png"]
        empty_descriptor)]
    None false false false EmptyString IN_PROMPT DEFAULT_DEPTH DEFAULT_ROLE
    EmptyString None "bob.png" "Bob" None (Some "seraphina.png") [].

(** Alice, selected in the chat of a group. *)
Definition alice_in_group : State :=
  mkState {[ "alice.png" := "Alice" ]} [("alice.png", empty_descriptor)]
    None false false false EmptyString IN_PROMPT DEFAULT_DEPTH DEFAULT_ROLE
    EmptyString None "alice.png" "Alice" (Some "group-1") None [].

(** Alice locked to the group, by [lockPersona('character')]. *)
Definition alice_locked_to_group : State :=
  result_state (lockPersona (Some "character") alice_in_group).

(** Alice is selected; the default persona is an avatar that is neither in
    the store nor on the server. *)
Definition default_is_gone : State :=
  mkState {[ "alice.png" := "Alice" ]} [("alice.png", empty_descriptor)]
    (Some "gone.png") false false false EmptyString IN_PROMPT DEFAULT_DEPTH
    DEFAULT_ROLE EmptyString None "alice.png" "Alice" None
    (Some "seraphina.png") [].

(** The default persona has a name, its avatar is gone from the server, and
    personas are locked to the chat as they are selected. *)
Definition default_avatar_is_gone : State :=
  mkState {[ "alice.png" := "Alice"; "ghost.png" := "Ghost" ]}
    [("alice.png", empty_descriptor); ("ghost.png", empty_descriptor)]
    (Some "ghost.png") false true false EmptyString IN_PROMPT DEFAULT_DEPTH
    DEFAULT_ROLE EmptyString None "alice.png" "Alice" None
    (Some "seraphina.png") [].

(** Bob is the default persona; the file was saved when Alice was, and
    holds a descriptor for Zoe, who has no persona. *)
Definition bob_is_default : State :=
  mkState {[ "alice.png" := "Alice"; "bob.png" := "Bob" ]}
    [("alice.png", empty_descriptor); ("bob.png", empty_descriptor)]
    (Some "bob.png") false false false EmptyString IN_PROMPT DEFAULT_DEPTH
    DEFAULT_ROLE EmptyString None "bob.png" "Bob" None
    (Some "seraphina.png") [].

Definition backup_of_alice : Backup :=
  {| backup_personas := [("alice.png", "Alice")];
     backup_persona_descriptions :=
       [("alice.png", empty_descriptor); ("zoe.png", empty_descriptor)];
     backup_default_persona := Some "alice.png" |}.

(** Alice is connected to the open character; the file holds Bob with a
    connection to the same character. *)
Definition alice_connected : State :=
  mkState {[ "alice.png" := "Alice" ]}
    [("alice.png",
      with_connections [mkConnection character "seraphina.png"]
        empty_descriptor)]
    None false false false EmptyString IN_PROMPT DEFAULT_DEPTH DEFAULT_ROLE
    EmptyString None "alice.png" "Alice" None (Some "seraphina.png") [].

Definition backup_of_bob : Backup :=
  {| backup_personas := [("bob.png", "Bob")];
     backup_persona_descriptions :=
       [("bob.png",
         with_connections [mkConnection character "seraphina.png"]
           empty_descriptor)];
     backup_default_persona := None |}.

(** The chat of a group, with two personas; Alice is selected. *)
Definition alice_and_bob_in_group : State :=
  mkState {[ "alice.png" := "Alice"; "bob.png" := "Bob" ]}
    [("alice.png", empty_descriptor); ("bob.png", empty_descriptor)]
    None false false false EmptyString IN_PROMPT DEFAULT_DEPTH DEFAULT_ROLE
    EmptyString None "alice.png" "Alice" (Some "group-1") None [].

(** Alice is locked to the group by [lockPersona('character')], then the
    user selects Bob. *)
Definition bob_selected_in_alices_group : State :=
  setUserAvatar "bob.png" true
    (result_state (lockPersona (Some "character") alice_and_bob_in_group)).

(** Nobody yet: the chat of a character, no persona, no avatar selected. *)
Definition nobody : State :=
  mkState ∅ [] None false false false EmptyString IN_PROMPT DEFAULT_DEPTH
    DEFAULT_ROLE EmptyString None EmptyString "You" None
    (Some "seraphina.png") [].

(** A persona made by [createDummyPersona] when the clock shows
    1700000000000, then selected and locked to the open character. *)
Definition alice_b_locked : State :=
  result_state
    (lockPersona (Some "character")
       (setUserAvatar "1700000000000-AliceB.png" true
          (createDummyPersona (Some "Alice B.") 1700000000000 nobody))).

(** * Properties *)

(** ** Enumerated objects *)

Section obj_lemmas.
Context {V : Type}.
Implicit Types (k : string) (v : V) (o : Obj.t V).

Lemma obj_get_set_eq k v o : Obj.get k (Obj.set k v o) = Some v.
Proof.
  induction o as [|[k' v'] o IH]; simpl; repeat case_decide; simpl;
    repeat case_decide; congruence.
Qed.

Lemma obj_get_set_ne k k' v o :
  k ≠ k' → Obj.get k (Obj.set k' v o) = Obj.get k o.
Proof.
  intros Hne. induction o as [|[k2 v2] o IH]; simpl; repeat case_decide; simpl;
    repeat case_decide; congruence.
Qed.

Lemma obj_get_del_eq k o : Obj.get k (Obj.del k o) = None.
Proof.
  induction o as [|[k' v'] o IH]; simpl; repeat case_decide; simpl;
    repeat case_decide; congruence.
Qed.

Lemma obj_get_del_ne k k' o :
  k ≠ k' → Obj.get k (Obj.del k' o) = Obj.get k o.
Proof.
  intros Hne. induction o as [|[k2 v2] o IH]; simpl; repeat case_decide; simpl;
    repeat case_decide; congruence.
Qed.

(** Assigning to a key the object lacks appends it. *)
Lemma obj_set_fresh k v o :
  Obj.get k o = None → Obj.set k v o = o ++ [(k, v)].
Proof.
  induction o as [|[k' v'] o IH]; simpl; [done|].
  case_decide; [done|]. intros Hg. by rewrite IH.
Qed.

Lemma obj_has_get k o : Obj.has k o = true ↔ is_Some (Obj.get k o).
Proof.
  unfold Obj.has. destruct (Obj.get k o); split; intros H; try done.
Qed.

Lemma obj_has_false k o : Obj.has k o = false ↔ Obj.get k o = None.
Proof. unfold Obj.has. by destruct (Obj.get k o). Qed.

(** A walk over the entries that rewrites the values in place. *)
Lemma obj_get_map (f : string → V → V) k o :
  Obj.get k (map (λ kd, (kd.1, f kd.1 kd.2)) o) = f k <$> Obj.get k o.
Proof.
  induction o as [|[k' v'] o IH]; simpl; [done|].
  case_decide; by subst.
Qed.

End obj_lemmas.

(** ** Truth values *)

Lemma truthy_Some s : truthy (Some s) = true ↔ s ≠ EmptyString.
Proof.
  unfold truthy.
  destruct (String.eqb_spec s EmptyString); simpl; split; congruence.
Qed.

Lemma truthy_is_Some v : truthy v = true → ∃ s, v = Some s ∧ s ≠ EmptyString.
Proof.
  destruct v as [s|]; [|done]. intros H. exists s. split; [done|].
  by apply truthy_Some.
Qed.

(** ** Unknown lock types *)

Lemma lock_type_of_unknown type :
  type ≠ "chat" → type ≠ "character" → type ≠ "default" →
  lock_type_of type = None.
Proof. intros. unfold lock_type_of. repeat case_decide; congruence. Qed.

(** C8: an argument that is none of the lock types makes the lock-state
    query, the unlock operation and the lock operation throw the error
    [Unknown persona lock type]; none of them returns a value.  (The lock
    operation throws from the state it reached after making sure the avatar
    is a persona.) *)
Theorem unknown_lock_type_throws (type : string) (st : State) :
  type ≠ "chat" → type ≠ "character" → type ≠ "default" →
  isPersonaLocked (Some type) st = Throw (unknown_lock_type type) st
  ∧ unlockPersona (Some type) st = Throw (unknown_lock_type type) st
  ∧ lockPersona (Some type) st
    = Throw (unknown_lock_type type) (lock_ensure_persona st).
Proof.
  intros H1 H2 H3.
  pose proof (lock_type_of_unknown type H1 H2 H3) as Hu.
  unfold isPersonaLocked, unlockPersona, lockPersona, lock_switch. simpl.
  by rewrite Hu.
Qed.

(** ** What the operations leave alone *)

Lemma toggleDefaultPersona_frame avatarId quiet confirm st :
  let st' := toggleDefaultPersona avatarId quiet confirm st in
  personas st' = personas st
  ∧ persona_descriptions st' = persona_descriptions st
  ∧ user_avatar st' = user_avatar st
  ∧ chat_metadata_persona st' = chat_metadata_persona st.
Proof.
  unfold toggleDefaultPersona, when.
  repeat (case_match; simpl); done.
Qed.

Lemma lock_ensure_persona_frame st :
  let st' := lock_ensure_persona st in
  user_avatar st' = user_avatar st
  ∧ name1 st' = name1 st
  ∧ selected_group st' = selected_group st
  ∧ this_chid_avatar st' = this_chid_avatar st
  ∧ persona_allow_multi_connections st' = persona_allow_multi_connections st
  ∧ default_persona st' = default_persona st
  ∧ chat_metadata_persona st' = chat_metadata_persona st.
Proof.
  unfold lock_ensure_persona, when. repeat (case_match; simpl); done.
Qed.

Lemma lock_ensure_persona_new st :
  personas st !! user_avatar st = None →
  personas (lock_ensure_persona st) = <[user_avatar st := name1 st]> (personas st)
  ∧ persona_descriptions (lock_ensure_persona st)
    = Obj.set (user_avatar st) empty_descriptor (persona_descriptions st).
Proof.
  intros Hnone. unfold lock_ensure_persona, when.
  rewrite bool_decide_eq_true_2 by done.
  by destruct (persona_show_notifications st).
Qed.

Lemma lock_ensure_persona_old st :
  is_Some (personas st !! user_avatar st) → lock_ensure_persona st = st.
Proof.
  intros [n Hn]. unfold lock_ensure_persona.
  rewrite bool_decide_eq_false_2; [done|congruence].
Qed.

Lemma getCurrentConnectionObj_ext st st' :
  selected_group st' = selected_group st →
  this_chid_avatar st' = this_chid_avatar st →
  getCurrentConnectionObj st' = getCurrentConnectionObj st.
Proof. unfold getCurrentConnectionObj. by intros -> ->. Qed.

(** The connection object of the open chat has an id, and it is the one
    connection [isPersonaConnectionLocked] accepts. *)
Lemma getCurrentConnectionObj_id st c :
  getCurrentConnectionObj st = Some c → conn_id c ≠ EmptyString.
Proof.
  unfold getCurrentConnectionObj.
  destruct (truthy (selected_group st)) eqn:Hg.
  - apply truthy_is_Some in Hg as (s & -> & Hs). simpl. by intros [= <-].
  - destruct (truthy (this_chid_avatar st)) eqn:Ha; [|done].
    apply truthy_is_Some in Ha as (s & -> & Hs). simpl. by intros [= <-].
Qed.

Lemma isPersonaConnectionLocked_current st c c' :
  getCurrentConnectionObj st = Some c →
  isPersonaConnectionLocked st c' = true ↔ c' = c.
Proof.
  unfold getCurrentConnectionObj, isPersonaConnectionLocked.
  destruct (truthy (selected_group st)) eqn:Hg; simpl.
  - apply truthy_is_Some in Hg as (s & -> & Hs). simpl. intros [= <-].
    destruct c' as [ty id]; simpl.
    rewrite andb_true_iff, !bool_decide_eq_true.
    split; intros; destruct_and?; by simplify_eq.
  - destruct (truthy (this_chid_avatar st)) eqn:Ha; [|done].
    apply truthy_is_Some in Ha as (s & -> & Hs). simpl. intros [= <-].
    destruct c' as [ty id]; simpl.
    rewrite orb_false_r, andb_true_iff, !bool_decide_eq_true.
    split; intros; destruct_and?; by simplify_eq.
Qed.

Lemma same_connection_eq a b : same_connection a b = true ↔ a = b.
Proof.
  unfold same_connection. rewrite andb_true_iff, !bool_decide_eq_true.
  destruct a, b; simpl. split; intros; destruct_and?; by simplify_eq.
Qed.

Lemma unlink_others_map names me c es :
  (unlink_others names me c es).1
  = map (λ kd, (kd.1, if decide (kd.1 = me) then kd.2
                      else unlink_descriptor c kd.2)) es.
Proof.
  induction es as [|[k d] es IH]; simpl; [done|].
  destruct (unlink_others names me c es) as [rest unlinked]. simpl in IH.
  subst rest. unfold unlink_descriptor.
  repeat case_decide; repeat case_bool_decide; simpl; congruence.
Qed.

Lemma obj_get_unlink_others names me c es k :
  Obj.get k (unlink_others names me c es).1
  = (λ d, if decide (k = me) then d else unlink_descriptor c d)
      <$> Obj.get k es.
Proof.
  rewrite unlink_others_map.
  pose proof (obj_get_map (λ (k' : string) (d : PersonaDescriptor),
                             if decide (k' = me) then d
                             else unlink_descriptor c d) k es) as Hmap.
  exact Hmap.
Qed.

Lemma filter_length_eq {A : Type} (f : A → bool) (l : list A) :
  length (List.filter f l) = length l → List.filter f l = l.
Proof.
  induction l as [|x l IH]; simpl; [done|].
  destruct (f x); simpl.
  - intros [= H]. by rewrite IH.
  - intros H. pose proof (List.filter_length_le f l). lia.
Qed.

(** After the loop the descriptor holds its connections except the new
    one. *)
Lemma unlink_descriptor_connections c d cs :
  connections (unlink_descriptor c d) = Some cs →
  ∃ cs0, connections d = Some cs0
         ∧ cs = List.filter (λ x, negb (same_connection x c)) cs0
    ∨ connections d = None ∧ cs = [].
Proof.
  unfold unlink_descriptor. case_bool_decide as Hlen; simpl.
  - destruct (connections d) as [cs0|] eqn:Hc; [|done].
    intros [= <-]. simpl in Hlen. exists cs0. left. split; [done|].
    symmetry. apply filter_length_eq. congruence.
  - intros [= <-]. destruct (connections d) as [cs0|]; [|by exists []; right].
    exists cs0. by left.
Qed.

Lemma elem_of_List_filter {A : Type} (f : A → bool) (l : list A) (x : A) :
  x ∈ List.filter f l ↔ x ∈ l ∧ f x = true.
Proof. rewrite !list_elem_of_In. apply List.filter_In. Qed.

(** ** Locking to the open character or group *)

Lemma lock_switch_character st d c :
  Obj.get (user_avatar st) (persona_descriptions st) = Some d →
  getCurrentConnectionObj st = Some c →
  ∃ st', lock_switch "character" st = Ok () st'
         ∧ persona_descriptions st' = locked_descriptions st d c
         ∧ personas st' = personas st
         ∧ user_avatar st' = user_avatar st
         ∧ default_persona st' = default_persona st
         ∧ chat_metadata_persona st' = chat_metadata_persona st.
Proof.
  intros Hd Hc. unfold lock_switch. simpl. rewrite Hd, Hc.
  pose proof (getCurrentConnectionObj_id _ _ Hc) as Hid.
  apply truthy_Some in Hid. rewrite Hid.
  unfold locked_descriptions, when.
  destruct (persona_allow_multi_connections st) eqn:Hm; simpl;
    rewrite ?Hm; simpl;
    destruct (persona_show_notifications st); simpl;
    eexists; (split; [reflexivity|]); simpl; rewrite ?Hm; done.
Qed.

Lemma locked_descriptions_mine st d c :
  Obj.get (user_avatar st) (locked_descriptions st d c)
  = Some (with_connections
            (match connections d with
             | Some cs => without_current st cs
             | None => []
             end ++ [c]) d).
Proof.
  unfold locked_descriptions.
  destruct (persona_allow_multi_connections st).
  - apply obj_get_set_eq.
  - unfold Obj.entries. rewrite obj_get_unlink_others, obj_get_set_eq.
    simpl. by rewrite decide_True.
Qed.

Lemma locked_descriptions_other st d c k :
  persona_allow_multi_connections st = false →
  k ≠ user_avatar st →
  Obj.get k (locked_descriptions st d c)
  = unlink_descriptor c <$> Obj.get k (persona_descriptions st).
Proof.
  intros Hm Hk. unfold locked_descriptions. rewrite Hm.
  unfold Obj.entries. rewrite obj_get_unlink_others.
  rewrite obj_get_set_ne by done.
  destruct (Obj.get k (persona_descriptions st)); simpl; [|done].
  by rewrite decide_False.
Qed.

(** Where a connection held after the lock comes from. *)
Lemma holds_after_lock st st' d c k c' :
  persona_allow_multi_connections st = false →
  getCurrentConnectionObj st = Some c →
  Obj.get (user_avatar st) (persona_descriptions st) = Some d →
  persona_descriptions st' = locked_descriptions st d c →
  holds st' k c' →
  (k = user_avatar st ∧ c' = c)
  ∨ (holds st k c' ∧ (k ≠ user_avatar st → c' ≠ c)).
Proof.
  intros Hm Hc Hd Hst' (d' & cs' & Hget & Hcs & Hin).
  rewrite Hst' in Hget.
  destruct (decide (k = user_avatar st)) as [->|Hk].
  - rewrite locked_descriptions_mine in Hget. simplify_eq. simpl in Hcs.
    simplify_eq. apply elem_of_app in Hin as [Hin|Hin].
    + right. split; [|done].
      destruct (connections d) as [cs|] eqn:Hcs; [|by apply elem_of_nil in Hin].
      apply elem_of_List_filter in Hin as [Hin _].
      by exists d, cs.
    + left. apply list_elem_of_singleton in Hin. done.
  - rewrite (locked_descriptions_other _ _ _ _ Hm Hk) in Hget.
    destruct (Obj.get k (persona_descriptions st)) as [d0|] eqn:Hd0; [|done].
    simpl in Hget. simplify_eq.
    apply unlink_descriptor_connections in Hcs as (cs0 & [[Hcs0 ->]|[_ ->]]);
      [|by apply elem_of_nil in Hin].
    apply elem_of_List_filter in Hin as [Hin Hne].
    right. split; [by exists d0, cs0|].
    intros _ ->. apply negb_true_iff in Hne.
    assert (same_connection c c = true) by by apply same_connection_eq.
    congruence.
Qed.

Lemma lock_type_of_inv type t :
  lock_type_of type = Some t →
  match t with
  | lock_chat => type = "chat"
  | lock_character => type = "character"
  | lock_default => type = "default"
  end.
Proof.
  unfold lock_type_of. repeat case_decide; intros; by simplify_eq.
Qed.

Lemma holds_ensure_persona st k c :
  holds (lock_ensure_persona st) k c → holds st k c.
Proof.
  destruct (personas st !! user_avatar st) as [n|] eqn:Hn.
  - by rewrite lock_ensure_persona_old.
  - intros (d & cs & Hget & Hcs & Hin).
    destruct (lock_ensure_persona_new st Hn) as [_ Hd]. rewrite Hd in Hget.
    destruct (decide (k = user_avatar st)) as [->|Hk].
    + rewrite obj_get_set_eq in Hget. simplify_eq. simpl in Hcs.
      simplify_eq. by apply elem_of_nil in Hin.
    + rewrite obj_get_set_ne in Hget by done. by exists d, cs.
Qed.

(** The selected avatar has a descriptor once [lockPersona] has made sure
    it is a persona, provided a persona that has a name has one. *)
Lemma ensure_persona_descriptor st :
  personas st !! user_avatar st = None
  ∨ is_Some (Obj.get (user_avatar st) (persona_descriptions st)) →
  is_Some (Obj.get (user_avatar st)
             (persona_descriptions (lock_ensure_persona st))).
Proof.
  intros Hwf. destruct (personas st !! user_avatar st) as [n|] eqn:Hn.
  - rewrite lock_ensure_persona_old by (by rewrite Hn).
    by destruct Hwf.
  - destruct (lock_ensure_persona_new st Hn) as [_ ->].
    rewrite obj_get_set_eq. by eexists.
Qed.

(** C2: with multi-connection disallowed, locking the selected persona to
    the open character or group [c] succeeds, leaves [c] with the selected
    persona and with no other persona, and keeps the registry exclusive:
    if no connection was held by two personas before, none is after.  In
    particular a persona [k] that held [c] before holds it no more. *)
Theorem exclusive_connection_after_lock (st : State) (c : PersonaConnection) :
  persona_allow_multi_connections st = false →
  getCurrentConnectionObj st = Some c →
  personas st !! user_avatar st = None
  ∨ is_Some (Obj.get (user_avatar st) (persona_descriptions st)) →
  ∃ st', lockPersona (Some "character") st = Ok () st'
         ∧ holds st' (user_avatar st) c
         ∧ (∀ k, k ≠ user_avatar st → ¬ holds st' k c)
         ∧ (exclusive st → exclusive st').
Proof.
  intros Hm Hc Hwf.
  destruct (ensure_persona_descriptor st Hwf) as [d Hd].
  destruct (lock_ensure_persona_frame st)
    as (Hua & _ & Hsg & Hav & Hmulti & _ & _).
  set (st1 := lock_ensure_persona st) in *.
  assert (getCurrentConnectionObj st1 = Some c) as Hc1
    by (by rewrite (getCurrentConnectionObj_ext st st1)).
  rewrite <- Hua in Hd.
  destruct (lock_switch_character st1 d c Hd Hc1)
    as (st' & Hok & Hdescs & _).
  assert (persona_allow_multi_connections st1 = false) as Hm1 by congruence.
  exists st'. split; [exact Hok|]. split; [|split].
  - exists (with_connections
              (match connections d with
               | Some cs => without_current st1 cs
               | None => []
               end ++ [c]) d). eexists.
    rewrite Hdescs, <- Hua, locked_descriptions_mine. simpl.
    split; [done|]. split; [done|].
    apply elem_of_app. right. apply list_elem_of_here.
  - intros k Hk Hholds.
    destruct (holds_after_lock st1 st' d c k c Hm1 Hc1 Hd Hdescs Hholds)
      as [[-> _]|[_ Hne]]; [done|].
    apply Hne; [congruence|done].
  - intros Hex c' k1 k2 H1 H2.
    pose proof (holds_after_lock st1 st' d c k1 c' Hm1 Hc1 Hd Hdescs H1) as O1.
    pose proof (holds_after_lock st1 st' d c k2 c' Hm1 Hc1 Hd Hdescs H2) as O2.
    destruct O1 as [[Hk1 Hc1']|[H1' Hne1]], O2 as [[Hk2 Hc2']|[H2' Hne2]].
    + congruence.
    + destruct (decide (k2 = user_avatar st1)) as [Hk2|Hk2]; [congruence|].
      by destruct (Hne2 Hk2).
    + destruct (decide (k1 = user_avatar st1)) as [Hk1|Hk1]; [congruence|].
      by destruct (Hne1 Hk1).
    + apply (Hex c'); by apply holds_ensure_persona.
Qed.

Example alice_holds_the_character :
  Obj.get "alice.png" (persona_descriptions alice_locked_bob_selected)
  = Some (with_connections [mkConnection character "seraphina.png"]
            empty_descriptor).
Proof. reflexivity. Qed.

(** Locking Bob to the character Alice was locked to takes it from her. *)
Lemma exclusive_connection_after_lock_witness :
  ∃ st',
    lockPersona (Some "character") alice_locked_bob_selected = Ok () st'
    ∧ holds st' "bob.png" (mkConnection character "seraphina.png")
    ∧ (∀ k, k ≠ "bob.png"
            → ¬ holds st' k (mkConnection character "seraphina.png"))
    ∧ (exclusive alice_locked_bob_selected → exclusive st').
Proof.
  apply (exclusive_connection_after_lock alice_locked_bob_selected
           (mkConnection character "seraphina.png")).
  - reflexivity.
  - reflexivity.
  - right. eexists. reflexivity.
Defined.

(** ** Locking an avatar that is no persona yet *)

(** C9: when the selected avatar is not in the persona store, every lock
    operation, whatever its argument, first makes a persona of it: its name
    is the current user name and its descriptor has the empty description,
    the in-prompt position, depth 2, role 0, no lorebook and no connection.
    The persona is there when the operation ends, its descriptor changed at
    most by the connection a character lock adds, and for each of the three
    lock types the operation returns without throwing. *)
Theorem lock_creates_persona (type : option string) (st : State) :
  personas st !! user_avatar st = None →
  let avatar := user_avatar st in
  let created := lock_ensure_persona st in
  let st' := result_state (lockPersona type st) in
  lockPersona type st = lock_switch (nullish type "chat") created
  ∧ personas created !! avatar = Some (name1 st)
  ∧ Obj.get avatar (persona_descriptions created)
    = Some {| description := Some EmptyString; position := Some IN_PROMPT;
              depth := Some 2%Z; role := Some 0%Z;
              lorebook := Some EmptyString; connections := Some [] |}
  ∧ personas st' !! avatar = Some (name1 st)
  ∧ (∃ cs, Obj.get avatar (persona_descriptions st')
           = Some (with_connections cs empty_descriptor)
           ∧ (cs = [] ∨ ∃ c, getCurrentConnectionObj st = Some c ∧ cs = [c]))
  ∧ (is_Some (lock_type_of (nullish type "chat"))
     → throws (lockPersona type st) = false).
Proof.
  intros Hnone avatar created st'. subst avatar created st'.
  destruct (lock_ensure_persona_new st Hnone) as [Hp Hd].
  destruct (lock_ensure_persona_frame st)
    as (Hua & _ & Hsg & Hav & _ & _ & _).
  unfold lockPersona.
  set (created := lock_ensure_persona st) in *.
  assert (personas created !! user_avatar st = Some (name1 st)) as Hname
    by (rewrite Hp; apply lookup_insert_eq).
  assert (Obj.get (user_avatar created) (persona_descriptions created)
          = Some empty_descriptor) as Hdesc
    by (rewrite Hd, Hua; apply obj_get_set_eq).
  split; [done|]. split; [done|].
  split; [pose proof Hdesc as Hdesc'; rewrite Hua in Hdesc'; exact Hdesc'|].
  destruct (lock_type_of (nullish type "chat")) as [t|] eqn:Ht.
  - apply lock_type_of_inv in Ht.
    destruct t; rewrite Ht.
    + (* chat *)
      unfold lock_switch, when. simpl.
      destruct (persona_show_notifications created); simpl;
        (split; [done|]); (split; [|done]);
        exists []; rewrite <- Hua, Hdesc; eauto.
    + (* character *)
      destruct (getCurrentConnectionObj created) as [c|] eqn:Hc.
      * destruct (lock_switch_character created empty_descriptor c Hdesc Hc)
          as (st2 & -> & Hdescs & Hpers & _).
        simpl. rewrite Hpers. split; [done|]. split; [|done].
        exists [c]. rewrite Hdescs, <- Hua, locked_descriptions_mine. simpl.
        split; [done|]. right. exists c.
        by rewrite <- (getCurrentConnectionObj_ext st created).
      * unfold lock_switch. simpl. rewrite Hdesc, Hc. simpl.
        split; [done|]. split; [|done].
        exists []. rewrite <- Hua, Hdesc. eauto.
    + (* default *)
      unfold lock_switch. simpl.
      destruct (toggleDefaultPersona_frame (user_avatar created) true true
                  created) as (Hp' & Hd' & _).
      rewrite Hp', Hd'. split; [done|]. split; [|done].
      exists []. rewrite <- Hua, Hdesc. eauto.
  - unfold lock_switch. rewrite Ht. simpl.
    split; [done|]. split; [|by intros [? ?]].
    exists []. rewrite <- Hua, Hdesc. eauto.
Qed.

Lemma lock_creates_persona_witness :
  personas (result_state (lockPersona (Some "character") unbound_avatar))
    !! "new.png" = Some "You"
  ∧ ∃ cs, Obj.get "new.png"
            (persona_descriptions
               (result_state (lockPersona (Some "character") unbound_avatar)))
          = Some (with_connections cs empty_descriptor)
          ∧ (cs = [] ∨ ∃ c, getCurrentConnectionObj unbound_avatar = Some c
                            ∧ cs = [c]).
Proof.
  pose proof (lock_creates_persona (Some "character") unbound_avatar
                eq_refl) as H.
  simpl in H. destruct H as (_ & _ & _ & Hn & Hd & _).
  split; [exact Hn|exact Hd].
Defined.

Lemma unknown_lock_type_throws_witness :
  isPersonaLocked (Some "group") alice_and_bob
  = Throw (unknown_lock_type "group") alice_and_bob
  ∧ unlockPersona (Some "group") alice_and_bob
    = Throw (unknown_lock_type "group") alice_and_bob
  ∧ lockPersona (Some "group") alice_and_bob
    = Throw (unknown_lock_type "group") (lock_ensure_persona alice_and_bob).
Proof.
  apply (unknown_lock_type_throws "group" alice_and_bob); discriminate.
Defined.

(** ** Duplicating a persona *)

Lemma obj_get_none_keys {V : Type} (k : string) (o : Obj.t V) :
  Obj.get k o = None → k ∉ o.*1.
Proof.
  induction o as [|[k' v'] o IH]; simpl.
  - intros _. apply not_elem_of_nil.
  - case_decide as Hk; [done|]. intros Hg.
    apply not_elem_of_cons. split; [done|auto].
Qed.

Lemma getConnectedPersonas_keys characterKey st k :
  k ∈ getConnectedPersonas characterKey st →
  ∃ d, (k, d) ∈ persona_descriptions st
       ∧ connected_to
           (match characterKey with
            | Some key => Some key
            | None => js_or (selected_group st) (this_chid_avatar st)
            end) d = true.
Proof.
  unfold getConnectedPersonas, Obj.entries.
  intros ([k' d] & -> & Hin)%list_elem_of_fmap.
  apply elem_of_List_filter in Hin as [Hin Hc]. by exists d.
Qed.

(** What duplication does when the avatar id it builds is not in use
    (which the code does not check): duplicating a persona then
    stores the name of the original under the new id together with a
    descriptor that takes its description, position, depth, role and
    lorebook from the descriptor of the original (the defaults where the
    original has none) and has no connections: the duplicate is connected
    to no character or group.  Every other entry of the persona store and
    of the descriptor store, those of the original among them, is as it
    was. *)
Theorem duplicate_copies_without_connections
    (avatarId : string) (now : N) (st : State) (name : string) :
  personas st !! avatarId = Some name →
  name ≠ EmptyString →
  personas st !! new_avatar_id now name = None →
  Obj.get (new_avatar_id now name) (persona_descriptions st) = None →
  let newAvatarId := new_avatar_id now name in
  let original := Obj.get avatarId (persona_descriptions st) in
  let st' := duplicatePersona avatarId true now st in
  personas st' !! newAvatarId = Some name
  ∧ (∃ d', Obj.get newAvatarId (persona_descriptions st') = Some d'
           ∧ description d'
             = Some (nullish (original ≫= description) EmptyString)
           ∧ position d' = Some (nullish (original ≫= position) IN_PROMPT)
           ∧ depth d' = Some (nullish (original ≫= depth) DEFAULT_DEPTH)
           ∧ role d' = Some (nullish (original ≫= role) DEFAULT_ROLE)
           ∧ lorebook d' = Some (nullish (original ≫= lorebook) EmptyString)
           ∧ connections d' = None)
  ∧ (∀ characterKey, newAvatarId ∉ getConnectedPersonas characterKey st')
  ∧ (∀ k, k ≠ newAvatarId
          → personas st' !! k = personas st !! k
            ∧ Obj.get k (persona_descriptions st')
              = Obj.get k (persona_descriptions st))
  ∧ personas st' !! avatarId = Some name
  ∧ Obj.get avatarId (persona_descriptions st') = original.
Proof.
  intros Hname Hne Hfresh Hfresh_d newAvatarId original st'.
  assert (newAvatarId ≠ avatarId) as Hdiff.
  { intros Heq. unfold newAvatarId in Heq. rewrite Heq in Hfresh. congruence. }
  assert (truthy (personas st !! avatarId) = true) as Ht
    by (rewrite Hname; by apply truthy_Some).
  subst st'. unfold duplicatePersona. rewrite Ht, Hname. simpl.
  fold newAvatarId. fold original.
  split; [apply lookup_insert_eq|].
  split.
  { eexists. rewrite obj_get_set_eq. split; [reflexivity|]. simpl. done. }
  split.
  { intros characterKey Hin.
    apply getConnectedPersonas_keys in Hin as (d & Hin & Hc). simpl in Hin.
    rewrite obj_set_fresh in Hin by done.
    apply elem_of_app in Hin as [Hin|Hin].
    - apply obj_get_none_keys in Hfresh_d. apply Hfresh_d.
      apply list_elem_of_fmap. by exists (newAvatarId, d).
    - apply list_elem_of_singleton in Hin. by simplify_eq. }
  split.
  { intros k Hk. rewrite lookup_insert_ne by done.
    by rewrite obj_get_set_ne. }
  rewrite lookup_insert_ne by done. by rewrite obj_get_set_ne.
Qed.

Example new_avatar_id_alice :
  new_avatar_id 1700000000000 "Alice" = "1700000000000-Alice.png".
Proof. vm_compute. reflexivity. Qed.

Lemma duplicate_copies_without_connections_witness :
  personas (duplicatePersona "alice.png" true 1700000000000 alice_described)
    !! new_avatar_id 1700000000000 "Alice" = Some "Alice"
  ∧ (∀ characterKey,
       new_avatar_id 1700000000000 "Alice"
       ∉ getConnectedPersonas characterKey
           (duplicatePersona "alice.png" true 1700000000000 alice_described))
  ∧ Obj.get "alice.png"
      (persona_descriptions
         (duplicatePersona "alice.png" true 1700000000000 alice_described))
    = Obj.get "alice.png" (persona_descriptions alice_described).
Proof.
  destruct (duplicate_copies_without_connections "alice.png" 1700000000000
              alice_described "Alice") as (Hn & _ & Hc & _ & _ & Ho).
  - reflexivity.
  - discriminate.
  - vm_compute. reflexivity.
  - vm_compute. reflexivity.
  - split; [exact Hn|]. split; [exact Hc|exact Ho].
Defined.

(** ** What the resolver changes *)

(** The blocks of [selectCurrentPersona] that come before the automatic
    lock leave the persona store and the selection alone. *)
Lemma scp_user_name_frame n st :
  personas (scp_user_name n st) = personas st
  ∧ user_avatar (scp_user_name n st) = user_avatar st
  ∧ persona_descriptions (scp_user_name n st) = persona_descriptions st.
Proof. unfold scp_user_name, when. by case_match. Qed.

Lemma scp_descriptor_frame st :
  personas (scp_descriptor st) = personas st
  ∧ user_avatar (scp_descriptor st) = user_avatar st.
Proof. unfold scp_descriptor. by case_match. Qed.

Lemma setPersonaDescription_frame st :
  personas (setPersonaDescription st) = personas st
  ∧ user_avatar (setPersonaDescription st) = user_avatar st
  ∧ persona_descriptions (setPersonaDescription st) = persona_descriptions st
  ∧ default_persona (setPersonaDescription st) = default_persona st.
Proof. unfold setPersonaDescription, when. by case_match. Qed.

Lemma scp_auto_lock_frame a t st :
  user_avatar (scp_auto_lock a t st) = user_avatar st.
Proof. unfold scp_auto_lock, when. by repeat (case_match; simpl). Qed.

Lemma scp_temporary_frame st :
  user_avatar (scp_temporary st) = user_avatar st.
Proof. unfold scp_temporary, when. by repeat (case_match; simpl). Qed.

Lemma selectCurrentPersona_user_avatar toast st :
  user_avatar (selectCurrentPersona toast st) = user_avatar st.
Proof.
  unfold selectCurrentPersona. case_match; [|done].
  rewrite scp_temporary_frame, scp_auto_lock_frame.
  destruct (setPersonaDescription_frame
              (scp_descriptor
                 (scp_user_name (nullish (personas st !! user_avatar st)
                                   EmptyString) st))) as (_ & -> & _).
  destruct (scp_descriptor_frame
              (scp_user_name (nullish (personas st !! user_avatar st)
                                EmptyString) st)) as (_ & ->).
  apply scp_user_name_frame.
Qed.

(** A property of the state that every assignment the resolver can make
    preserves is preserved by the resolver.  The assignments are: a call to
    a collaborator, clearing the chat lock or the default persona, the
    current user name and description, the selection, locking the chat to a
    selected persona that has a name, giving such a persona the default
    descriptor, and rewriting the descriptors in place. *)
Section resolver_invariant.

Variable P : State → Prop.

Hypothesis P_emit : ∀ e st, P st → P (emit e st).
Hypothesis P_unlock_chat : ∀ st, P st → P (set_chat_metadata_persona None st).
Hypothesis P_clear_default : ∀ st, P st → P (set_default_persona None st).
Hypothesis P_name1 : ∀ v st, P st → P (set_name1 v st).
Hypothesis P_current : ∀ d p dp r l st,
  P st → P (set_current_description d p dp r l st).
Hypothesis P_select : ∀ v st, P st → P (set_user_avatar v st).
Hypothesis P_auto_lock : ∀ st,
  truthy (personas st !! user_avatar st) = true →
  P st → P (set_chat_metadata_persona (Some (user_avatar st)) st).
Hypothesis P_new_descriptor : ∀ st,
  truthy (personas st !! user_avatar st) = true →
  P st →
  P (set_persona_descriptions (Obj.set (user_avatar st) empty_descriptor) st).
Hypothesis P_rewrite : ∀ (g : string * PersonaDescriptor
                              → string * PersonaDescriptor) st,
  (∀ kd, (g kd).1 = kd.1) → P st → P (set_persona_descriptions (map g) st).

Lemma when_inv c f st : (P st → P (f st)) → P st → P (when c f st).
Proof. unfold when. destruct c; auto. Qed.

Lemma scp_user_name_inv n st : P st → P (scp_user_name n st).
Proof. intros H. unfold scp_user_name. apply when_inv; auto. Qed.

Lemma scp_descriptor_inv st :
  truthy (personas st !! user_avatar st) = true →
  P st → P (scp_descriptor st).
Proof.
  intros Hn H. unfold scp_descriptor. case_match; [auto|].
  apply (P_new_descriptor (set_current_description _ _ _ _ _ st)); auto.
Qed.

Lemma setPersonaDescription_inv st : P st → P (setPersonaDescription st).
Proof. intros H. unfold setPersonaDescription. apply when_inv; auto. Qed.

Lemma scp_auto_lock_inv a t st :
  truthy (personas st !! user_avatar st) = true →
  P st → P (scp_auto_lock a t st).
Proof.
  intros Hn H. unfold scp_auto_lock. apply when_inv; [|done]. intros _.
  apply P_emit, when_inv; auto.
Qed.

Lemma scp_temporary_inv st : P st → P (scp_temporary st).
Proof.
  intros H. unfold scp_temporary.
  apply when_inv; [|done]. intros _. apply when_inv; auto.
Qed.

Lemma selectCurrentPersona_inv toast st :
  P st → P (selectCurrentPersona toast st).
Proof.
  intros H. unfold selectCurrentPersona.
  destruct (truthy (personas st !! user_avatar st)) eqn:Hn; [|done].
  set (n := nullish (personas st !! user_avatar st) EmptyString).
  destruct (scp_user_name_frame n st) as (Hp1 & Hu1 & _).
  destruct (scp_descriptor_frame (scp_user_name n st)) as (Hp2 & Hu2).
  destruct (setPersonaDescription_frame (scp_descriptor (scp_user_name n st)))
    as (Hp3 & Hu3 & _).
  apply scp_temporary_inv, scp_auto_lock_inv.
  { rewrite Hp3, Hu3, Hp2, Hu2, Hp1, Hu1. exact Hn. }
  apply setPersonaDescription_inv, scp_descriptor_inv.
  { rewrite Hp1, Hu1. exact Hn. }
  by apply scp_user_name_inv.
Qed.

Lemma setUserAvatar_inv imgfile toast st :
  P st → P (setUserAvatar imgfile toast st).
Proof.
  intros H. unfold setUserAvatar.
  apply P_emit, selectCurrentPersona_inv, P_select, H.
Qed.

Lemma lpc_select_inv chatPersona st : P st → P (lpc_select chatPersona st).
Proof.
  intros H. unfold lpc_select. case_match; [|done].
  apply when_inv; [auto|]. by apply setUserAvatar_inv.
Qed.

Lemma lpc_missing_inv userAvatars st : P st → P (lpc_missing userAvatars st).
Proof.
  intros H. unfold lpc_missing.
  apply when_inv; [auto|]. apply when_inv; auto.
Qed.

Lemma lpc_chat_lock_inv userAvatars st :
  P st → P (lpc_chat_lock userAvatars st).2.
Proof.
  intros H. unfold lpc_chat_lock. repeat case_match; simpl; auto.
Qed.

Lemma remove_all_connections_inv c st :
  P st → P (remove_all_connections c st).
Proof.
  intros H. unfold remove_all_connections.
  apply when_inv; [auto|]. apply P_emit, P_rewrite; [|done].
  intros kd. by case_match.
Qed.

Lemma askForPersonaSelection_inv personas targetedChar answer st :
  P st → P (askForPersonaSelection personas targetedChar answer st).2.
Proof.
  intros H. unfold askForPersonaSelection.
  repeat case_match; simpl; auto using remove_all_connections_inv.
Qed.

Lemma lpc_connection_inv answer r : P r.2 → P (lpc_connection answer r).2.
Proof.
  destruct r as [[chatPersona connectType] st]. simpl. intros H.
  unfold lpc_connection. case_match; [|done].
  destruct (getConnectedPersonas None st) as [|p [|q rest]]; simpl; [done..|].
  destruct (persona_allow_multi_connections st); simpl; [|auto].
  pose proof (askForPersonaSelection_inv (p :: q :: rest)
                (getCurrentConnectionObj st) answer st H) as Hask.
  by destruct (askForPersonaSelection _ _ _ _).
Qed.

Lemma lpc_default_inv r : P r.2 → P (lpc_default r).2.
Proof.
  destruct r as [[chatPersona connectType] st]. simpl.
  unfold lpc_default. by case_match.
Qed.

Lemma lpc_resolve_inv userAvatars answer st :
  P st → P (lpc_resolve userAvatars answer st).2.
Proof.
  intros H. unfold lpc_resolve.
  pose proof (lpc_default_inv _
                (lpc_connection_inv answer _
                   (lpc_chat_lock_inv userAvatars st H))) as Hd.
  destruct (lpc_default _) as [[chatPersona connectType] st1]. simpl in *.
  by apply lpc_missing_inv.
Qed.

Lemma loadPersonaForCurrentChat_inv userAvatars answer st :
  P st → P (loadPersonaForCurrentChat userAvatars answer st).
Proof.
  intros H. unfold loadPersonaForCurrentChat.
  pose proof (lpc_resolve_inv userAvatars answer st H) as Hr.
  destruct (lpc_resolve _ _ _) as [[chatPersona connectType] st1].
  by apply lpc_select_inv.
Qed.

End resolver_invariant.

Lemma obj_get_map_keys {V : Type} (g : string * V → string * V) k
    (o : Obj.t V) :
  (∀ kd, (g kd).1 = kd.1) → Obj.get k o = None → Obj.get k (map g o) = None.
Proof.
  intros Hg. induction o as [|[k' v'] o IH]; simpl; [done|].
  case_decide as Hk; [done|]. intros Hget.
  specialize (Hg (k', v')). destruct (g (k', v')) as [k2 v2]. simpl in *.
  subst k2. rewrite decide_False by done. auto.
Qed.

Lemma resolver_frame_refl st : resolver_frame st st.
Proof. unfold resolver_frame. repeat split; auto. Qed.

(** An event of the log of an earlier state is in the log of a later one. *)
Ltac in_log :=
  simpl; rewrite ?elem_of_app, ?list_elem_of_singleton; intuition congruence.

Ltac frame_block :=
  unfold resolver_frame; simpl; intros;
  repeat match goal with H : _ ∧ _ |- _ => destruct H end;
  repeat split; auto; try (by etrans; [eassumption|apply prefix_app_r]).

Lemma loadPersonaForCurrentChat_frame userAvatars answer st :
  resolver_frame st (loadPersonaForCurrentChat userAvatars answer st).
Proof.
  apply (loadPersonaForCurrentChat_inv (resolver_frame st));
    try apply resolver_frame_refl; frame_block.
Qed.

Lemma lpc_missing_frame userAvatars st :
  resolver_frame st (lpc_missing userAvatars st).
Proof.
  apply (lpc_missing_inv (resolver_frame st));
    try apply resolver_frame_refl; frame_block.
Qed.

Lemma lpc_select_frame chatPersona st :
  resolver_frame st (lpc_select chatPersona st).
Proof.
  apply (lpc_select_inv (resolver_frame st));
    try apply resolver_frame_refl; frame_block.
Qed.

(** ** Deleting a persona *)

Lemma delete_entries_forgotten a st : forgotten a (delete_entries a st).
Proof.
  unfold delete_entries, forgotten, when. simpl.
  repeat (case_bool_decide; simpl in * );
    rewrite ?lookup_delete_eq, ?obj_get_del_eq; repeat split; congruence.
Qed.

Lemma loadPersonaForCurrentChat_forgotten a userAvatars answer st :
  forgotten a st → forgotten a (loadPersonaForCurrentChat userAvatars answer st).
Proof.
  apply (loadPersonaForCurrentChat_inv (forgotten a)); unfold forgotten; simpl;
    try (intros; destruct_and?; repeat split; done).
  - intros st0 Hn (Hp & Hd & Hdef & Hchat). repeat split; try done.
    intros [= Heq]. rewrite Heq, Hp in Hn. done.
  - intros st0 Hn (Hp & Hd & Hdef & Hchat). repeat split; try done.
    rewrite obj_get_set_ne; [done|]. intros Heq.
    rewrite <- Heq, Hp in Hn. done.
  - intros g st0 Hg (Hp & Hd & Hdef & Hchat). repeat split; try done.
    by apply obj_get_map_keys.
Qed.

Lemma delete_entries_default a st :
  default_persona st = Some a →
  default_persona (delete_entries a st) = None
  ∧ toastr_warning "Default Persona Deleted" ∈ log (delete_entries a st).
Proof.
  intros Hd. unfold delete_entries, when. simpl. rewrite Hd.
  rewrite (bool_decide_eq_true_2 (Some a = Some a)) by done. simpl.
  case_bool_decide; simpl; (split; [done|]); set_solver.
Qed.

Lemma delete_entries_chat_lock a st :
  chat_metadata_persona st = Some a →
  chat_metadata_persona (delete_entries a st) = None
  ∧ toastr_warning "Persona Deleted" ∈ log (delete_entries a st)
  ∧ saveMetadata ∈ log (delete_entries a st).
Proof.
  intros Hc. unfold delete_entries, when. simpl.
  destruct (bool_decide (Some a = default_persona st)); simpl; rewrite Hc;
    rewrite (bool_decide_eq_true_2 (Some a = Some a)) by done; simpl;
    (split; [done|]); set_solver.
Qed.

(** C7: deleting the selected persona (the user confirms, the server
    deletes the avatar) removes its name and its descriptor.  If it was the
    default persona, the default is cleared, a warning is shown to the user
    and [isPersonaLocked('default')] answers false.  If it was locked to
    the chat, the lock is cleared on the spot and the chat metadata saved;
    after the resolution that ends the operation the chat is still not
    locked to the deleted persona. *)
Theorem delete_removes_persona (userAvatars : list string)
    (answer : PopupAnswer) (st : State) :
  user_avatar st ≠ EmptyString →
  let avatarId := user_avatar st in
  let deleted :=
    delete_entries avatarId
      (emit (fetch_avatars_delete avatarId)
         (emit (popup_confirm "Delete Persona") st)) in
  let st' := deleteUserAvatar true true userAvatars answer st in
  st' = loadPersonaForCurrentChat userAvatars answer deleted
  ∧ personas st' !! avatarId = None
  ∧ Obj.get avatarId (persona_descriptions st') = None
  ∧ (default_persona st = Some avatarId →
     default_persona st' = None
     ∧ toastr_warning "Default Persona Deleted" ∈ log st'
     ∧ isPersonaLocked (Some "default") st' = Ok false st')
  ∧ (chat_metadata_persona st = Some avatarId →
     chat_metadata_persona deleted = None ∧ saveMetadata ∈ log st')
  ∧ chat_metadata_persona st' ≠ Some avatarId.
Proof.
  intros Hne avatarId deleted st'.
  assert (st' = loadPersonaForCurrentChat userAvatars answer deleted) as Hst'.
  { subst st'. unfold deleteUserAvatar.
    apply truthy_Some in Hne. by rewrite Hne. }
  split; [exact Hst'|].
  pose proof (loadPersonaForCurrentChat_forgotten avatarId userAvatars answer
                deleted (delete_entries_forgotten _ _))
    as (Hp & Hd & Hdef & Hchat).
  pose proof (loadPersonaForCurrentChat_frame userAvatars answer deleted)
    as (_ & _ & _ & _ & _ & _ & Hlog & Hdefault).
  rewrite <- Hst' in *.
  split; [exact Hp|]. split; [exact Hd|].
  split; [|split; [|exact Hchat]].
  - intros Hwas.
    destruct (delete_entries_default avatarId
                (emit (fetch_avatars_delete avatarId)
                   (emit (popup_confirm "Delete Persona") st)) Hwas)
      as [Hnone Hwarn].
    fold deleted in Hnone, Hwarn.
    assert (default_persona st' = None) as Hcleared
      by (destruct Hdefault; congruence).
    split; [exact Hcleared|]. split.
    + destruct Hlog as [k ->]. apply elem_of_app. by left.
    + unfold isPersonaLocked. simpl. by rewrite Hcleared.
  - intros Hwas.
    destruct (delete_entries_chat_lock avatarId
                (emit (fetch_avatars_delete avatarId)
                   (emit (popup_confirm "Delete Persona") st)) Hwas)
      as (Hnone & _ & Hsaved).
    fold deleted in Hnone, Hsaved.
    split; [exact Hnone|].
    destruct Hlog as [k ->]. apply elem_of_app. by left.
Qed.

Lemma delete_removes_persona_witness :
  personas (deleteUserAvatar true true [] popup_none alice_default_and_locked)
    !! "alice.png" = None
  ∧ default_persona
      (deleteUserAvatar true true [] popup_none alice_default_and_locked)
    = None
  ∧ toastr_warning "Default Persona Deleted"
    ∈ log (deleteUserAvatar true true [] popup_none alice_default_and_locked)
  ∧ chat_metadata_persona
      (deleteUserAvatar true true [] popup_none alice_default_and_locked)
    ≠ Some "alice.png".
Proof.
  destruct (delete_removes_persona [] popup_none alice_default_and_locked)
    as (_ & Hp & _ & Hdef & _ & Hchat).
  - discriminate.
  - destruct (Hdef eq_refl) as (Hnone & Hwarn & _).
    split; [exact Hp|]. split; [exact Hnone|]. split; [exact Hwarn|exact Hchat].
Defined.

(** ** The connection step of the resolver *)

Lemma getConnectedPersonas_ext characterKey st st' :
  persona_descriptions st' = persona_descriptions st →
  selected_group st' = selected_group st →
  this_chid_avatar st' = this_chid_avatar st →
  getConnectedPersonas characterKey st' = getConnectedPersonas characterKey st.
Proof. unfold getConnectedPersonas. by intros -> -> ->. Qed.

(** Without a usable chat lock the first block selects nothing and leaves
    the descriptors and the open chat as they are. *)
Lemma lpc_chat_lock_unusable userAvatars st :
  truthy (chat_metadata_persona st) = false
  ∨ includes userAvatars (chat_metadata_persona st) = false →
  ∃ st1, lpc_chat_lock userAvatars st = (Some EmptyString, None, st1)
         ∧ persona_descriptions st1 = persona_descriptions st
         ∧ selected_group st1 = selected_group st
         ∧ this_chid_avatar st1 = this_chid_avatar st
         ∧ persona_allow_multi_connections st1
           = persona_allow_multi_connections st
         ∧ default_persona st1 = default_persona st
         ∧ log st `prefix_of` log st1.
Proof.
  intros Hlock. unfold lpc_chat_lock.
  destruct (truthy (chat_metadata_persona st)) eqn:Ht.
  - destruct Hlock as [Hlock|Hlock]; [done|]. rewrite Hlock. simpl.
    eexists. split; [reflexivity|]. simpl. repeat split; try done.
    rewrite <- app_assoc. by apply prefix_app_r.
  - exists st. repeat split; done.
Qed.

Lemma lpc_select_user_avatar p st :
  p ≠ EmptyString → user_avatar (lpc_select (Some p) st) = p.
Proof.
  intros Hp. unfold lpc_select, setUserAvatar, when.
  apply truthy_Some in Hp. rewrite Hp. simpl.
  case_match; simpl; by rewrite selectCurrentPersona_user_avatar.
Qed.

(** Once the connection step has chosen [p], the rest of the resolver
    selects it. *)
Lemma resolved_by_connection userAvatars p st2 :
  p ≠ EmptyString →
  lpc_default (Some p, Some lock_character, st2)
  = (Some p, Some lock_character, st2)
  ∧ user_avatar (lpc_select (Some p) (lpc_missing userAvatars st2)) = p
  ∧ log st2 `prefix_of` log (lpc_select (Some p) (lpc_missing userAvatars st2)).
Proof.
  intros Hp. unfold lpc_default.
  pose proof Hp as Ht. apply truthy_Some in Ht. rewrite Ht. simpl.
  split; [done|]. split; [by apply lpc_select_user_avatar|].
  destruct (lpc_missing_frame userAvatars st2) as (_ & _ & _ & _ & _ & _ & H1 & _).
  destruct (lpc_select_frame (Some p) (lpc_missing userAvatars st2))
    as (_ & _ & _ & _ & _ & _ & H2 & _).
  by etrans.
Qed.

Lemma truthy_empty : truthy (Some EmptyString) = false.
Proof. reflexivity. Qed.

Lemma load_after_connection userAvatars answer st st1 st2 p :
  lpc_chat_lock userAvatars st = (Some EmptyString, None, st1) →
  lpc_connection answer (Some EmptyString, None, st1)
  = (Some p, Some lock_character, st2) →
  p ≠ EmptyString →
  (lpc_resolve userAvatars answer st).1 = (Some p, Some lock_character)
  ∧ user_avatar (loadPersonaForCurrentChat userAvatars answer st) = p
  ∧ log st2 `prefix_of` log (loadPersonaForCurrentChat userAvatars answer st).
Proof.
  intros H1 H2 Hp.
  destruct (resolved_by_connection userAvatars p st2 Hp) as (Hr & Hu & Hl).
  unfold loadPersonaForCurrentChat, lpc_resolve. rewrite H1, H2, Hr.
  simpl. auto.
Qed.

(** The connection step on the personas that [getConnectedPersonas]
    lists, which are those connected to the open character: when no chat
    lock applies, the connection step of the resolver
    works as follows on them.  A
    single connected persona is selected.  Of several, with multi-connection
    disallowed, the first is selected and a warning is logged; with
    multi-connection allowed the user is shown the list, and the persona
    the user picks is selected.  (A persona is connected when
    [getConnectedPersonas] lists it; an avatar id is a non-empty string.) *)
Theorem connection_step_selects (userAvatars : list string)
    (answer : PopupAnswer) (st : State) :
  truthy (chat_metadata_persona st) = false
  ∨ includes userAvatars (chat_metadata_persona st) = false →
  let connected := getConnectedPersonas None st in
  let resolved := (lpc_resolve userAvatars answer st).1 in
  let st' := loadPersonaForCurrentChat userAvatars answer st in
  (∀ p, connected = [p] → p ≠ EmptyString →
     resolved = (Some p, Some lock_character) ∧ user_avatar st' = p)
  ∧ (persona_allow_multi_connections st = false →
     ∀ p q rest, connected = p :: q :: rest → p ≠ EmptyString →
       resolved = (Some p, Some lock_character)
       ∧ user_avatar st' = p
       ∧ console_warn
           "More than one persona is connected to this character.Using the first available persona for this chat."
         ∈ log st')
  ∧ (persona_allow_multi_connections st = true →
     ∀ p q rest, connected = p :: q :: rest →
       popup_show connected ∈ log st'
       ∧ ∀ i x, answer = popup_pick i → connected !! i = Some x →
           x ≠ EmptyString →
           resolved = (Some x, Some lock_character) ∧ user_avatar st' = x).
Proof.
  intros Hlock connected resolved st'. subst connected resolved st'.
  destruct (lpc_chat_lock_unusable userAvatars st Hlock)
    as (st1 & H1 & Hd1 & Hg1 & Ha1 & Hm1 & _ & Hl1).
  pose proof (getConnectedPersonas_ext None st st1 Hd1 Hg1 Ha1) as Hconn.
  split; [|split].
  - intros p Hone Hp.
    destruct (load_after_connection userAvatars answer st st1 st1 p H1)
      as (Hr & Hu & _); [|done|done].
    unfold lpc_connection. rewrite truthy_empty, Hconn, Hone. simpl.
    apply truthy_Some in Hp. by rewrite Hp.
  - intros Hmulti p q rest Hmany Hp.
    destruct (load_after_connection userAvatars answer st st1
                (emit (console_warn
                         "More than one persona is connected to this character.Using the first available persona for this chat.")
                   st1) p H1) as (Hr & Hu & Hl); [|done|].
    { unfold lpc_connection. rewrite truthy_empty, Hconn, Hmany. simpl.
      rewrite Hm1, Hmulti. simpl. apply truthy_Some in Hp. by rewrite Hp. }
    split; [done|]. split; [done|].
    destruct Hl as [k ->]. in_log.
  - intros Hmulti p q rest Hmany.
    assert (lpc_connection answer (Some EmptyString, None, st1)
            = (let '(chatPersona, st2) :=
                 askForPersonaSelection (p :: q :: rest)
                   (getCurrentConnectionObj st1) answer st1 in
               (chatPersona,
                if truthy chatPersona then Some lock_character else None,
                st2))) as Hstep.
    { unfold lpc_connection. rewrite truthy_empty, Hconn, Hmany. simpl.
      by rewrite Hm1, Hmulti. }
    split.
    + (* the list is shown *)
      unfold loadPersonaForCurrentChat, lpc_resolve. rewrite H1, Hstep.
      destruct (askForPersonaSelection (p :: q :: rest)
                  (getCurrentConnectionObj st1) answer st1)
        as [chatPersona st2] eqn:Hask.
      assert (popup_show (p :: q :: rest) ∈ log st2) as Hshown.
      { unfold askForPersonaSelection in Hask.
        pose proof (remove_all_connections_inv
                      (λ s, popup_show (p :: q :: rest) ∈ log s)) as Hrm.
        repeat case_match; simplify_eq; try in_log.
        apply Hrm; try done; intros; in_log. }
      rewrite Hmany.
      destruct (lpc_default _) as [[cp ct] st3] eqn:Hdef.
      assert (st3 = st2) as ->.
      { unfold lpc_default in Hdef. by repeat case_match; simplify_eq. }
      destruct (lpc_missing_frame userAvatars st2)
        as (_ & _ & _ & _ & _ & _ & Hl2 & _).
      destruct (lpc_select_frame cp (lpc_missing userAvatars st2))
        as (_ & _ & _ & _ & _ & _ & Hl3 & _).
      destruct Hl2 as [k2 Hk2]. destruct Hl3 as [k3 Hk3].
      rewrite Hk3, Hk2. in_log.
    + intros i x -> Hpick Hx.
      rewrite Hmany in Hpick.
      destruct (load_after_connection userAvatars (popup_pick i) st st1
                  (emit (popup_show (p :: q :: rest)) st1) x H1)
        as (Hr & Hu & _); [|done|done].
      rewrite Hstep. unfold askForPersonaSelection. rewrite Hpick.
      apply truthy_Some in Hx. by rewrite Hx.
Qed.

Lemma connection_step_selects_witness :
  user_avatar
    (loadPersonaForCurrentChat ["alice.png"; "bob.png"] popup_none
       two_connected) = "alice.png"
  ∧ console_warn
      "More than one persona is connected to this character.Using the first available persona for this chat."
    ∈ log (loadPersonaForCurrentChat ["alice.png"; "bob.png"] popup_none
             two_connected).
Proof.
  destruct (connection_step_selects ["alice.png"; "bob.png"] popup_none
              two_connected) as (_ & Hfirst & _).
  - left. reflexivity.
  - destruct (Hfirst eq_refl "alice.png" "bob.png" [] eq_refl)
      as (_ & Hu & Hw); [discriminate|].
    split; [exact Hu|exact Hw].
Defined.

(** ** Connections of a group *)

(** Whatever the open chat, [getConnectedPersonas] lists a persona only for
    a connection of type [character]: in a group chat, only for a
    connection of that type that carries the id of the group. *)
Lemma getConnectedPersonas_character_only st k :
  k ∈ getConnectedPersonas None st →
  ∃ d cs id, (k, d) ∈ persona_descriptions st
             ∧ connections d = Some cs
             ∧ mkConnection character id ∈ cs
             ∧ Some id = js_or (selected_group st) (this_chid_avatar st).
Proof.
  intros (d & Hin & Hc)%getConnectedPersonas_keys.
  unfold connected_to in Hc.
  destruct (connections d) as [cs|] eqn:Hcs; [|done].
  apply existsb_exists in Hc as ([ty id] & Hc & Hm). simpl in Hm.
  apply andb_true_iff in Hm as [Hty Hid].
  apply bool_decide_eq_true in Hty, Hid. subst ty.
  exists d, cs, id. repeat split; try done.
  by apply list_elem_of_In.
Qed.

(** C6, at the failing input: in the chat of the group [group-1], Alice
    holds the connection of type [group] with that id (the lock operation
    gave it to her, and the lock-state query reports it), and yet
    [getConnectedPersonas] does not list her and the resolver selects
    nothing. *)
Theorem group_connection_is_not_found :
  getCurrentConnectionObj alice_locked_to_group
  = Some (mkConnection group "group-1")
  ∧ Obj.get "alice.png" (persona_descriptions alice_locked_to_group)
    = Some (with_connections [mkConnection group "group-1"] empty_descriptor)
  ∧ isPersonaLocked_of lock_character alice_locked_to_group = true
  ∧ getConnectedPersonas None alice_locked_to_group = []
  ∧ (lpc_resolve ["alice.png"] popup_none alice_locked_to_group).1
    = (Some EmptyString, None).
Proof. repeat split; vm_compute; reflexivity. Qed.

(** ** Locks whose avatar is gone *)

(** C1, at the failing input: no chat lock, no connection, and a default
    persona that does not exist.  The resolver clears the default and
    selects it all the same, from the default lock. *)
Theorem dangling_default_is_selected :
  personas default_is_gone !! "gone.png" = None
  ∧ includes ["alice.png"] (default_persona default_is_gone) = false
  ∧ (lpc_resolve ["alice.png"] popup_none default_is_gone).1
    = (Some "gone.png", Some lock_default)
  ∧ user_avatar
      (loadPersonaForCurrentChat ["alice.png"] popup_none default_is_gone)
    = "gone.png"
  ∧ default_persona
      (loadPersonaForCurrentChat ["alice.png"] popup_none default_is_gone)
    = None.
Proof. repeat split; vm_compute; reflexivity. Qed.

(** C3, at the failing input.  The first resolution does not skip the
    dangling default: it selects it and, by the automatic lock, locks the
    chat to it.  The second resolution therefore changes the state again:
    it clears that lock.  The cleared chat lock is followed by a debounced
    save of the settings; the chat metadata, where the lock lives, is never
    saved. *)
Theorem dangling_locks_are_not_settled :
  user_avatar
    (loadPersonaForCurrentChat ["alice.png"] popup_none default_avatar_is_gone)
  = "ghost.png"
  ∧ default_persona
      (loadPersonaForCurrentChat ["alice.png"] popup_none
         default_avatar_is_gone) = None
  ∧ chat_metadata_persona
      (loadPersonaForCurrentChat ["alice.png"] popup_none
         default_avatar_is_gone) = Some "ghost.png"
  ∧ chat_metadata_persona
      (loadPersonaForCurrentChat ["alice.png"] popup_none
         (loadPersonaForCurrentChat ["alice.png"] popup_none
            default_avatar_is_gone)) = None
  ∧ log (lpc_chat_lock ["alice.png"]
           (loadPersonaForCurrentChat ["alice.png"] popup_none
              default_avatar_is_gone)).2
    = log (loadPersonaForCurrentChat ["alice.png"] popup_none
             default_avatar_is_gone)
      ++ [console_warn
            "Chat-locked persona avatar not found, unlocking persona";
          saveSettingsDebounced]
  ∧ bool_decide
      (saveMetadata
       ∈ log (loadPersonaForCurrentChat ["alice.png"] popup_none
                (loadPersonaForCurrentChat ["alice.png"] popup_none
                   default_avatar_is_gone))) = false.
Proof. repeat split; vm_compute; reflexivity. Qed.

(** ** Restoring a backup *)

Lemma set_default_persona_id v st :
  default_persona st = v → set_default_persona v st = st.
Proof. intros <-. by destruct st. Qed.

(** The loop over the personas of the file: it only adds names, under keys
    the store lacks, and leaves the rest of the state alone. *)
Lemma restore_personas_spec avatarsList es st warnings :
  let r := restore_personas avatarsList es st warnings in
  persona_descriptions r.1 = persona_descriptions st
  ∧ default_persona r.1 = default_persona st
  ∧ (∀ k v, personas st !! k = Some v → personas r.1 !! k = Some v)
  ∧ (∀ k v, (k, v) ∈ es → is_Some (personas r.1 !! k))
  ∧ (∀ w, w ∈ warnings → w ∈ r.2)
  ∧ (∀ k v, (k, v) ∈ es → is_Some (personas st !! k)
            → persona_already_exists k v ∈ r.2).
Proof.
  revert st warnings. induction es as [|[key value] es IH]; intros st warnings.
  { simpl. repeat split; auto; intros k v Hin; by apply elem_of_nil in Hin. }
  simpl. case_bool_decide as Hhas.
  - specialize (IH st (warnings ++ [persona_already_exists key value])).
    simpl in IH. destruct IH as (Hd & Hdef & Hkeep & Hall & Hw & Hrep).
    repeat split; auto.
    + intros k v [[= -> ->]|Hin]%elem_of_cons; [|eauto].
      destruct Hhas as [v' Hv']. eauto.
    + intros w Hin. apply Hw, elem_of_app. by left.
    + intros k v [[= -> ->]|Hin]%elem_of_cons Hsome; [|eauto].
      apply Hw, elem_of_app. right. apply list_elem_of_here.
  - assert (personas st !! key = None) as Hnone
      by (by apply eq_None_not_Some).
    assert (∀ st1 ws,
              persona_descriptions st1 = persona_descriptions st →
              default_persona st1 = default_persona st →
              personas st1 = <[key := value]> (personas st) →
              (∀ w, w ∈ warnings → w ∈ ws) →
              let r := restore_personas avatarsList es st1 ws in
              persona_descriptions r.1 = persona_descriptions st
              ∧ default_persona r.1 = default_persona st
              ∧ (∀ k v, personas st !! k = Some v → personas r.1 !! k = Some v)
              ∧ (∀ k v, (k, v) ∈ (key, value) :: es
                        → is_Some (personas r.1 !! k))
              ∧ (∀ w, w ∈ warnings → w ∈ r.2)
              ∧ (∀ k v, (k, v) ∈ (key, value) :: es
                        → is_Some (personas st !! k)
                        → persona_already_exists k v ∈ r.2)) as Hstep.
    { intros st1 ws Hd1 Hdef1 Hp1 Hws. simpl.
      destruct (IH st1 ws) as (Hd & Hdef & Hkeep & Hall & Hw & Hrep).
      repeat split; try congruence; auto.
      - intros k v Hk. apply Hkeep. rewrite Hp1.
        rewrite lookup_insert_ne; [done|]. intros ->. congruence.
      - intros k v [[= -> ->]|Hin]%elem_of_cons; [|eauto].
        exists value. apply Hkeep. rewrite Hp1. apply lookup_insert_eq.
      - intros k v [[= -> ->]|Hin]%elem_of_cons Hsome.
        + rewrite Hnone in Hsome. by destruct Hsome.
        + apply (Hrep k v Hin). destruct Hsome as [v' Hv'].
          rewrite Hp1. destruct (decide (key = k)) as [->|Hk].
          * rewrite lookup_insert_eq. by eexists.
          * rewrite lookup_insert_ne by done. by eexists. }
    case_match.
    + apply Hstep; simpl; auto. intros w Hin. apply elem_of_app. by left.
    + apply Hstep; simpl; auto.
Qed.

(** On a store that has every key of the file, the loop changes nothing and
    reports each key as existing. *)
Lemma restore_personas_again avatarsList es st warnings :
  (∀ k v, (k, v) ∈ es → is_Some (personas st !! k)) →
  restore_personas avatarsList es st warnings
  = (st, warnings ++ map (λ kv, persona_already_exists kv.1 kv.2) es).
Proof.
  revert warnings. induction es as [|[key value] es IH]; intros warnings Hall.
  { simpl. by rewrite app_nil_r. }
  simpl. rewrite bool_decide_eq_true_2.
  - rewrite IH, <- app_assoc; [done|].
    intros k v Hin. apply (Hall k v). by apply list_elem_of_further.
  - apply (Hall key value), list_elem_of_here.
Qed.

(** The loop over the descriptors of the file: it only adds descriptors,
    under keys the store lacks and for personas that have a name. *)
Lemma restore_descriptions_spec es st warnings :
  let r := restore_descriptions es st warnings in
  personas r.1 = personas st
  ∧ default_persona r.1 = default_persona st
  ∧ (∀ k d, Obj.get k (persona_descriptions st) = Some d
            → Obj.get k (persona_descriptions r.1) = Some d)
  ∧ (∀ k d, (k, d) ∈ es
            → Obj.has k (persona_descriptions r.1) = true
              ∨ truthy (personas st !! k) = false)
  ∧ (∀ w, w ∈ warnings → w ∈ r.2)
  ∧ (∀ k d, (k, d) ∈ es → is_Some (Obj.get k (persona_descriptions st))
            → description_already_exists k (personas st !! k) ∈ r.2).
Proof.
  revert st warnings. induction es as [|[key value] es IH]; intros st warnings.
  { simpl. repeat split; auto; intros k v Hin; by apply elem_of_nil in Hin. }
  simpl. destruct (Obj.has key (persona_descriptions st)) eqn:Hhas.
  - specialize (IH st (warnings
                       ++ [description_already_exists key (personas st !! key)])).
    simpl in IH. destruct IH as (Hp & Hdef & Hkeep & Hall & Hw & Hrep).
    repeat split; auto.
    + intros k d [[= -> ->]|Hin]%elem_of_cons; [|eauto].
      left. apply obj_has_get. apply obj_has_get in Hhas as [d0 Hd0]. eauto.
    + intros w Hin. apply Hw, elem_of_app. by left.
    + intros k d [[= -> ->]|Hin]%elem_of_cons Hsome; [|eauto].
      apply Hw, elem_of_app. right. apply list_elem_of_here.
  - apply obj_has_false in Hhas.
    destruct (truthy (personas st !! key)) eqn:Hname; simpl.
    + specialize (IH (set_persona_descriptions (Obj.set key value) st)
                    warnings).
      simpl in IH. destruct IH as (Hp & Hdef & Hkeep & Hall & Hw & Hrep).
      repeat split; auto.
      * intros k d Hk. apply Hkeep. rewrite obj_get_set_ne; [done|].
        intros ->. congruence.
      * intros k d [[= -> ->]|Hin]%elem_of_cons; [|eauto].
        left. apply obj_has_get. exists value. apply Hkeep, obj_get_set_eq.
      * intros k d [[= -> ->]|Hin]%elem_of_cons Hsome.
        -- rewrite Hhas in Hsome. by destruct Hsome.
        -- apply (Hrep k d Hin). destruct Hsome as [d' Hd'].
           destruct (decide (k = key)) as [->|Hk].
           ++ rewrite obj_get_set_eq. by eexists.
           ++ rewrite obj_get_set_ne by done. by eexists.
    + specialize (IH st (warnings ++ [persona_does_not_exist key])).
      simpl in IH. destruct IH as (Hp & Hdef & Hkeep & Hall & Hw & Hrep).
      repeat split; auto.
      * intros k d [[= -> ->]|Hin]%elem_of_cons; [auto|eauto].
      * intros w Hin. apply Hw, elem_of_app. by left.
      * intros k d [[= -> ->]|Hin]%elem_of_cons Hsome; [|eauto].
        rewrite Hhas in Hsome. by destruct Hsome.
Qed.

(** On a store where every descriptor of the file exists or lacks its
    persona, the loop changes nothing and reports each key. *)
Lemma restore_descriptions_again es st warnings :
  (∀ k d, (k, d) ∈ es
          → Obj.has k (persona_descriptions st) = true
            ∨ truthy (personas st !! k) = false) →
  restore_descriptions es st warnings
  = (st, warnings ++ map (skipped_description st) es).
Proof.
  revert warnings. induction es as [|[key value] es IH]; intros warnings Hall.
  { simpl. by rewrite app_nil_r. }
  assert (∀ k d, (k, d) ∈ es
                 → Obj.has k (persona_descriptions st) = true
                   ∨ truthy (personas st !! k) = false) as Hrest
    by (intros k d Hin; apply (Hall k d); by apply list_elem_of_further).
  simpl. unfold skipped_description at 1. simpl.
  destruct (Obj.has key (persona_descriptions st)) eqn:Hhas.
  - by rewrite IH, <- app_assoc.
  - destruct (Hall key value (list_elem_of_here _ _)) as [?|Hname];
      [congruence|].
    rewrite Hname. simpl. by rewrite IH, <- app_assoc.
Qed.

Lemma restore_default_spec data_default st warnings :
  let r := restore_default data_default st warnings in
  personas r.1 = personas st
  ∧ persona_descriptions r.1 = persona_descriptions st
  ∧ (∀ w, w ∈ warnings → w ∈ r.2)
  ∧ default_persona r.1
    = (if truthy data_default
          && bool_decide
               (is_Some (personas st !! nullish data_default EmptyString))
       then data_default
       else default_persona st)
  ∧ (truthy data_default = true →
     personas st !! nullish data_default EmptyString = None →
     default_does_not_exist (nullish data_default EmptyString) ∈ r.2).
Proof.
  unfold restore_default.
  destruct (truthy data_default); simpl; [|done].
  case_bool_decide as Hin; simpl; repeat split; auto.
  - intros _ Hnone. rewrite Hnone in Hin. by destruct Hin.
  - intros w Hw. apply elem_of_app. by left.
  - intros _ _. apply elem_of_app. right. apply list_elem_of_here.
Qed.

(** The stores after the merge, and what the first report holds. *)
Lemma restore_merge_spec avatarsList data st :
  let r := restore_merge avatarsList data st in
  (∀ k v, personas st !! k = Some v → personas r.1 !! k = Some v)
  ∧ (∀ k d, Obj.get k (persona_descriptions st) = Some d
            → Obj.get k (persona_descriptions r.1) = Some d)
  ∧ (∀ k v, (k, v) ∈ backup_personas data → is_Some (personas r.1 !! k))
  ∧ (∀ k d, (k, d) ∈ backup_persona_descriptions data
            → Obj.has k (persona_descriptions r.1) = true
              ∨ truthy (personas r.1 !! k) = false)
  ∧ (∀ k v, (k, v) ∈ backup_personas data → is_Some (personas st !! k)
            → persona_already_exists k v ∈ r.2)
  ∧ (∀ k d, (k, d) ∈ backup_persona_descriptions data
            → is_Some (Obj.get k (persona_descriptions st))
            → ∃ n, description_already_exists k n ∈ r.2)
  ∧ default_persona r.1
    = (if truthy (backup_default_persona data)
          && bool_decide
               (is_Some (personas r.1
                           !! nullish (backup_default_persona data)
                                EmptyString))
       then backup_default_persona data
       else default_persona st)
  ∧ (truthy (backup_default_persona data) = true →
     personas r.1 !! nullish (backup_default_persona data) EmptyString = None →
     default_does_not_exist (nullish (backup_default_persona data) EmptyString)
     ∈ r.2).
Proof.
  unfold restore_merge.
  pose proof (restore_personas_spec avatarsList (backup_personas data) st [])
    as (Hd1 & Hdef1 & Hkeep1 & Hall1 & _ & Hrep1).
  destruct (restore_personas avatarsList (backup_personas data) st [])
    as [st1 w1]. simpl in *.
  pose proof (restore_descriptions_spec (backup_persona_descriptions data)
                st1 w1) as (Hp2 & Hdef2 & Hkeep2 & Hall2 & Hw2 & Hrep2).
  destruct (restore_descriptions (backup_persona_descriptions data) st1 w1)
    as [st2 w2]. simpl in *.
  pose proof (restore_default_spec (backup_default_persona data) st2 w2)
    as (Hp3 & Hd3 & Hw3 & Hdef3 & Hmiss3).
  destruct (restore_default (backup_default_persona data) st2 w2)
    as [st3 w3]. simpl in *.
  rewrite Hp3, Hd3, Hp2.
  split; [|split; [|split; [|split; [|split; [|split; [|split]]]]]].
  - exact Hkeep1.
  - intros k d Hk. apply Hkeep2. by rewrite Hd1.
  - exact Hall1.
  - exact Hall2.
  - intros k v Hin Hsome. apply Hw3, Hw2. by apply (Hrep1 k v).
  - intros k d Hin Hsome. eexists. apply Hw3, (Hrep2 k d Hin).
    by rewrite Hd1.
  - rewrite Hdef3, Hp2. by rewrite Hdef2, Hdef1.
  - intros Ht Hnone. apply Hmiss3; [done|]. by rewrite Hp2.
Qed.

Lemma restore_merge_again avatarsList data st :
  (∀ k v, (k, v) ∈ backup_personas data → is_Some (personas st !! k)) →
  (∀ k d, (k, d) ∈ backup_persona_descriptions data
          → Obj.has k (persona_descriptions st) = true
            ∨ truthy (personas st !! k) = false) →
  (truthy (backup_default_persona data) = true →
   is_Some (personas st !! nullish (backup_default_persona data) EmptyString) →
   default_persona st = backup_default_persona data) →
  restore_merge avatarsList data st = (st, second_report data st).
Proof.
  intros Hp Hd Hdef. unfold restore_merge, second_report.
  rewrite restore_personas_again by done.
  rewrite restore_descriptions_again by done.
  unfold restore_default. simpl.
  destruct (truthy (backup_default_persona data)) eqn:Ht; simpl.
  - case_bool_decide as Hin; simpl.
    + rewrite set_default_persona_id by auto. by rewrite app_nil_r.
    + by rewrite <- app_assoc.
  - by rewrite app_nil_r.
Qed.

(** The handler adds notifications and a save to the merge. *)
Lemma onPersonasRestoreInput_stores avatarsList data st :
  let st' := onPersonasRestoreInput avatarsList (backup_file data) st in
  let merged := (restore_merge avatarsList data st).1 in
  personas st' = personas merged
  ∧ persona_descriptions st' = persona_descriptions merged
  ∧ default_persona st' = default_persona merged.
Proof.
  unfold onPersonasRestoreInput.
  destruct (restore_merge avatarsList data st) as [st1 [|w ws]]; simpl;
    unfold setPersonaDescription, when; by case_match.
Qed.

(** C4, as amended.  Restoring a backup adds the personas and the
    descriptors of the file without overwriting an existing key, and the
    report has a line for each key it skips because it exists.  The default
    persona of the file, when it is set and names a persona of the merged
    store, replaces the current default; when it names none, the default is
    kept and the report says so.  A second restore of the same file
    leaves the persona store, the descriptor store and the default persona
    as the first left them; its report says of every persona of the file
    that it already exists, and of every descriptor of the file that it
    already exists or that its persona does not exist. *)
Theorem restore_merges_and_settles (avatars1 avatars2 : list string)
    (data : Backup) (st : State) :
  let report := (restore_merge avatars1 data st).2 in
  let first := onPersonasRestoreInput avatars1 (backup_file data) st in
  let second := onPersonasRestoreInput avatars2 (backup_file data) first in
  (∀ k v, personas st !! k = Some v → personas first !! k = Some v)
  ∧ (∀ k d, Obj.get k (persona_descriptions st) = Some d
            → Obj.get k (persona_descriptions first) = Some d)
  ∧ (∀ k v, (k, v) ∈ backup_personas data → is_Some (personas st !! k)
            → persona_already_exists k v ∈ report)
  ∧ (∀ k d, (k, d) ∈ backup_persona_descriptions data
            → is_Some (Obj.get k (persona_descriptions st))
            → ∃ n, description_already_exists k n ∈ report)
  ∧ default_persona first
    = (if truthy (backup_default_persona data)
          && bool_decide
               (is_Some (personas first
                           !! nullish (backup_default_persona data)
                                EmptyString))
       then backup_default_persona data
       else default_persona st)
  ∧ (truthy (backup_default_persona data) = true →
     personas first !! nullish (backup_default_persona data) EmptyString
     = None →
     default_does_not_exist (nullish (backup_default_persona data) EmptyString)
     ∈ report)
  ∧ restore_merge avatars2 data first = (first, second_report data first)
  ∧ personas second = personas first
  ∧ persona_descriptions second = persona_descriptions first
  ∧ default_persona second = default_persona first.
Proof.
  intros report first second. subst report first second.
  destruct (onPersonasRestoreInput_stores avatars1 data st)
    as (Hp & Hd & Hdef).
  destruct (restore_merge_spec avatars1 data st)
    as (Hkeep_p & Hkeep_d & Hall_p & Hall_d & Hrep_p & Hrep_d & Hdefault
        & Hmissing).
  set (first := onPersonasRestoreInput avatars1 (backup_file data) st) in *.
  assert (restore_merge avatars2 data first = (first, second_report data first))
    as Hagain.
  { apply restore_merge_again.
    - intros k v Hin. rewrite Hp. eauto.
    - intros k d Hin. rewrite Hp, Hd. eauto.
    - intros Ht Hin. rewrite Hdef, Hdefault, Ht. simpl.
      rewrite <- Hp. by rewrite bool_decide_eq_true_2. }
  destruct (onPersonasRestoreInput_stores avatars2 data first)
    as (Hp2 & Hd2 & Hdef2).
  rewrite Hagain in Hp2, Hd2, Hdef2. simpl in Hp2, Hd2, Hdef2.
  rewrite Hp, Hd, Hdef.
  repeat split; auto.
  - by rewrite <- Hp.
  - by rewrite <- Hd.
  - by rewrite <- Hdef.
Qed.

(** C4 as stated fails twice.  The restore overwrites the default persona,
    which was Bob, without a line in its report; and the second restore
    reports the descriptor of Zoe as having no persona, not as existing. *)
Lemma restore_overwrites_default :
  default_persona bob_is_default = Some "bob.png"
  ∧ default_persona
      (onPersonasRestoreInput ["alice.png"; "bob.png"]
         (backup_file backup_of_alice) bob_is_default) = Some "alice.png"
  ∧ (restore_merge ["alice.png"; "bob.png"] backup_of_alice bob_is_default).2
    = [persona_already_exists "alice.png" "Alice";
       description_already_exists "alice.png" (Some "Alice");
       persona_does_not_exist "zoe.png"]
  ∧ (restore_merge ["alice.png"; "bob.png"] backup_of_alice
       (onPersonasRestoreInput ["alice.png"; "bob.png"]
          (backup_file backup_of_alice) bob_is_default)).2
    = [persona_already_exists "alice.png" "Alice";
       description_already_exists "alice.png" (Some "Alice");
       persona_does_not_exist "zoe.png"].
Proof. repeat split; vm_compute; reflexivity. Qed.

(** ** The precedence of the resolver *)

Lemma lpc_missing_user_avatar userAvatars st :
  user_avatar (lpc_missing userAvatars st) = user_avatar st.
Proof. unfold lpc_missing, when. by repeat (case_match; simpl). Qed.

(** What the resolver does by design, lock by lock: a chat lock whose
    avatar exists is selected; without one, and with no persona connected
    to the open character, the default persona is selected if it is set;
    with none of the three, nothing is selected and the selection stays as
    it is.  (The connection step is [connection_step_selects]; that the
    default persona is not checked before it is selected is
    [dangling_default_is_selected].) *)
Lemma resolver_precedence (userAvatars : list string) (answer : PopupAnswer)
    (st : State) :
  let resolved := (lpc_resolve userAvatars answer st).1 in
  let st' := loadPersonaForCurrentChat userAvatars answer st in
  (∀ c, chat_metadata_persona st = Some c → c ≠ EmptyString →
        c ∈ userAvatars →
        resolved = (Some c, Some lock_chat) ∧ user_avatar st' = c)
  ∧ (truthy (chat_metadata_persona st) = false
     ∨ includes userAvatars (chat_metadata_persona st) = false →
     getConnectedPersonas None st = [] →
     (∀ d, default_persona st = Some d → d ≠ EmptyString →
           resolved = (Some d, Some lock_default) ∧ user_avatar st' = d)
     ∧ (truthy (default_persona st) = false →
        resolved = (Some EmptyString, None)
        ∧ user_avatar st' = user_avatar st)).
Proof.
  intros resolved st'. subst resolved st'. split.
  - intros c Hc Hne Hin.
    unfold loadPersonaForCurrentChat, lpc_resolve, lpc_chat_lock.
    pose proof Hne as Ht. apply truthy_Some in Ht.
    rewrite Hc, Ht. simpl. rewrite bool_decide_eq_true_2 by done. simpl.
    unfold lpc_connection, lpc_default. rewrite Ht. simpl.
    rewrite Ht. simpl.
    split; [done|]. by apply lpc_select_user_avatar.
  - intros Hlock Hnone.
    destruct (lpc_chat_lock_unusable userAvatars st Hlock)
      as (st1 & H1 & Hd1 & Hg1 & Ha1 & Hm1 & Hdef1 & _).
    pose proof (getConnectedPersonas_ext None st st1 Hd1 Hg1 Ha1) as Hconn.
    assert (lpc_connection answer (Some EmptyString, None, st1)
            = (Some EmptyString, None, st1)) as H2.
    { unfold lpc_connection. by rewrite truthy_empty, Hconn, Hnone. }
    unfold loadPersonaForCurrentChat, lpc_resolve. rewrite H1, H2.
    unfold lpc_default. rewrite truthy_empty, Hdef1. simpl. split.
    + intros d Hd Hne. pose proof Hne as Ht. apply truthy_Some in Ht.
      rewrite Hd, Ht. simpl. split; [done|].
      by apply lpc_select_user_avatar.
    + intros Hfalse. rewrite Hfalse. simpl. split; [done|].
      unfold lpc_select. rewrite truthy_empty.
      rewrite lpc_missing_user_avatar.
      unfold lpc_chat_lock in H1. by repeat case_match; simplify_eq.
Qed.

(** A chat lock whose avatar is gone is not a candidate: the first block
    clears it, logs a warning and asks for a debounced save of the
    settings. *)
Lemma dangling_chat_lock_is_cleared userAvatars st :
  truthy (chat_metadata_persona st) = true →
  includes userAvatars (chat_metadata_persona st) = false →
  ∃ st1, lpc_chat_lock userAvatars st = (Some EmptyString, None, st1)
         ∧ chat_metadata_persona st1 = None
         ∧ log st1
           = log st
             ++ [console_warn
                   "Chat-locked persona avatar not found, unlocking persona";
                 saveSettingsDebounced].
Proof.
  intros Ht Hgone. unfold lpc_chat_lock. rewrite Ht, Hgone. simpl.
  eexists. split; [reflexivity|]. simpl. split; [done|].
  by rewrite <- app_assoc.
Qed.

(** A default persona whose avatar is gone is cleared by the resolver
    (which, all the same, may have selected it). *)
Lemma dangling_default_is_cleared userAvatars answer st :
  truthy (default_persona st) = true →
  includes userAvatars (default_persona st) = false →
  default_persona (loadPersonaForCurrentChat userAvatars answer st) = None.
Proof.
  intros Hset Hgone. unfold loadPersonaForCurrentChat, lpc_resolve.
  assert (resolver_frame st
            (lpc_default
               (lpc_connection answer (lpc_chat_lock userAvatars st))).2)
    as (_ & _ & _ & _ & _ & _ & _ & Hdef).
  { apply (lpc_default_inv (resolver_frame st)),
      (lpc_connection_inv (resolver_frame st)),
      (lpc_chat_lock_inv (resolver_frame st));
      try apply resolver_frame_refl; frame_block. }
  destruct (lpc_default _) as [[chatPersona connectType] st1]. simpl in Hdef.
  assert (default_persona (lpc_missing userAvatars st1) = None) as Hnone.
  { unfold lpc_missing, when.
    destruct (truthy (chat_metadata_persona st1)
              && negb (includes userAvatars (chat_metadata_persona st1)));
      simpl; destruct Hdef as [Hdef|Hdef]; rewrite Hdef.
    - by rewrite Hset, Hgone.
    - done.
    - by rewrite Hset, Hgone.
    - done. }
  destruct (lpc_select_frame chatPersona (lpc_missing userAvatars st1))
    as (_ & _ & _ & _ & _ & _ & _ & [Hsame|Hcleared]); congruence.
Qed.

(** * Further properties of the module *)

(** ** The lock buttons *)

(** X1: the state [getPersonaStates] computes for the selected avatar, which
    the lock buttons show, is the answer of [isPersonaLocked] for each of
    the three lock types. *)
Theorem getPersonaStates_agrees_with_isPersonaLocked (st : State) :
  isPersonaLocked (Some "default") st
  = Ok (state_default (getPersonaStates (user_avatar st) st)) st
  ∧ isPersonaLocked (Some "chat") st
    = Ok (state_locked_chat (getPersonaStates (user_avatar st) st)) st
  ∧ isPersonaLocked None st
    = Ok (state_locked_chat (getPersonaStates (user_avatar st) st)) st
  ∧ isPersonaLocked (Some "character") st
    = Ok (state_locked_character (getPersonaStates (user_avatar st) st)) st.
Proof.
  unfold isPersonaLocked, getPersonaStates, isPersonaLocked_of,
    isPersonaConnectionLocked. simpl.
  split; [reflexivity|]. split; [reflexivity|]. split; reflexivity.
Qed.

Lemma existsb_false_filter {A : Type} (f : A → bool) (l : list A) :
  existsb f (List.filter (λ x, negb (f x)) l) = false.
Proof.
  induction l as [|x l IH]; simpl; [done|].
  destruct (f x) eqn:Hx; simpl; [done|]. by rewrite Hx.
Qed.

Lemma isPersonaConnectionLocked_ext st st' c :
  selected_group st' = selected_group st →
  this_chid_avatar st' = this_chid_avatar st →
  isPersonaConnectionLocked st' c = isPersonaConnectionLocked st c.
Proof. unfold isPersonaConnectionLocked. by intros -> ->. Qed.

Lemma toggle_chat st :
  user_avatar st ≠ EmptyString →
  ∃ st', togglePersonaLock (Some "chat") st
         = Ok (negb (isPersonaLocked_of lock_chat st)) st'
         ∧ isPersonaLocked_of lock_chat st'
           = negb (isPersonaLocked_of lock_chat st).
Proof.
  intros Hne. unfold togglePersonaLock, isPersonaLocked. simpl.
  case_bool_decide as Hlocked.
  - unfold unlockPersona. simpl. rewrite Hlocked.
    apply truthy_Some in Hne. rewrite Hne. unfold when. simpl.
    destruct (persona_show_notifications st); simpl;
      eexists; (split; [reflexivity|]); simpl;
      first [done | by rewrite bool_decide_eq_false_2].
  - unfold lockPersona, lock_switch. simpl.
    destruct (lock_ensure_persona_frame st) as (Hua & _).
    unfold when. simpl.
    destruct (persona_show_notifications (lock_ensure_persona st)); simpl;
      eexists; (split; [reflexivity|]); simpl;
      rewrite ?Hua; first [done | by rewrite bool_decide_eq_true_2].
Qed.

Lemma toggle_default st :
  user_avatar st ≠ EmptyString →
  (default_persona st = Some (user_avatar st)
   → is_Some (personas st !! user_avatar st)) →
  ∃ st', togglePersonaLock (Some "default") st
         = Ok (negb (isPersonaLocked_of lock_default st)) st'
         ∧ isPersonaLocked_of lock_default st'
           = negb (isPersonaLocked_of lock_default st).
Proof.
  intros Hne Hnamed. unfold togglePersonaLock, isPersonaLocked. simpl.
  pose proof Hne as Ht. apply truthy_Some in Ht.
  case_bool_decide as Hlocked.
  - destruct (Hnamed Hlocked) as [n Hn].
    unfold unlockPersona. simpl. unfold toggleDefaultPersona.
    rewrite Ht, Hn. simpl. rewrite bool_decide_eq_true_2 by done. simpl.
    unfold when. destruct (persona_show_notifications st); simpl;
      eexists; (split; [reflexivity|]); simpl;
      first [done | by rewrite bool_decide_eq_false_2].
  - unfold lockPersona, lock_switch. simpl.
    destruct (lock_ensure_persona_frame st)
      as (Hua & _ & _ & _ & _ & Hdef & _).
    assert (is_Some (personas (lock_ensure_persona st) !! user_avatar st))
      as [n Hn].
    { destruct (personas st !! user_avatar st) as [n|] eqn:Hp.
      - rewrite lock_ensure_persona_old by (by rewrite Hp). by rewrite Hp.
      - destruct (lock_ensure_persona_new st Hp) as [-> _].
        rewrite lookup_insert_eq. by eexists. }
    set (st1 := lock_ensure_persona st) in *.
    unfold toggleDefaultPersona. rewrite Hua, Ht, Hn. simpl.
    rewrite Hdef. rewrite bool_decide_eq_false_2 by congruence. simpl.
    unfold when. destruct (persona_show_notifications st1); simpl;
      eexists; (split; [reflexivity|]); simpl;
      rewrite ?Hua; first [done | by rewrite bool_decide_eq_true_2].
Qed.

Lemma without_current_remove st c cs :
  getCurrentConnectionObj st = Some c →
  without_current st cs = remove_connection c cs.
Proof.
  intros Hc. unfold without_current, remove_connection.
  apply List.filter_ext. intros x. f_equal.
  destruct (isPersonaConnectionLocked st x) eqn:Hx.
  - apply (isPersonaConnectionLocked_current st c x Hc) in Hx.
    by rewrite bool_decide_eq_true_2.
  - rewrite bool_decide_eq_false_2; [done|]. intros Heq.
    apply (isPersonaConnectionLocked_current st c x Hc) in Heq. congruence.
Qed.

Lemma same_connection_remove c cs :
  List.filter (λ x, negb (same_connection x c)) cs = remove_connection c cs.
Proof.
  unfold remove_connection. apply List.filter_ext. intros x. f_equal.
  destruct (same_connection x c) eqn:Hx.
  - apply same_connection_eq in Hx. by rewrite bool_decide_eq_true_2.
  - rewrite bool_decide_eq_false_2; [done|]. intros Heq.
    apply same_connection_eq in Heq. congruence.
Qed.

Lemma elem_of_remove_connection c cs x :
  x ∈ remove_connection c cs ↔ x ∈ cs ∧ x ≠ c.
Proof.
  unfold remove_connection. rewrite elem_of_List_filter, negb_true_iff.
  rewrite bool_decide_eq_false. done.
Qed.

Lemma remove_connection_idemp c cs :
  remove_connection c (remove_connection c cs) = remove_connection c cs.
Proof.
  unfold remove_connection. induction cs as [|x cs IH]; simpl; [done|].
  destruct (negb (bool_decide (x = c))) eqn:Hx; simpl; [|done].
  by rewrite Hx, IH.
Qed.

Lemma remove_connection_app c cs1 cs2 :
  remove_connection c (cs1 ++ cs2)
  = remove_connection c cs1 ++ remove_connection c cs2.
Proof. unfold remove_connection. apply List.filter_app. Qed.

Lemma remove_connection_self c : remove_connection c [c] = [].
Proof.
  unfold remove_connection. simpl. by rewrite bool_decide_eq_true_2.
Qed.

(** What [unlockPersona('character')] does when the selected persona has a
    descriptor with connections. *)
Lemma unlock_character st d cs :
  Obj.get (user_avatar st) (persona_descriptions st) = Some d →
  connections d = Some cs →
  ∃ st', unlockPersona (Some "character") st = Ok () st'
         ∧ persona_descriptions st'
           = Obj.set (user_avatar st)
               (with_connections (without_current st cs) d)
               (persona_descriptions st)
         ∧ personas st' = personas st
         ∧ user_avatar st' = user_avatar st
         ∧ default_persona st' = default_persona st
         ∧ chat_metadata_persona st' = chat_metadata_persona st
         ∧ selected_group st' = selected_group st
         ∧ this_chid_avatar st' = this_chid_avatar st
         ∧ saveSettingsDebounced ∈ log st'.
Proof.
  intros Hd Hcs. unfold unlockPersona. simpl. rewrite Hd, Hcs.
  unfold when. simpl.
  destruct (persona_show_notifications st); simpl;
    eexists; (split; [reflexivity|]); simpl; repeat split; in_log.
Qed.

Lemma existsb_eq {A : Type} (f g : A → bool) (l : list A) :
  (∀ x, f x = g x) → existsb f l = existsb g l.
Proof. intros H. induction l as [|x l IH]; simpl; [done|]. by rewrite H, IH. Qed.

(** The lock operations leave the open chat, the selection and the names
    of the personas they do not create alone. *)
Lemma lock_switch_frame type st :
  let st' := result_state (lock_switch type st) in
  selected_group st' = selected_group st
  ∧ this_chid_avatar st' = this_chid_avatar st
  ∧ user_avatar st' = user_avatar st
  ∧ personas st' = personas st
  ∧ name1 st' = name1 st.
Proof.
  unfold lock_switch.
  destruct (lock_type_of type) as [[| |]|]; simpl; try done.
  - unfold when. by case_match.
  - destruct (Obj.get _ _); [|done].
    destruct (getCurrentConnectionObj st); [|done].
    case_match; [|done]. unfold when. by repeat (case_match; simpl).
  - unfold toggleDefaultPersona, when. by repeat (case_match; simpl).
Qed.

Lemma toggle_character st c :
  getCurrentConnectionObj st = Some c →
  personas st !! user_avatar st = None
  ∨ is_Some (Obj.get (user_avatar st) (persona_descriptions st)) →
  ∃ st', togglePersonaLock (Some "character") st
         = Ok (negb (isPersonaLocked_of lock_character st)) st'
         ∧ isPersonaLocked_of lock_character st'
           = negb (isPersonaLocked_of lock_character st).
Proof.
  intros Hc Hwf. unfold togglePersonaLock, isPersonaLocked. simpl.
  destruct (match Obj.get (user_avatar st) (persona_descriptions st) with
            | Some d => match connections d with
                        | Some cs => existsb (isPersonaConnectionLocked st) cs
                        | None => false
                        end
            | None => false
            end) eqn:Hlocked.
  - destruct (Obj.get (user_avatar st) (persona_descriptions st))
      as [d|] eqn:Hd; [|done].
    destruct (connections d) as [cs|] eqn:Hcs; [|done].
    destruct (unlock_character st d cs Hd Hcs)
      as (st' & -> & Hdescs & _ & Hua & _ & _ & Hg & Ha & _).
    exists st'. split; [done|]. simpl.
    rewrite Hua, Hdescs, obj_get_set_eq. simpl.
    rewrite (existsb_eq _ (isPersonaConnectionLocked st)).
    + apply existsb_false_filter.
    + intros x. by apply isPersonaConnectionLocked_ext.
  - destruct (ensure_persona_descriptor st Hwf) as [d Hd].
    destruct (lock_ensure_persona_frame st)
      as (Hua & _ & Hsg & Hav & _ & _ & _).
    set (st1 := lock_ensure_persona st) in *.
    assert (getCurrentConnectionObj st1 = Some c) as Hc1
      by (by rewrite (getCurrentConnectionObj_ext st st1)).
    rewrite <- Hua in Hd.
    destruct (lock_switch_character st1 d c Hd Hc1)
      as (st' & Hok & Hdescs & _ & Hua' & _).
    unfold lockPersona. simpl. fold st1. rewrite Hok.
    exists st'. split; [done|]. simpl.
    rewrite Hua', Hdescs, locked_descriptions_mine. simpl.
    rewrite existsb_app. simpl.
    assert (isPersonaConnectionLocked st' c = true) as ->.
    { apply (isPersonaConnectionLocked_current st' c c); [|done].
      rewrite <- Hc1.
      destruct (lock_switch_frame "character" st1) as (Hg' & Ha' & _).
      rewrite Hok in Hg', Ha'. by apply getCurrentConnectionObj_ext. }
    by rewrite orb_true_r.
Qed.

(** X2: [togglePersonaLock] flips the lock and returns the new state of it.
    For the chat lock this holds for any selected avatar with an id; for
    the default lock, provided a default that is the selected avatar is a
    persona (otherwise [toggleDefaultPersona] refuses to touch it); for the
    character lock, when a character or group is open and the selected
    persona has a descriptor or is no persona yet.  With no character or
    group open the character toggle answers [true] and locks nothing. *)
Theorem toggle_flips_the_lock (st : State) :
  (user_avatar st ≠ EmptyString →
   ∃ st', togglePersonaLock (Some "chat") st
          = Ok (negb (isPersonaLocked_of lock_chat st)) st'
          ∧ isPersonaLocked_of lock_chat st'
            = negb (isPersonaLocked_of lock_chat st))
  ∧ (user_avatar st ≠ EmptyString →
     (default_persona st = Some (user_avatar st)
      → is_Some (personas st !! user_avatar st)) →
     ∃ st', togglePersonaLock (Some "default") st
            = Ok (negb (isPersonaLocked_of lock_default st)) st'
            ∧ isPersonaLocked_of lock_default st'
              = negb (isPersonaLocked_of lock_default st))
  ∧ (personas st !! user_avatar st = None
     ∨ is_Some (Obj.get (user_avatar st) (persona_descriptions st)) →
     (∀ c, getCurrentConnectionObj st = Some c →
        ∃ st', togglePersonaLock (Some "character") st
               = Ok (negb (isPersonaLocked_of lock_character st)) st'
               ∧ isPersonaLocked_of lock_character st'
                 = negb (isPersonaLocked_of lock_character st))
     ∧ (getCurrentConnectionObj st = None →
        isPersonaLocked_of lock_character st = false →
        ∃ st', togglePersonaLock (Some "character") st = Ok true st'
               ∧ isPersonaLocked_of lock_character st' = false)).
Proof.
  split; [apply toggle_chat|]. split; [apply toggle_default|].
  intros Hwf. split; [intros c Hc; by apply (toggle_character st c)|].
  intros Hnone Hunlocked.
  unfold togglePersonaLock, isPersonaLocked. simpl.
  simpl in Hunlocked. rewrite Hunlocked.
  destruct (ensure_persona_descriptor st Hwf) as [d Hd].
  destruct (lock_ensure_persona_frame st)
    as (Hua & _ & Hsg & Hav & _ & _ & _).
  unfold lockPersona, lock_switch. simpl.
  rewrite <- Hua in Hd. rewrite Hd.
  rewrite (getCurrentConnectionObj_ext st (lock_ensure_persona st)) by done.
  rewrite Hnone. eexists. split; [reflexivity|].
  rewrite Hd.
  destruct (personas st !! user_avatar st) as [n|] eqn:Hn.
  - rewrite lock_ensure_persona_old in Hd |- * by (by rewrite Hn).
    by rewrite Hd in Hunlocked.
  - destruct (lock_ensure_persona_new st Hn) as [_ Hdescs].
    rewrite Hdescs, Hua, obj_get_set_eq in Hd. by simplify_eq.
Qed.

Example toggle_chat_twice :
  ∃ st1 st2,
    togglePersonaLock (Some "chat") alice_and_bob = Ok true st1
    ∧ chat_metadata_persona st1 = Some "alice.png"
    ∧ togglePersonaLock (Some "chat") st1 = Ok false st2
    ∧ chat_metadata_persona st2 = None.
Proof. do 2 eexists. repeat split; vm_compute; reflexivity. Qed.

(** X3: [unlockPersona('character')] takes from the selected persona the
    connection of the open character or group and nothing else: its other
    connections stay, in their order, the other personas keep their
    descriptors, names, default and chat lock are as they were, and the
    persona is no longer locked to the character.  A persona without a
    descriptor, or whose descriptor has no connections, is left as it is,
    without a save. *)
Theorem unlock_character_removes_only_current (st : State) :
  (∀ c d cs,
     getCurrentConnectionObj st = Some c →
     Obj.get (user_avatar st) (persona_descriptions st) = Some d →
     connections d = Some cs →
     ∃ st', unlockPersona (Some "character") st = Ok () st'
            ∧ Obj.get (user_avatar st) (persona_descriptions st')
              = Some (with_connections (remove_connection c cs) d)
            ∧ (∀ k, k ≠ user_avatar st →
                 Obj.get k (persona_descriptions st')
                 = Obj.get k (persona_descriptions st))
            ∧ personas st' = personas st
            ∧ default_persona st' = default_persona st
            ∧ chat_metadata_persona st' = chat_metadata_persona st
            ∧ isPersonaLocked_of lock_character st' = false
            ∧ saveSettingsDebounced ∈ log st')
  ∧ (Obj.get (user_avatar st) (persona_descriptions st) = None
     ∨ (∃ d, Obj.get (user_avatar st) (persona_descriptions st) = Some d
             ∧ connections d = None) →
     unlockPersona (Some "character") st = Ok () st).
Proof.
  split.
  - intros c d cs Hc Hd Hcs.
    destruct (unlock_character st d cs Hd Hcs)
      as (st' & Hok & Hdescs & Hp & Hua & Hdef & Hchat & Hg & Ha & Hsave).
    exists st'. rewrite Hdescs, (without_current_remove st c cs Hc).
    split; [done|]. split; [apply obj_get_set_eq|].
    split; [intros k Hk; by apply obj_get_set_ne|].
    repeat (split; [done|]). split; [|done].
    simpl. rewrite Hua, Hdescs, obj_get_set_eq. simpl.
    rewrite (existsb_eq _ (isPersonaConnectionLocked st)).
    + apply existsb_false_filter.
    + intros x. by apply isPersonaConnectionLocked_ext.
  - unfold unlockPersona. simpl.
    intros [->|(d & -> & ->)]; done.
Qed.

Lemma obj_set_same {V : Type} (k : string) (v : V) (o : Obj.t V) :
  Obj.get k o = Some v → Obj.set k v o = o.
Proof.
  induction o as [|[k' v'] o IH]; simpl; [done|].
  case_decide as Hk; intros Hg.
  - by simplify_eq.
  - by rewrite IH.
Qed.

Lemma unlink_descriptor_fixed c d cs :
  connections d = Some cs → remove_connection c cs = cs →
  unlink_descriptor c d = d.
Proof.
  intros Hcs Hfix. unfold unlink_descriptor. rewrite Hcs.
  rewrite same_connection_remove, Hfix. simpl.
  by rewrite bool_decide_eq_true_2.
Qed.

Lemma unlink_descriptor_idemp c d :
  unlink_descriptor c (unlink_descriptor c d) = unlink_descriptor c d.
Proof.
  destruct (decide (unlink_descriptor c d = d)) as [Heq|Hchanged];
    [by rewrite !Heq|].
  assert (unlink_descriptor c d
          = with_connections
              (remove_connection c (nullish (connections d) [])) d) as ->.
  { revert Hchanged. unfold unlink_descriptor.
    case_bool_decide; [done|]. intros _. f_equal.
    destruct (connections d); simpl; [apply same_connection_remove|].
    reflexivity. }
  apply (unlink_descriptor_fixed c _
           (remove_connection c (nullish (connections d) []))); [done|].
  apply remove_connection_idemp.
Qed.

Lemma unlink_others_idemp names names' me c es :
  (unlink_others names' me c (unlink_others names me c es).1).1
  = (unlink_others names me c es).1.
Proof.
  rewrite !unlink_others_map, map_map. apply map_ext. intros [k d]. simpl.
  case_decide; [done|]. by rewrite unlink_descriptor_idemp.
Qed.

Lemma lock_switch_flags type st :
  persona_allow_multi_connections (result_state (lock_switch type st))
  = persona_allow_multi_connections st.
Proof.
  unfold lock_switch.
  destruct (lock_type_of type) as [[| |]|]; simpl; try done.
  - unfold when. by case_match.
  - destruct (Obj.get _ _); [|done].
    destruct (getCurrentConnectionObj st); [|done].
    case_match; [|done]. unfold when. by repeat (case_match; simpl).
  - unfold toggleDefaultPersona, when. by repeat (case_match; simpl).
Qed.

(** X4: [lockPersona('character')] on a persona that has a descriptor puts
    the connection of the open character or group at the end of its
    connections, once: an earlier copy is dropped and the other connections
    keep their order.  With multi-connection allowed the descriptors of the
    other personas are not touched.  Locking again changes no descriptor. *)
Theorem lock_character_appends_once (st : State) (c : PersonaConnection)
    (d : PersonaDescriptor) :
  getCurrentConnectionObj st = Some c →
  is_Some (personas st !! user_avatar st) →
  Obj.get (user_avatar st) (persona_descriptions st) = Some d →
  ∃ st', lockPersona (Some "character") st = Ok () st'
         ∧ Obj.get (user_avatar st) (persona_descriptions st')
           = Some (with_connections
                     (remove_connection c (nullish (connections d) [])
                      ++ [c]) d)
         ∧ (persona_allow_multi_connections st = true →
            ∀ k, k ≠ user_avatar st →
              Obj.get k (persona_descriptions st')
              = Obj.get k (persona_descriptions st))
         ∧ persona_descriptions
             (result_state (lockPersona (Some "character") st'))
           = persona_descriptions st'.
Proof.
  intros Hc Hnamed Hd.
  unfold lockPersona. rewrite (lock_ensure_persona_old st Hnamed). simpl.
  destruct (lock_switch_character st d c Hd Hc)
    as (st' & Hok & Hdescs & Hp & Hua & _).
  destruct (lock_switch_frame "character" st) as (Hg & Ha & _).
  pose proof (lock_switch_flags "character" st) as Hm.
  rewrite Hok in Hg, Ha, Hm. simpl in Hg, Ha, Hm.
  assert (getCurrentConnectionObj st' = Some c) as Hc'
    by (by rewrite (getCurrentConnectionObj_ext st st')).
  set (mine := with_connections
                 (remove_connection c (nullish (connections d) []) ++ [c]) d).
  assert (Obj.get (user_avatar st) (persona_descriptions st') = Some mine)
    as Hmine.
  { rewrite Hdescs, locked_descriptions_mine. unfold mine. do 2 f_equal.
    destruct (connections d) as [cs|]; simpl; [|done].
    by rewrite (without_current_remove st c cs Hc). }
  exists st'. split; [done|]. split; [done|]. split.
  - intros Hmulti k Hk. rewrite Hdescs. unfold locked_descriptions.
    rewrite Hmulti. by apply obj_get_set_ne.
  - assert (is_Some (personas st' !! user_avatar st')) as Hnamed'
      by (by rewrite Hp, Hua).
    rewrite (lock_ensure_persona_old st' Hnamed').
    rewrite <- Hua in Hmine.
    destruct (lock_switch_character st' mine c Hmine Hc')
      as (st'' & -> & Hdescs' & _).
    simpl. rewrite Hdescs'. unfold locked_descriptions.
    assert (with_connections
              (match connections mine with
               | Some cs => without_current st' cs
               | None => []
               end ++ [c]) mine = mine) as ->.
    { unfold mine at 1. simpl.
      rewrite (without_current_remove st' c _ Hc').
      rewrite remove_connection_app, remove_connection_idemp,
        remove_connection_self, app_nil_r.
      by unfold mine, with_connections. }
    rewrite (obj_set_same _ _ _ Hmine), Hm.
    destruct (persona_allow_multi_connections st) eqn:Hmulti; [done|].
    rewrite Hua, Hdescs. unfold locked_descriptions. rewrite Hmulti.
    unfold Obj.entries. apply unlink_others_idemp.
Qed.

Lemma lock_character_appends_once_witness :
  ∃ st', lockPersona (Some "character") alice_and_bob = Ok () st'
         ∧ Obj.get "alice.png" (persona_descriptions st')
           = Some (with_connections [mkConnection character "seraphina.png"]
                     empty_descriptor)
         ∧ persona_descriptions
             (result_state (lockPersona (Some "character") st'))
           = persona_descriptions st'.
Proof.
  destruct (lock_character_appends_once alice_and_bob
              (mkConnection character "seraphina.png") empty_descriptor)
    as (st' & Hok & Hmine & _ & Hagain).
  - reflexivity.
  - by eexists.
  - reflexivity.
  - exists st'. split; [exact Hok|]. split; [exact Hmine|exact Hagain].
Defined.

Lemma obj_get_elem {V : Type} (k : string) (v : V) (o : Obj.t V) :
  Obj.get k o = Some v → (k, v) ∈ o.
Proof.
  induction o as [|[k' v'] o IH]; simpl; [done|].
  case_decide as Hk; intros Hg.
  - simplify_eq. apply list_elem_of_here.
  - apply list_elem_of_further. auto.
Qed.

Lemma connected_to_holds key d :
  connected_to (Some key) d = true
  ↔ ∃ cs, connections d = Some cs ∧ mkConnection character key ∈ cs.
Proof.
  unfold connected_to. destruct (connections d) as [cs|].
  - rewrite existsb_exists. split.
    + intros ([ty id] & Hin & Hm). simpl in Hm.
      apply andb_true_iff in Hm as [Hty Hid].
      apply bool_decide_eq_true in Hty, Hid. simplify_eq.
      exists cs. split; [done|]. by apply list_elem_of_In.
    + intros (cs' & [= <-] & Hin). exists (mkConnection character key).
      split; [by apply list_elem_of_In|]. simpl.
      by rewrite !bool_decide_eq_true_2.
  - split; [done|]. by intros (cs & ? & _).
Qed.

(** In the chat of a character the open connection is the character's. *)
Lemma character_chat_connection st a :
  truthy (selected_group st) = false →
  this_chid_avatar st = Some a → a ≠ EmptyString →
  getCurrentConnectionObj st = Some (mkConnection character a)
  ∧ js_or (selected_group st) (this_chid_avatar st) = Some a.
Proof.
  intros Hg Ha Hne. unfold getCurrentConnectionObj, js_or. rewrite Hg, Ha.
  apply truthy_Some in Hne. by rewrite Hne.
Qed.

(** X5: in the chat of a character, with multi-connection disallowed,
    [lockPersona('character')] makes the selected persona the one and only
    persona that [getConnectedPersonas] lists for that character.  The next
    time the chat is opened without a usable chat lock, whatever avatar is
    selected by then, the resolver selects that persona from the character
    lock. *)
Theorem locked_persona_is_the_connected_one (st : State) (a : string) :
  truthy (selected_group st) = false →
  this_chid_avatar st = Some a → a ≠ EmptyString →
  persona_allow_multi_connections st = false →
  user_avatar st ≠ EmptyString →
  personas st !! user_avatar st = None
  ∨ is_Some (Obj.get (user_avatar st) (persona_descriptions st)) →
  ∃ st', lockPersona (Some "character") st = Ok () st'
         ∧ user_avatar st ∈ getConnectedPersonas None st'
         ∧ (∀ k, k ∈ getConnectedPersonas None st' → k = user_avatar st)
         ∧ (∀ other userAvatars answer,
              truthy (chat_metadata_persona st') = false
              ∨ includes userAvatars (chat_metadata_persona st') = false →
              (lpc_resolve userAvatars answer (set_user_avatar other st')).1
              = (Some (user_avatar st), Some lock_character)
              ∧ user_avatar
                  (loadPersonaForCurrentChat userAvatars answer
                     (set_user_avatar other st'))
                = user_avatar st).
Proof.
  intros Hg Ha Hne Hmulti Hua_ne Hwf.
  destruct (character_chat_connection st a Hg Ha Hne) as [Hc Hkey].
  set (c := mkConnection character a) in *.
  destruct (ensure_persona_descriptor st Hwf) as [d Hd].
  destruct (lock_ensure_persona_frame st)
    as (Hua & _ & Hsg & Hav & Hm1 & _ & _).
  set (st1 := lock_ensure_persona st) in *.
  assert (getCurrentConnectionObj st1 = Some c) as Hc1
    by (by rewrite (getCurrentConnectionObj_ext st st1)).
  rewrite <- Hua in Hd.
  destruct (lock_switch_character st1 d c Hd Hc1)
    as (st' & Hok & Hdescs & _ & Hua' & _).
  destruct (lock_switch_frame "character" st1) as (Hg' & Ha' & _).
  rewrite Hok in Hg', Ha'. simpl in Hg', Ha'.
  assert (js_or (selected_group st') (this_chid_avatar st') = Some a)
    as Hkey' by (by rewrite Hg', Ha', Hsg, Hav).
  assert (user_avatar st ∈ getConnectedPersonas None st') as Hin.
  { unfold getConnectedPersonas. rewrite Hkey'.
    apply list_elem_of_fmap.
    exists (user_avatar st1,
            with_connections
              (match connections d with
               | Some cs => without_current st1 cs
               | None => []
               end ++ [c]) d).
    split; [done|]. apply elem_of_List_filter. split.
    - apply obj_get_elem. rewrite Hdescs. apply locked_descriptions_mine.
    - simpl. apply connected_to_holds. eexists. split; [reflexivity|].
      apply elem_of_app. right. apply list_elem_of_here. }
  assert (∀ k, k ∈ getConnectedPersonas None st' → k = user_avatar st)
    as Honly.
  { intros k (d' & Hk & Hconn)%getConnectedPersonas_keys.
    rewrite Hkey' in Hconn.
    apply connected_to_holds in Hconn as (cs & Hcs & Hc_in).
    rewrite Hdescs in Hk. unfold locked_descriptions in Hk.
    rewrite Hm1, Hmulti in Hk. rewrite unlink_others_map in Hk.
    apply list_elem_of_fmap in Hk as ([k0 d0] & Heq & _). simpl in Heq.
    case_decide as Hk0; simplify_eq; [done|].
    apply unlink_descriptor_connections in Hcs
      as (cs0 & [[_ ->]|[_ ->]]); [|by apply elem_of_nil in Hc_in].
    apply elem_of_List_filter in Hc_in as [_ Hneq].
    apply negb_true_iff in Hneq.
    assert (same_connection c c = true) as Hsame
      by by apply same_connection_eq.
    unfold c in Hsame, Hneq. congruence. }
  exists st'. split; [exact Hok|]. split; [exact Hin|]. split; [exact Honly|].
  intros other userAvatars answer Hlock.
  set (st2 := set_user_avatar other st').
  destruct (lpc_chat_lock_unusable userAvatars st2 Hlock)
    as (st3 & H3 & Hd3 & Hg3 & Ha3 & Hm3 & _ & _).
  pose proof (getConnectedPersonas_ext None st' st3 Hd3 Hg3 Ha3) as Hconn.
  pose proof Hua_ne as Ht. apply truthy_Some in Ht.
  destruct (getConnectedPersonas None st') as [|p rest] eqn:HL;
    [by apply elem_of_nil in Hin|].
  assert (p = user_avatar st) as -> by (apply Honly, list_elem_of_here).
  destruct rest as [|q rest].
  - destruct (load_after_connection userAvatars answer st2 st3 st3
                (user_avatar st) H3) as (Hr & Hu & _); [|done|done].
    unfold lpc_connection. rewrite truthy_empty, Hconn. simpl.
    by rewrite Ht.
  - destruct (load_after_connection userAvatars answer st2 st3
                (emit (console_warn
                         "More than one persona is connected to this character.Using the first available persona for this chat.")
                   st3) (user_avatar st) H3) as (Hr & Hu & _); [|done|done].
    unfold lpc_connection. rewrite truthy_empty, Hconn. simpl.
    assert (persona_allow_multi_connections st3 = false) as ->.
    { rewrite Hm3. simpl.
      pose proof (lock_switch_flags "character" st1) as Hf.
      rewrite Hok in Hf. simpl in Hf. congruence. }
    simpl. by rewrite Ht.
Qed.

Lemma locked_persona_is_the_connected_one_witness :
  ∃ st', lockPersona (Some "character") alice_and_bob = Ok () st'
         ∧ "alice.png" ∈ getConnectedPersonas None st'
         ∧ user_avatar
             (loadPersonaForCurrentChat ["alice.png"; "bob.png"] popup_none
                (set_user_avatar "bob.png" st')) = "alice.png".
Proof.
  destruct (locked_persona_is_the_connected_one alice_and_bob
              "seraphina.png") as (st' & Hok & Hin & _ & Hsel);
    try reflexivity; try discriminate.
  - right. by eexists.
  - exists st'. split; [exact Hok|]. split; [exact Hin|].
    apply (Hsel "bob.png" ["alice.png"; "bob.png"] popup_none).
    left. revert Hok. vm_compute. by intros [= <-].
Defined.

(** ** The button that removes all connections *)

Lemma remove_all_connections_descriptions c st :
  persona_descriptions (remove_all_connections c st)
  = map (λ kd, (kd.1, without_connection c kd.2)) (persona_descriptions st).
Proof.
  unfold remove_all_connections, when. simpl.
  assert (persona_descriptions
            (if persona_show_notifications st
             then emit (toastr_info "Personas Unlocked")
                    (emit saveSettingsDebounced
                       (set_persona_descriptions
                          (map (λ kd : string * PersonaDescriptor,
                                  match connections kd.2 with
                                  | Some cs =>
                                      (kd.1,
                                       with_connections
                                         (List.filter
                                            (λ x, negb (bool_decide (conn_type c = conn_type x)
                                                        && bool_decide (conn_id c = conn_id x)))
                                            cs) kd.2)
                                  | None => kd
                                  end)) st))
             else emit saveSettingsDebounced
                    (set_persona_descriptions
                       (map (λ kd : string * PersonaDescriptor,
                               match connections kd.2 with
                               | Some cs =>
                                   (kd.1,
                                    with_connections
                                      (List.filter
                                         (λ x, negb (bool_decide (conn_type c = conn_type x)
                                                     && bool_decide (conn_id c = conn_id x)))
                                         cs) kd.2)
                               | None => kd
                               end)) st))
          = map (λ kd : string * PersonaDescriptor,
                   match connections kd.2 with
                   | Some cs =>
                       (kd.1,
                        with_connections
                          (List.filter
                             (λ x, negb (bool_decide (conn_type c = conn_type x)
                                         && bool_decide (conn_id c = conn_id x)))
                             cs) kd.2)
                   | None => kd
                   end) (persona_descriptions st)) as ->
    by (by destruct (persona_show_notifications st)).
  apply List.map_ext. intros [k d]. simpl. unfold without_connection.
  destruct (connections d) as [cs|]; [|done].
  do 2 f_equal. unfold remove_connection. apply List.filter_ext.
  intros [ty id]. destruct c as [ty' id']. simpl.
  repeat case_bool_decide; simplify_eq; done.
Qed.

Lemma holds_without_connection st st' c :
  (∀ k, Obj.get k (persona_descriptions st')
        = without_connection c <$> Obj.get k (persona_descriptions st)) →
  ∀ k c', holds st' k c' ↔ holds st k c' ∧ c' ≠ c.
Proof.
  intros Hget k c'. unfold holds. rewrite Hget. split.
  - intros (d' & cs' & Hd' & Hcs' & Hin).
    destruct (Obj.get k (persona_descriptions st)) as [d|]; [|done].
    simpl in Hd'. simplify_eq. unfold without_connection in Hcs'.
    destruct (connections d) as [cs|] eqn:Hcs; [|congruence].
    simpl in Hcs'. simplify_eq.
    apply elem_of_remove_connection in Hin as [Hin Hne].
    split; [|done]. by exists d, cs.
  - intros [(d & cs & Hd & Hcs & Hin) Hne]. rewrite Hd. simpl.
    exists (without_connection c d), (remove_connection c cs).
    split; [done|]. unfold without_connection. rewrite Hcs.
    split; [done|]. by apply elem_of_remove_connection.
Qed.

(** X6: the button [Remove All Connections] of the selection pop-up takes
    the connection of the targeted character or group from every persona,
    and nothing else: the pop-up answers [null], no persona holds the
    connection afterwards, every other connection is held by whom it was,
    no persona is listed as connected to the targeted character, names,
    default, chat lock and selection are as they were, and the settings
    are saved. *)
Theorem remove_all_connections_unlinks_everyone
    (personaList : list string) (c : PersonaConnection) (st : State) :
  (askForPersonaSelection personaList (Some c) popup_remove_all st).1 = None
  ∧ (∀ k, Obj.get k (persona_descriptions
                       (askForPersonaSelection personaList (Some c)
                          popup_remove_all st).2)
          = without_connection c <$> Obj.get k (persona_descriptions st))
  ∧ (∀ k c', holds (askForPersonaSelection personaList (Some c)
                      popup_remove_all st).2 k c'
             ↔ holds st k c' ∧ c' ≠ c)
  ∧ (conn_type c = character →
     getConnectedPersonas (Some (conn_id c))
       (askForPersonaSelection personaList (Some c) popup_remove_all st).2
     = [])
  ∧ (exclusive st →
     exclusive (askForPersonaSelection personaList (Some c)
                  popup_remove_all st).2)
  ∧ resolver_frame st
      (askForPersonaSelection personaList (Some c) popup_remove_all st).2
  ∧ default_persona
      (askForPersonaSelection personaList (Some c) popup_remove_all st).2
    = default_persona st
  ∧ chat_metadata_persona
      (askForPersonaSelection personaList (Some c) popup_remove_all st).2
    = chat_metadata_persona st
  ∧ user_avatar
      (askForPersonaSelection personaList (Some c) popup_remove_all st).2
    = user_avatar st
  ∧ saveSettingsDebounced
    ∈ log (askForPersonaSelection personaList (Some c) popup_remove_all st).2.
Proof.
  unfold askForPersonaSelection. simpl.
  set (st0 := emit (popup_show personaList) st).
  set (st' := remove_all_connections c st0).
  assert (∀ k, Obj.get k (persona_descriptions st')
               = without_connection c <$> Obj.get k (persona_descriptions st))
    as Hget.
  { intros k. unfold st'. rewrite remove_all_connections_descriptions.
    pose proof (obj_get_map (λ (_ : string) (d : PersonaDescriptor),
                               without_connection c d) k
                  (persona_descriptions st0)) as Hmap.
    exact Hmap. }
  pose proof (holds_without_connection st st' c Hget) as Hholds.
  split; [done|]. split; [exact Hget|]. split; [exact Hholds|].
  split.
  { intros Hty. unfold getConnectedPersonas, Obj.entries. unfold st'.
    rewrite remove_all_connections_descriptions.
    assert (∀ l : list (string * PersonaDescriptor),
              List.filter (λ kd, connected_to (Some (conn_id c)) kd.2)
                (map (λ kd, (kd.1, without_connection c kd.2)) l) = [])
      as -> ; [|done].
    induction l as [|[k d] l IH]; simpl; [done|].
    destruct (connected_to (Some (conn_id c)) (without_connection c d))
      eqn:Hconn; [|done].
    apply connected_to_holds in Hconn as (cs' & Hcs' & Hin).
    unfold without_connection in Hcs'.
    destruct (connections d) as [cs|] eqn:Hcs; [|congruence].
    simpl in Hcs'. simplify_eq.
    apply elem_of_remove_connection in Hin as [_ Hne].
    destruct c as [ty id]. simpl in *. by subst ty. }
  split.
  { intros Hex c' k1 k2 [H1 _]%Hholds [H2 _]%Hholds. by apply (Hex c'). }
  split.
  { apply (remove_all_connections_inv (resolver_frame st));
      try (unfold st0; frame_block).
    apply prefix_app_r. done. }
  unfold st', remove_all_connections, when.
  destruct (persona_show_notifications _); simpl; repeat split; in_log.
Qed.

(** ** The default persona is a persona *)

Lemma default_names_persona_same st st' :
  personas st' = personas st →
  default_persona st' = default_persona st ∨ default_persona st' = None →
  default_names_persona st → default_names_persona st'.
Proof.
  unfold default_names_persona. intros -> [->| ->] H d Hd; [auto|done].
Qed.

Lemma default_names_persona_insert k v st st' :
  personas st' = <[k := v]> (personas st) →
  default_persona st' = default_persona st →
  default_names_persona st → default_names_persona st'.
Proof.
  unfold default_names_persona. intros -> -> H d Hd.
  destruct (decide (k = d)) as [->|Hne].
  - rewrite lookup_insert_eq. by eexists.
  - rewrite lookup_insert_ne by done. auto.
Qed.

Lemma toggleDefaultPersona_names_persona avatarId quiet confirm st :
  default_names_persona st →
  default_names_persona (toggleDefaultPersona avatarId quiet confirm st).
Proof.
  unfold toggleDefaultPersona, when, default_names_persona. intros H.
  repeat (case_match; simpl); intros d Hd; simplify_eq; eauto.
Qed.

Lemma lock_ensure_persona_names_persona st :
  default_names_persona st → default_names_persona (lock_ensure_persona st).
Proof.
  intros H. destruct (lock_ensure_persona_frame st)
    as (_ & _ & _ & _ & _ & Hdef & _).
  destruct (personas st !! user_avatar st) as [n|] eqn:Hn.
  - rewrite lock_ensure_persona_old; [done|by eexists].
  - destruct (lock_ensure_persona_new st Hn) as [Hp _].
    by apply (default_names_persona_insert _ _ st _ Hp).
Qed.

Lemma lock_switch_names_persona type st :
  default_names_persona st →
  default_names_persona (result_state (lock_switch type st)).
Proof.
  intros H. unfold lock_switch.
  destruct (lock_type_of type) as [[| |]|]; simpl; [| | |done].
  - unfold when. by case_match.
  - destruct (Obj.get _ _); [|done].
    destruct (getCurrentConnectionObj st); [|done].
    case_match; [|done]. unfold when.
    repeat (case_match; simpl);
      by apply (default_names_persona_same st); [|left|].
  - by apply toggleDefaultPersona_names_persona.
Qed.

Lemma unlockPersona_names_persona type st :
  default_names_persona st →
  default_names_persona (result_state (unlockPersona type st)).
Proof.
  intros H. unfold unlockPersona.
  destruct (lock_type_of _) as [[| |]|]; simpl; [| | |done].
  - unfold when. repeat (case_match; simpl);
      by apply (default_names_persona_same st); [|left|].
  - destruct (Obj.get _ _) as [d|]; [|done].
    destruct (connections d); [|done]. simpl. unfold when.
    repeat (case_match; simpl);
      by apply (default_names_persona_same st); [|left|].
  - by apply toggleDefaultPersona_names_persona.
Qed.

Lemma loadPersonaForCurrentChat_names_persona userAvatars answer st :
  default_names_persona st →
  default_names_persona (loadPersonaForCurrentChat userAvatars answer st).
Proof.
  apply (loadPersonaForCurrentChat_inv default_names_persona);
    unfold default_names_persona; simpl; auto; try done.
Qed.

Lemma setUserAvatar_names_persona imgfile toast st :
  default_names_persona st →
  default_names_persona (setUserAvatar imgfile toast st).
Proof.
  apply (setUserAvatar_inv default_names_persona);
    unfold default_names_persona; simpl; auto; try done.
Qed.

Lemma delete_entries_names_persona a st :
  default_names_persona st → default_names_persona (delete_entries a st).
Proof.
  unfold delete_entries, when, default_names_persona. simpl. intros H.
  repeat (case_bool_decide; simpl); intros d Hd; simplify_eq;
    (rewrite lookup_delete_ne by congruence); auto.
Qed.

Lemma deleteUserAvatar_names_persona confirm request_ok userAvatars answer st :
  default_names_persona st →
  default_names_persona
    (deleteUserAvatar confirm request_ok userAvatars answer st).
Proof.
  intros H. unfold deleteUserAvatar.
  repeat (case_match; simpl); try done.
  apply loadPersonaForCurrentChat_names_persona.
  assert (default_names_persona
            (delete_entries (user_avatar st) st)) as Hdel
    by by apply delete_entries_names_persona.
  unfold delete_entries, when, default_names_persona in *. simpl in *.
  repeat (case_bool_decide; simpl in * ); done.
Qed.

Lemma onPersonasRestoreInput_names_persona avatarsList input st :
  default_names_persona st →
  default_names_persona (onPersonasRestoreInput avatarsList input st).
Proof.
  intros H. destruct input as [| | |data]; try done.
  destruct (onPersonasRestoreInput_stores avatarsList data st)
    as (Hp & _ & Hdef).
  destruct (restore_merge_spec avatarsList data st)
    as (Hkeep & _ & _ & _ & _ & _ & Hd & _).
  unfold default_names_persona. rewrite Hp, Hdef, Hd. intros d.
  destruct (truthy (backup_default_persona data)) eqn:Ht; simpl.
  - case_bool_decide as Hin.
    + intros Heq. rewrite Heq in Hin. exact Hin.
    + intros Hdd. destruct (H d Hdd) as [n Hn]. exists n. by apply Hkeep.
  - intros Hdd. destruct (H d Hdd) as [n Hn]. exists n. by apply Hkeep.
Qed.

Lemma duplicatePersona_names_persona avatarId confirm now st :
  default_names_persona st →
  default_names_persona (duplicatePersona avatarId confirm now st).
Proof.
  intros H. unfold duplicatePersona.
  repeat (case_match; simpl); try done.
  by eapply (default_names_persona_insert _ _ st).
Qed.

Lemma initPersona_names_persona avatarId personaName personaDescription st :
  default_names_persona st →
  default_names_persona
    (initPersona avatarId personaName personaDescription st).
Proof. intros H. by eapply (default_names_persona_insert _ _ st). Qed.

Lemma updatePersonaNameIfExists_names_persona avatarId newName st :
  default_names_persona st →
  default_names_persona (updatePersonaNameIfExists avatarId newName st).
Proof.
  intros H. unfold updatePersonaNameIfExists.
  case_bool_decide; by eapply (default_names_persona_insert _ _ st).
Qed.

Lemma bind_names_persona personaName st :
  truthy personaName = true →
  default_names_persona st →
  default_names_persona (bindUserNameToPersona personaName false st).
Proof.
  intros Hn H. unfold bindUserNameToPersona. rewrite Hn.
  case_match; [done|]. case_match; [done|].
  set (n := nullish personaName EmptyString).
  assert (∀ st1, default_names_persona st1 →
                 default_names_persona
                   (setPersonaDescription (emit saveSettingsDebounced st1)))
    as Hend.
  { intros st1 Hst1. unfold setPersonaDescription, when.
    case_match; by apply (default_names_persona_same st1); [|left|]. }
  apply Hend.
  assert (default_names_persona (set_personas (insert (user_avatar st) n) st))
    as Hins by by eapply (default_names_persona_insert _ _ st).
  simpl. destruct (Obj.get (user_avatar st) (persona_descriptions st)).
  - apply updatePersonaNameIfExists_names_persona.
    by apply (default_names_persona_same
                (set_personas (insert (user_avatar st) n) st)); [|left|].
  - apply updatePersonaNameIfExists_names_persona.
    by apply (default_names_persona_same
                (set_personas (insert (user_avatar st) n) st)); [|left|].
Qed.

(** X7: setting and removing the default and locking and unlocking keep
    the default persona a persona: if [power_user.default_persona], when
    set, is a key of [power_user.personas], it still is after
    [toggleDefaultPersona], [lockPersona] and [unlockPersona], whatever
    their arguments and whatever the user answers. *)
Theorem default_persona_survives_locks (st : State) :
  default_names_persona st →
  (∀ avatarId quiet confirm,
     default_names_persona (toggleDefaultPersona avatarId quiet confirm st))
  ∧ (∀ type, default_names_persona (result_state (lockPersona type st)))
  ∧ (∀ type, default_names_persona (result_state (unlockPersona type st))).
Proof.
  intros H.
  split; [intros; by apply toggleDefaultPersona_names_persona|].
  split; [|intros; by apply unlockPersona_names_persona].
  intros type. unfold lockPersona.
  by apply lock_switch_names_persona, lock_ensure_persona_names_persona.
Qed.

Lemma default_persona_survives_locks_witness :
  default_names_persona alice_default_and_locked
  ∧ default_names_persona
      (toggleDefaultPersona "alice.png" true true alice_default_and_locked)
  ∧ default_names_persona
      (result_state (lockPersona (Some "default") alice_default_and_locked)).
Proof.
  assert (default_names_persona alice_default_and_locked) as H0.
  { intros d. simpl. intros [= <-]. by eexists. }
  destruct (default_persona_survives_locks alice_default_and_locked H0)
    as (Htoggle & Hlock & _).
  split; [exact H0|]. split; [apply Htoggle|apply Hlock].
Defined.

(** X8: deleting, restoring, duplicating and creating keep the default
    persona a persona.  [deleteUserAvatar] clears a default that is the
    deleted avatar; [onPersonasRestoreInput] takes the default of the file
    only if the merged store has it; the others add a persona and leave
    the default alone. *)
Theorem default_persona_survives_lifecycle (st : State) :
  default_names_persona st →
  (∀ confirm request_ok userAvatars answer,
     default_names_persona
       (deleteUserAvatar confirm request_ok userAvatars answer st))
  ∧ (∀ avatarsList input,
       default_names_persona (onPersonasRestoreInput avatarsList input st))
  ∧ (∀ avatarId confirm now,
       default_names_persona (duplicatePersona avatarId confirm now st))
  ∧ (∀ avatarId personaName personaDescription,
       default_names_persona
         (createPersona avatarId personaName personaDescription st))
  ∧ (∀ personaName now,
       default_names_persona (createDummyPersona personaName now st)).
Proof.
  intros H.
  split; [intros; by apply deleteUserAvatar_names_persona|].
  split; [intros; by apply onPersonasRestoreInput_names_persona|].
  split; [intros; by apply duplicatePersona_names_persona|].
  split.
  { intros avatarId personaName personaDescription. unfold createPersona.
    case_match; [done|]. unfold when. case_match.
    - apply (default_names_persona_same
               (initPersona avatarId (nullish personaName EmptyString)
                  personaDescription st)); [done|by left|].
      by apply initPersona_names_persona.
    - by apply initPersona_names_persona. }
  intros personaName now. unfold createDummyPersona.
  case_match; [done|].
  apply (default_names_persona_same
           (initPersona (new_avatar_id now (nullish personaName EmptyString))
              (nullish personaName EmptyString) (Some EmptyString) st));
    [done|by left|].
  by apply initPersona_names_persona.
Qed.

Lemma default_persona_survives_lifecycle_witness :
  default_names_persona alice_default_and_locked
  ∧ default_names_persona
      (deleteUserAvatar true true [] popup_none alice_default_and_locked)
  ∧ default_names_persona
      (onPersonasRestoreInput ["alice.png"] (backup_file backup_of_alice)
         alice_default_and_locked).
Proof.
  assert (default_names_persona alice_default_and_locked) as H0.
  { intros d. simpl. intros [= <-]. by eexists. }
  destruct (default_persona_survives_lifecycle alice_default_and_locked H0)
    as (Hdelete & Hrestore & _).
  split; [exact H0|]. split; [apply Hdelete|apply Hrestore].
Defined.

(** X9: renaming, binding a name, selecting an avatar and resolving the
    persona of the chat keep the default persona a persona.  Unbinding the
    name of the default persona does not. *)
Theorem default_persona_survives_selection (st : State) :
  default_names_persona st →
  (∀ userName, default_names_persona (persona_rename_button userName st))
  ∧ (∀ personaName,
       truthy personaName = true →
       default_names_persona (bindUserNameToPersona personaName false st))
  ∧ (∀ imgfile toast,
       imgfile ≠ EmptyString →
       default_names_persona (setUserAvatar imgfile toast st))
  ∧ (∀ userAvatars answer,
       default_names_persona
         (loadPersonaForCurrentChat userAvatars answer st)).
Proof.
  intros H.
  split.
  { intros userName. unfold persona_rename_button.
    apply updatePersonaNameIfExists_names_persona.
    by apply (default_names_persona_same st); [|left|]. }
  split; [intros; by apply bind_names_persona|].
  split; [intros; by apply setUserAvatar_names_persona|].
  intros. by apply loadPersonaForCurrentChat_names_persona.
Qed.

Lemma default_persona_survives_selection_witness :
  default_names_persona alice_default_and_locked
  ∧ default_names_persona
      (persona_rename_button "Alicia" alice_default_and_locked)
  ∧ default_names_persona
      (loadPersonaForCurrentChat ["alice.png"] popup_none
         alice_default_and_locked).
Proof.
  assert (default_names_persona alice_default_and_locked) as H0.
  { intros d. simpl. intros [= <-]. by eexists. }
  destruct (default_persona_survives_selection alice_default_and_locked H0)
    as (Hrename & _ & _ & Hload).
  split; [exact H0|]. split; [apply Hrename|apply Hload].
Defined.

(** ** Binding and unbinding a name *)

(** X10: confirming the name pop-up of [bindUserNameToPersona] with an empty
    name removes the name and the descriptor of the selected avatar, with
    the connections it holds, and nothing else: the default persona and
    the chat lock are not touched.  If the avatar was the default persona,
    the default then names an avatar that is no persona. *)
Theorem unbind_leaves_the_locks (personaName : option string)
    (personaUnbind : bool) (st : State) :
  user_avatar st ≠ EmptyString →
  truthy personaName = false →
  personaName ≠ None ∨ personaUnbind = true →
  personas (bindUserNameToPersona personaName personaUnbind st)
  = delete (user_avatar st) (personas st)
  ∧ persona_descriptions (bindUserNameToPersona personaName personaUnbind st)
    = Obj.del (user_avatar st) (persona_descriptions st)
  ∧ (∀ c, ¬ holds (bindUserNameToPersona personaName personaUnbind st)
              (user_avatar st) c)
  ∧ default_persona (bindUserNameToPersona personaName personaUnbind st)
    = default_persona st
  ∧ chat_metadata_persona
      (bindUserNameToPersona personaName personaUnbind st)
    = chat_metadata_persona st
  ∧ user_avatar (bindUserNameToPersona personaName personaUnbind st)
    = user_avatar st
  ∧ name1 (bindUserNameToPersona personaName personaUnbind st) = name1 st
  ∧ saveSettingsDebounced
    ∈ log (bindUserNameToPersona personaName personaUnbind st)
  ∧ (default_persona st = Some (user_avatar st) →
     ¬ default_names_persona
         (bindUserNameToPersona personaName personaUnbind st)).
Proof.
  intros Hua Hname Hconfirmed.
  apply truthy_Some in Hua.
  assert (bool_decide (personaName = None) && negb personaUnbind = false)
    as Hgo.
  { destruct Hconfirmed as [Hn| ->]; [|by rewrite andb_false_r].
    by rewrite bool_decide_eq_false_2. }
  unfold bindUserNameToPersona. rewrite Hua, Hname, Hgo. simpl.
  unfold setPersonaDescription, when.
  assert (∀ c st', persona_descriptions st'
                   = Obj.del (user_avatar st) (persona_descriptions st) →
                   ¬ holds st' (user_avatar st) c) as Hnot.
  { intros c st' Hd (d & cs & Hget & _). rewrite Hd, obj_get_del_eq in Hget.
    done. }
  assert (∀ st', personas st' = delete (user_avatar st) (personas st) →
                 default_persona st' = default_persona st →
                 default_persona st = Some (user_avatar st) →
                 ¬ default_names_persona st') as Hdangling.
  { intros st' Hp Hd Hdef Hinv. destruct (Hinv (user_avatar st)) as [n Hn].
    - by rewrite Hd.
    - rewrite Hp, lookup_delete_eq in Hn. done. }
  case_match; simpl;
    (split; [done|]; split; [done|]; split; [intros c; by apply Hnot|];
     do 4 (split; [done|]); split; [in_log|];
     intros Hdef; by apply Hdangling).
Qed.

Lemma unbind_leaves_the_locks_witness :
  personas (bindUserNameToPersona (Some EmptyString) true
              alice_default_and_locked) !! "alice.png" = None
  ∧ default_persona (bindUserNameToPersona (Some EmptyString) true
                       alice_default_and_locked) = Some "alice.png"
  ∧ chat_metadata_persona (bindUserNameToPersona (Some EmptyString) true
                             alice_default_and_locked) = Some "alice.png".
Proof.
  destruct (unbind_leaves_the_locks (Some EmptyString) true
              alice_default_and_locked)
    as (Hp & _ & _ & Hdef & Hchat & _).
  - discriminate.
  - reflexivity.
  - by right.
  - rewrite Hp, Hdef, Hchat. split; [apply lookup_delete_eq|]. by split.
Defined.

(** X11: confirming the pop-up with a name makes the selected avatar a
    persona of that name and makes it the user name.  A descriptor the
    avatar already has is kept as it is, connections included; an avatar
    without one gets a descriptor made of the current description, with no
    connections.  The other descriptors, the default persona and the chat
    lock are as they were. *)
Theorem bind_makes_a_persona (n : string) (personaUnbind : bool)
    (st : State) :
  user_avatar st ≠ EmptyString →
  n ≠ EmptyString →
  personas (bindUserNameToPersona (Some n) personaUnbind st)
  = <[user_avatar st := n]> (personas st)
  ∧ name1 (bindUserNameToPersona (Some n) personaUnbind st) = n
  ∧ Obj.get (user_avatar st)
      (persona_descriptions (bindUserNameToPersona (Some n) personaUnbind st))
    = Some (match Obj.get (user_avatar st) (persona_descriptions st) with
            | Some d => d
            | None =>
                {| description := Some (persona_description st);
                   position := Some (persona_description_position st);
                   depth := Some (persona_description_depth st);
                   role := Some (persona_description_role st);
                   lorebook := Some (persona_description_lorebook st);
                   connections := None |}
            end)
  ∧ (∀ k, k ≠ user_avatar st →
       Obj.get k (persona_descriptions
                    (bindUserNameToPersona (Some n) personaUnbind st))
       = Obj.get k (persona_descriptions st))
  ∧ default_persona (bindUserNameToPersona (Some n) personaUnbind st)
    = default_persona st
  ∧ chat_metadata_persona (bindUserNameToPersona (Some n) personaUnbind st)
    = chat_metadata_persona st
  ∧ user_avatar (bindUserNameToPersona (Some n) personaUnbind st)
    = user_avatar st
  ∧ persona_description (bindUserNameToPersona (Some n) personaUnbind st)
    = persona_description st
  ∧ setUserName n ∈ log (bindUserNameToPersona (Some n) personaUnbind st)
  ∧ saveSettingsDebounced
    ∈ log (bindUserNameToPersona (Some n) personaUnbind st).
Proof.
  intros Hua Hn. apply truthy_Some in Hua, Hn.
  unfold bindUserNameToPersona. rewrite Hua, Hn. simpl.
  unfold updatePersonaNameIfExists, setPersonaDescription, when.
  destruct (Obj.get (user_avatar st) (persona_descriptions st))
    as [d|] eqn:Hd; simpl;
    rewrite lookup_insert_eq;
    (rewrite (bool_decide_eq_true_2 (is_Some (Some n))) by (by eexists));
    simpl; case_match; simpl; rewrite insert_insert_eq;
    repeat split; try done; try in_log;
    try apply obj_get_set_eq; intros k Hk; by apply obj_get_set_ne.
Qed.

Lemma bind_makes_a_persona_witness :
  personas (bindUserNameToPersona (Some "Nova") false unbound_avatar)
    !! "new.png" = Some "Nova"
  ∧ name1 (bindUserNameToPersona (Some "Nova") false unbound_avatar) = "Nova".
Proof.
  destruct (bind_makes_a_persona "Nova" false unbound_avatar)
    as (Hp & Hname & _).
  - discriminate.
  - discriminate.
  - rewrite Hp, Hname. split; [apply lookup_insert_eq|reflexivity].
Defined.

(** ** Renaming the selected persona *)


(** ** Selecting an avatar *)

Lemma same_persona_fields_trans st1 st2 st3 :
  same_persona_fields st1 st2 → same_persona_fields st2 st3 →
  same_persona_fields st1 st3.
Proof.
  unfold same_persona_fields. intros H12 H23. destruct_and!.
  repeat split; congruence.
Qed.

Lemma scp_auto_lock_spec b toast st :
  same_persona_fields st (scp_auto_lock b toast st)
  ∧ chat_metadata_persona (scp_auto_lock b toast st)
    = (if b then Some (user_avatar st) else chat_metadata_persona st).
Proof.
  unfold scp_auto_lock, when, same_persona_fields.
  destruct b; simpl; [|done]. by case_match.
Qed.

Lemma scp_temporary_spec st :
  same_persona_fields st (scp_temporary st)
  ∧ chat_metadata_persona (scp_temporary st) = chat_metadata_persona st.
Proof.
  unfold scp_temporary, when, same_persona_fields.
  destruct (persona_show_notifications st); [|done]. by case_match.
Qed.

Lemma scp_user_name_spec n st :
  name1 (scp_user_name n st) = n
  ∧ personas (scp_user_name n st) = personas st
  ∧ persona_descriptions (scp_user_name n st) = persona_descriptions st
  ∧ default_persona (scp_user_name n st) = default_persona st
  ∧ chat_metadata_persona (scp_user_name n st) = chat_metadata_persona st
  ∧ user_avatar (scp_user_name n st) = user_avatar st.
Proof.
  unfold scp_user_name, when.
  case_bool_decide as Hn; simpl; repeat split; congruence.
Qed.

Lemma scp_descriptor_spec st :
  name1 (scp_descriptor st) = name1 st
  ∧ personas (scp_descriptor st) = personas st
  ∧ default_persona (scp_descriptor st) = default_persona st
  ∧ chat_metadata_persona (scp_descriptor st) = chat_metadata_persona st
  ∧ user_avatar (scp_descriptor st) = user_avatar st
  ∧ persona_descriptions (scp_descriptor st)
    = match Obj.get (user_avatar st) (persona_descriptions st) with
      | Some _ => persona_descriptions st
      | None =>
          Obj.set (user_avatar st) empty_descriptor (persona_descriptions st)
      end
  ∧ loaded_from
      (default empty_descriptor
         (Obj.get (user_avatar st) (persona_descriptions st)))
      (setPersonaDescription (scp_descriptor st)).
Proof.
  unfold scp_descriptor, setPersonaDescription, when, loaded_from,
    shown_position.
  destruct (Obj.get (user_avatar st) (persona_descriptions st)) as [d|];
    simpl; [|done].
  case_bool_decide; simpl; done.
Qed.

Lemma setPersonaDescription_spec st :
  name1 (setPersonaDescription st) = name1 st
  ∧ chat_metadata_persona (setPersonaDescription st)
    = chat_metadata_persona st.
Proof. unfold setPersonaDescription, when. by case_match. Qed.

(** What [selectCurrentPersona] does for a persona that has a name. *)
Lemma selectCurrentPersona_named toast st n :
  personas st !! user_avatar st = Some n → n ≠ EmptyString →
  user_avatar (selectCurrentPersona toast st) = user_avatar st
  ∧ name1 (selectCurrentPersona toast st) = n
  ∧ personas (selectCurrentPersona toast st) = personas st
  ∧ default_persona (selectCurrentPersona toast st) = default_persona st
  ∧ persona_descriptions (selectCurrentPersona toast st)
    = match Obj.get (user_avatar st) (persona_descriptions st) with
      | Some _ => persona_descriptions st
      | None =>
          Obj.set (user_avatar st) empty_descriptor (persona_descriptions st)
      end
  ∧ loaded_from
      (default empty_descriptor
         (Obj.get (user_avatar st) (persona_descriptions st)))
      (selectCurrentPersona toast st)
  ∧ chat_metadata_persona (selectCurrentPersona toast st)
    = (if persona_auto_lock st then Some (user_avatar st)
       else chat_metadata_persona st).
Proof.
  intros Hn Hne. apply truthy_Some in Hne.
  unfold selectCurrentPersona. rewrite Hn, Hne. cbn [nullish].
  set (b := persona_auto_lock st
            && negb (bool_decide
                       (Some (user_avatar st) = chat_metadata_persona st))).
  set (st1 := scp_user_name n st).
  destruct (scp_user_name_spec n st)
    as (Hname1 & Hp1 & Hd1 & Hdef1 & Hchat1 & Hua1). fold st1 in Hname1, Hp1, Hd1, Hdef1, Hchat1, Hua1.
  destruct (scp_descriptor_spec st1)
    as (Hname2 & Hp2 & Hdef2 & Hchat2 & Hua2 & Hd2 & Hload2).
  destruct (setPersonaDescription_frame (scp_descriptor st1))
    as (Hp3 & Hua3 & Hd3 & Hdef3).
  destruct (setPersonaDescription_spec (scp_descriptor st1))
    as (Hname3 & Hchat3).
  set (st3 := setPersonaDescription (scp_descriptor st1)) in *.
  destruct (scp_auto_lock_spec b toast st3) as (Hsame4 & Hchat4).
  set (st4 := scp_auto_lock b toast st3) in *.
  destruct (scp_temporary_spec st4) as (Hsame5 & Hchat5).
  pose proof (same_persona_fields_trans _ _ _ Hsame4 Hsame5) as Hsame.
  destruct Hsame as (Hp & Hd & Hdef & Hua & Hname & Hc1 & Hc2 & Hc3 & Hc4 & Hc5).
  rewrite Hua1, Hd1 in Hd2, Hload2.
  split; [congruence|]. split; [congruence|]. split; [congruence|].
  split; [congruence|]. split; [congruence|].
  split.
  { unfold loaded_from in *. rewrite Hc1, Hc2, Hc3, Hc4, Hc5. exact Hload2. }
  rewrite Hchat5, Hchat4, Hua3, Hua2, Hua1, Hchat3, Hchat2, Hchat1.
  unfold b. destruct (persona_auto_lock st); simpl; [|done].
  case_bool_decide as Heq; simpl; [|done]. done.
Qed.

Lemma selectCurrentPersona_unnamed toast st :
  truthy (personas st !! user_avatar st) = false →
  selectCurrentPersona toast st = st.
Proof. intros Hn. unfold selectCurrentPersona. by rewrite Hn. Qed.

Lemma shown_position_not_retired p : shown_position p ≠ AFTER_CHAR.
Proof. unfold shown_position. by case_bool_decide. Qed.

(** X13: [setUserAvatar], given an avatar id (a string that is not empty)
    of a persona with a name, makes
    it the selected avatar, makes its name the user name, and loads its
    descriptor into the current description, with the defaults for the
    properties the descriptor lacks and [IN_PROMPT] for the retired
    position [AFTER_CHAR]; a persona without a descriptor gets the default
    one.  The chat is locked to the persona exactly when the automatic lock
    is set.  The names and the default persona are as they were.  On an
    avatar that is no persona, or whose name is empty, only the selection
    changes: the user name and the current description stay those of the
    persona selected before. *)
Theorem select_loads_the_descriptor (imgfile : string) (toast : bool)
    (st : State) :
  imgfile ≠ EmptyString →
  (∀ n, personas st !! imgfile = Some n → n ≠ EmptyString →
     user_avatar (setUserAvatar imgfile toast st) = imgfile
     ∧ name1 (setUserAvatar imgfile toast st) = n
     ∧ loaded_from
         (default empty_descriptor (Obj.get imgfile (persona_descriptions st)))
         (setUserAvatar imgfile toast st)
     ∧ persona_description_position (setUserAvatar imgfile toast st)
       ≠ AFTER_CHAR
     ∧ persona_descriptions (setUserAvatar imgfile toast st)
       = match Obj.get imgfile (persona_descriptions st) with
         | Some _ => persona_descriptions st
         | None => Obj.set imgfile empty_descriptor (persona_descriptions st)
         end
     ∧ chat_metadata_persona (setUserAvatar imgfile toast st)
       = (if persona_auto_lock st then Some imgfile
          else chat_metadata_persona st)
     ∧ personas (setUserAvatar imgfile toast st) = personas st
     ∧ default_persona (setUserAvatar imgfile toast st) = default_persona st)
  ∧ (truthy (personas st !! imgfile) = false →
     setUserAvatar imgfile toast st
     = emit saveSettingsDebounced (set_user_avatar imgfile st)).
Proof.
  intros _. split.
  - intros n Hn Hne. unfold setUserAvatar.
    destruct (selectCurrentPersona_named toast (set_user_avatar imgfile st) n
                Hn Hne)
      as (Hua & Hname & Hp & Hdef & Hd & Hload & Hchat).
    simpl in *. split; [done|]. split; [done|]. split; [exact Hload|].
    split.
    { destruct Hload as (_ & -> & _). apply shown_position_not_retired. }
    done.
  - intros Hn. unfold setUserAvatar.
    by rewrite selectCurrentPersona_unnamed.
Qed.

Lemma select_loads_the_descriptor_witness :
  name1 (setUserAvatar "alice.png" true
           (set_name1 "Bob" (set_user_avatar "bob.png" alice_described)))
  = "Alice"
  ∧ persona_description_depth
      (setUserAvatar "alice.png" true
         (set_name1 "Bob" (set_user_avatar "bob.png" alice_described)))
    = 4%Z.
Proof.
  destruct (select_loads_the_descriptor "alice.png" true
              (set_name1 "Bob" (set_user_avatar "bob.png" alice_described)))
    as [Hnamed _]; [discriminate|].
  destruct (Hnamed "Alice") as (_ & Hname & Hload & _);
    [reflexivity|discriminate|].
  split; [exact Hname|]. destruct Hload as (_ & _ & Hdepth & _).
  exact Hdepth.
Defined.

(** ** Editing the description *)

Lemma setUserAvatar_personas imgfile toast st :
  personas (setUserAvatar imgfile toast st) = personas st.
Proof.
  apply (setUserAvatar_inv (λ s, personas s = personas st)); simpl; auto.
Qed.

(** Selecting an avatar leaves the descriptors that exist alone. *)
Lemma setUserAvatar_keeps_descriptor imgfile toast st a d :
  Obj.get a (persona_descriptions st) = Some d →
  Obj.get a (persona_descriptions (setUserAvatar imgfile toast st)) = Some d.
Proof.
  intros Hd. unfold setUserAvatar. simpl.
  destruct (truthy (personas st !! imgfile)) eqn:Hn.
  - apply truthy_is_Some in Hn as (n & Hn & Hne).
    destruct (selectCurrentPersona_named toast (set_user_avatar imgfile st) n
                Hn Hne) as (_ & _ & _ & _ & -> & _).
    simpl. destruct (Obj.get imgfile (persona_descriptions st)) eqn:Hi;
      [done|].
    rewrite obj_get_set_ne; [done|]. intros ->. congruence.
  - by rewrite selectCurrentPersona_unnamed.
Qed.

Lemma read_back_intro d a n st :
  personas st !! a = Some n → n ≠ EmptyString →
  Obj.get a (persona_descriptions st) = Some d →
  read_back d a st.
Proof.
  intros Hn Hne Hd other t1 t2 _ _.
  pose proof (setUserAvatar_personas other t1 st) as Hp.
  pose proof (setUserAvatar_keeps_descriptor other t1 st a d Hd) as Hd'.
  revert Hp Hd'. generalize (setUserAvatar other t1 st). intros st1 Hp Hd'.
  unfold setUserAvatar.
  destruct (selectCurrentPersona_named t2 (set_user_avatar a st1) n)
    as (_ & _ & _ & _ & _ & Hload & _); [simpl; by rewrite Hp|done|].
  simpl in Hload. rewrite Hd' in Hload. exact Hload.
Qed.

Lemma obj_set_set {V : Type} (k : string) (v v' : V) (o : Obj.t V) :
  Obj.set k v (Obj.set k v' o) = Obj.set k v o.
Proof.
  induction o as [|[k' v0] o IH]; simpl.
  - by rewrite decide_True.
  - case_decide as Hk; simpl.
    + by rewrite decide_True.
    + rewrite decide_False by done. by rewrite IH.
Qed.

(** What the handlers that go through [getOrCreatePersonaDescriptor] do. *)
Lemma edit_descriptor_spec f st st0 n :
  personas st !! user_avatar st = Some n → n ≠ EmptyString →
  personas st = personas st0 → user_avatar st = user_avatar st0 →
  persona_descriptions st = persona_descriptions st0 →
  default_persona st = default_persona st0 →
  chat_metadata_persona st = chat_metadata_persona st0 →
  name1 st = name1 st0 →
  edited
    (f (default (current_descriptor st)
          (Obj.get (user_avatar st0) (persona_descriptions st0))))
    st0 (emit saveSettingsDebounced (edit_descriptor f st)).
Proof.
  intros Hn Hne Hp Hua Hd Hdef Hchat Hname.
  pose proof Hne as Ht. apply truthy_Some in Ht.
  unfold edit_descriptor, getOrCreatePersonaDescriptor.
  rewrite Hn, Ht, <- Hua, <- Hd.
  assert (∀ d' st',
            persona_descriptions st'
            = Obj.set (user_avatar st) d' (persona_descriptions st) →
            personas st' = personas st →
            default_persona st' = default_persona st →
            chat_metadata_persona st' = chat_metadata_persona st →
            user_avatar st' = user_avatar st → name1 st' = name1 st →
            edited d' st0 (emit saveSettingsDebounced st')) as Hedited.
  { intros d' st' Hd' Hp' Hdef' Hchat' Hua' Hname'. unfold edited. simpl.
    rewrite Hd', Hp', Hdef', Hchat', Hua', Hname', <- Hua.
    split; [apply obj_get_set_eq|].
    split; [intros k Hk; rewrite obj_get_set_ne by done; by rewrite Hd|].
    do 5 (split; [done|]). split; [in_log|].
    apply (read_back_intro d' (user_avatar st) n); simpl.
    - by rewrite Hp'.
    - done.
    - rewrite Hd'. apply obj_get_set_eq. }
  destruct (Obj.get (user_avatar st) (persona_descriptions st)) as [d|] eqn:Hg;
    simpl; apply Hedited; simpl; try done.
  apply obj_set_set.
Qed.

Lemma edited_intro d' st0 st' n :
  personas st0 !! user_avatar st0 = Some n → n ≠ EmptyString →
  persona_descriptions st'
  = Obj.set (user_avatar st0) d' (persona_descriptions st0) →
  personas st' = personas st0 →
  default_persona st' = default_persona st0 →
  chat_metadata_persona st' = chat_metadata_persona st0 →
  user_avatar st' = user_avatar st0 → name1 st' = name1 st0 →
  edited d' st0 (emit saveSettingsDebounced st').
Proof.
  intros Hn Hne Hd' Hp' Hdef' Hchat' Hua' Hname'. unfold edited. simpl.
  rewrite Hd', Hp', Hdef', Hchat', Hua', Hname'.
  split; [apply obj_get_set_eq|].
  split; [intros k Hk; by rewrite obj_get_set_ne|].
  do 5 (split; [done|]). split; [in_log|].
  apply (read_back_intro d' (user_avatar st0) n); simpl.
  - by rewrite Hp'.
  - done.
  - rewrite Hd'. apply obj_get_set_eq.
Qed.

Lemma edit_descriptor_unnamed f st :
  truthy (personas st !! user_avatar st) = false → edit_descriptor f st = st.
Proof. intros Hn. unfold edit_descriptor. by rewrite Hn. Qed.

(** X14: for a persona that has a name, the description and the position
    typed into the panel become the current ones and are written through to
    its descriptor, whose other properties, connections included, are as
    they were; a persona without a descriptor gets one (the description
    handler makes it of the fields of the panel, without connections, the
    position handler of the current description, with an empty list of
    connections).  The other personas, the names, the default persona and
    the chat lock are untouched, the settings are saved, and the persona
    reads the edit back when it is selected again, also after another
    avatar was selected in between.  For an avatar that is no persona only
    the current description changes. *)
Theorem description_edits_are_stored (st : State) :
  (∀ n, personas st !! user_avatar st = Some n → n ≠ EmptyString →
     (∀ value dom_position dom_depth dom_role,
        persona_description
          (onPersonaDescriptionInput value dom_position dom_depth dom_role st)
        = value
        ∧ edited
            (with_description value
               (default
                  {| description := Some value;
                     position := Some dom_position;
                     depth := Some dom_depth; role := Some dom_role;
                     lorebook := Some EmptyString; connections := None |}
                  (Obj.get (user_avatar st) (persona_descriptions st))))
            st
            (onPersonaDescriptionInput value dom_position dom_depth dom_role
               st))
     ∧ (∀ value,
          persona_description_position
            (onPersonaDescriptionPositionInput value st) = value
          ∧ edited
              (with_position value
                 (default (current_descriptor st)
                    (Obj.get (user_avatar st) (persona_descriptions st))))
              st (onPersonaDescriptionPositionInput value st)))
  ∧ (truthy (personas st !! user_avatar st) = false →
     (∀ value dom_position dom_depth dom_role,
        persona_descriptions
          (onPersonaDescriptionInput value dom_position dom_depth dom_role st)
        = persona_descriptions st)
     ∧ (∀ value,
          persona_descriptions (onPersonaDescriptionPositionInput value st)
          = persona_descriptions st)).
Proof.
  split.
  - intros n Hn Hne. pose proof Hne as Ht. apply truthy_Some in Ht. split.
    + intros value dom_position dom_depth dom_role.
      unfold onPersonaDescriptionInput. simpl. rewrite Hn, Ht.
      split.
      { by destruct (Obj.get (user_avatar st) (persona_descriptions st)). }
      by apply (edited_intro _ st _ n Hn Hne).
    + intros value. unfold onPersonaDescriptionPositionInput.
      split.
      { simpl. unfold edit_descriptor, getOrCreatePersonaDescriptor. simpl.
        rewrite Hn, Ht.
        by destruct (Obj.get (user_avatar st) (persona_descriptions st)). }
      set (st1 := set_current_description _ _ _ _ _ st).
      replace (with_position value
                 (default (current_descriptor st)
                    (Obj.get (user_avatar st) (persona_descriptions st))))
        with (with_position (persona_description_position st1)
                (default (current_descriptor st1)
                   (Obj.get (user_avatar st) (persona_descriptions st))))
        by (by destruct (Obj.get (user_avatar st) (persona_descriptions st))).
      by apply (edit_descriptor_spec _ st1 st n).
  - intros Hn. split.
    + intros value dom_position dom_depth dom_role.
      unfold onPersonaDescriptionInput. simpl. by rewrite Hn.
    + intros value. unfold onPersonaDescriptionPositionInput. simpl.
      by rewrite edit_descriptor_unnamed.
Qed.

(** X15: the same for the depth, the role and the lorebook: for a persona
    that has a name the value entered becomes the current one and is
    written through to its descriptor, which is made of the current
    description with an empty list of connections if the persona has none;
    nothing else changes, the settings are saved, and the persona reads the
    edit back when it is selected again.  For an avatar that is no persona
    only the current description changes. *)
Theorem depth_role_lorebook_edits_are_stored (st : State) :
  (∀ n, personas st !! user_avatar st = Some n → n ≠ EmptyString →
     (∀ value,
        persona_description_depth
          (onPersonaDescriptionDepthValueInput value st) = value
        ∧ edited
            (with_depth value
               (default (current_descriptor st)
                  (Obj.get (user_avatar st) (persona_descriptions st))))
            st (onPersonaDescriptionDepthValueInput value st))
     ∧ (∀ value,
          persona_description_role
            (onPersonaDescriptionDepthRoleInput value st) = value
          ∧ edited
              (with_role value
                 (default (current_descriptor st)
                    (Obj.get (user_avatar st) (persona_descriptions st))))
              st (onPersonaDescriptionDepthRoleInput value st))
     ∧ (∀ value,
          persona_description_lorebook (onPersonaLorebookChange value st)
          = value
          ∧ edited
              (with_lorebook value
                 (default (current_descriptor st)
                    (Obj.get (user_avatar st) (persona_descriptions st))))
              st (onPersonaLorebookChange value st)))
  ∧ (truthy (personas st !! user_avatar st) = false →
     ∀ value name,
       persona_descriptions (onPersonaDescriptionDepthValueInput value st)
       = persona_descriptions st
       ∧ persona_descriptions (onPersonaDescriptionDepthRoleInput value st)
         = persona_descriptions st
       ∧ persona_descriptions (onPersonaLorebookChange name st)
         = persona_descriptions st).
Proof.
  split.
  - intros n Hn Hne. pose proof Hne as Ht. apply truthy_Some in Ht.
    split; [|split].
    + intros value. unfold onPersonaDescriptionDepthValueInput. split.
      { simpl. unfold edit_descriptor, getOrCreatePersonaDescriptor. simpl.
        rewrite Hn, Ht.
        by destruct (Obj.get (user_avatar st) (persona_descriptions st)). }
      set (st1 := set_current_description _ _ _ _ _ st).
      replace (with_depth value
                 (default (current_descriptor st)
                    (Obj.get (user_avatar st) (persona_descriptions st))))
        with (with_depth (persona_description_depth st1)
                (default (current_descriptor st1)
                   (Obj.get (user_avatar st) (persona_descriptions st))))
        by (by destruct (Obj.get (user_avatar st) (persona_descriptions st))).
      by apply (edit_descriptor_spec _ st1 st n).
    + intros value. unfold onPersonaDescriptionDepthRoleInput. split.
      { simpl. unfold edit_descriptor, getOrCreatePersonaDescriptor. simpl.
        rewrite Hn, Ht.
        by destruct (Obj.get (user_avatar st) (persona_descriptions st)). }
      set (st1 := set_current_description _ _ _ _ _ st).
      replace (with_role value
                 (default (current_descriptor st)
                    (Obj.get (user_avatar st) (persona_descriptions st))))
        with (with_role (persona_description_role st1)
                (default (current_descriptor st1)
                   (Obj.get (user_avatar st) (persona_descriptions st))))
        by (by destruct (Obj.get (user_avatar st) (persona_descriptions st))).
      by apply (edit_descriptor_spec _ st1 st n).
    + intros value. unfold onPersonaLorebookChange. split.
      { simpl. unfold edit_descriptor, getOrCreatePersonaDescriptor. simpl.
        rewrite Hn, Ht.
        by destruct (Obj.get (user_avatar st) (persona_descriptions st)). }
      set (st1 := set_current_description _ _ _ _ _ st).
      replace (with_lorebook value
                 (default (current_descriptor st)
                    (Obj.get (user_avatar st) (persona_descriptions st))))
        with (with_lorebook (persona_description_lorebook st1)
                (default (current_descriptor st1)
                   (Obj.get (user_avatar st) (persona_descriptions st))))
        by (by destruct (Obj.get (user_avatar st) (persona_descriptions st))).
      by apply (edit_descriptor_spec _ st1 st n).
  - intros Hn value name.
    unfold onPersonaDescriptionDepthValueInput,
      onPersonaDescriptionDepthRoleInput, onPersonaLorebookChange. simpl.
    by rewrite !edit_descriptor_unnamed.
Qed.

Example edit_depth_and_come_back :
  persona_description_depth
    (setUserAvatar "alice.png" true
       (setUserAvatar "bob.png" true
          (onPersonaDescriptionDepthValueInput 7 alice_described))) = 7%Z
  ∧ (Obj.get "alice.png"
       (persona_descriptions
          (onPersonaDescriptionDepthValueInput 7 alice_described))
     ≫= connections)
    = Some [mkConnection character "seraphina.png"].
Proof. split; reflexivity. Qed.

(** ** Operations that are refused or cancelled *)

(** X16: an operation that is refused, cancelled or fails changes nothing
    but the log of warnings and questions.  [toggleDefaultPersona] with no
    avatar id, with an avatar that is no persona, or with the confirmation
    declined; [deleteUserAvatar] with no avatar selected, with the
    confirmation declined, or when the server does not delete the file;
    [duplicatePersona] of an avatar that has no name, or declined;
    [bindUserNameToPersona] with no avatar selected, or cancelled;
    [createPersona] and [createDummyPersona] without a name; and
    [onPersonasRestoreInput] without a file or with one of the wrong
    format. *)
Theorem refused_operations_change_nothing (st : State) :
  (∀ avatarId quiet confirm,
     avatarId = EmptyString ∨ personas st !! avatarId = None
     ∨ (quiet = false ∧ confirm = false) →
     without_log (toggleDefaultPersona avatarId quiet confirm st)
     = without_log st)
  ∧ (∀ confirm request_ok userAvatars answer,
       user_avatar st = EmptyString ∨ confirm = false ∨ request_ok = false →
       without_log (deleteUserAvatar confirm request_ok userAvatars answer st)
       = without_log st)
  ∧ (∀ avatarId confirm now,
       truthy (personas st !! avatarId) = false ∨ confirm = false →
       without_log (duplicatePersona avatarId confirm now st)
       = without_log st)
  ∧ (∀ personaName personaUnbind,
       user_avatar st = EmptyString
       ∨ (personaName = None ∧ personaUnbind = false) →
       without_log (bindUserNameToPersona personaName personaUnbind st)
       = without_log st)
  ∧ (∀ avatarId personaName personaDescription now,
       truthy personaName = false →
       createPersona avatarId personaName personaDescription st = st
       ∧ createDummyPersona personaName now st = st)
  ∧ (∀ avatarsList,
       onPersonasRestoreInput avatarsList no_file st = st
       ∧ without_log (onPersonasRestoreInput avatarsList invalid_file st)
         = without_log st
       ∧ without_log (onPersonasRestoreInput avatarsList invalid_format st)
         = without_log st).
Proof.
  split.
  { intros avatarId quiet confirm Hrefused. unfold toggleDefaultPersona.
    destruct (truthy (Some avatarId)) eqn:Ht; simpl; [|done].
    destruct (personas st !! avatarId) as [n|] eqn:Hn; [|done].
    destruct Hrefused as [->|[?|[-> ->]]]; [done..|].
    unfold when. simpl. by case_bool_decide. }
  split.
  { intros confirm request_ok userAvatars answer Hrefused.
    unfold deleteUserAvatar.
    destruct (truthy (Some (user_avatar st))) eqn:Ht; simpl; [|done].
    destruct Hrefused as [Hua|[->| ->]].
    - rewrite Hua in Ht. done.
    - done.
    - by destruct confirm. }
  split.
  { intros avatarId confirm now Hrefused. unfold duplicatePersona.
    destruct (truthy (personas st !! avatarId)) eqn:Ht; simpl; [|done].
    destruct Hrefused as [?| ->]; done. }
  split.
  { intros personaName personaUnbind Hrefused. unfold bindUserNameToPersona.
    destruct (truthy (Some (user_avatar st))) eqn:Ht; simpl; [|done].
    destruct Hrefused as [Hua|[-> ->]]; [|done].
    rewrite Hua in Ht. done. }
  split.
  { intros avatarId personaName personaDescription now Hn.
    unfold createPersona, createDummyPersona. by rewrite Hn. }
  done.
Qed.

(** ** Creating a persona *)

Lemma initPersona_spec avatarId personaName personaDescription st :
  personas (initPersona avatarId personaName personaDescription st)
  = <[avatarId := personaName]> (personas st)
  ∧ persona_descriptions
      (initPersona avatarId personaName personaDescription st)
    = Obj.set avatarId
        (new_descriptor
           (nullish (js_or personaDescription (Some EmptyString)) EmptyString))
        (persona_descriptions st)
  ∧ default_persona (initPersona avatarId personaName personaDescription st)
    = default_persona st
  ∧ chat_metadata_persona
      (initPersona avatarId personaName personaDescription st)
    = chat_metadata_persona st
  ∧ user_avatar (initPersona avatarId personaName personaDescription st)
    = user_avatar st
  ∧ saveSettingsDebounced
    ∈ log (initPersona avatarId personaName personaDescription st).
Proof. unfold initPersona. simpl. repeat split. in_log. Qed.

Lemma new_avatar_id_not_empty now personaName :
  new_avatar_id now personaName ≠ EmptyString.
Proof.
  unfold new_avatar_id. destruct (pretty now) as [|a s]; simpl; discriminate.
Qed.

(** What [createPersona] and [createDummyPersona] leave behind. *)
Lemma created_intro avatarId n text st st' :
  n ≠ EmptyString →
  personas st' = <[avatarId := n]> (personas st) →
  persona_descriptions st'
  = Obj.set avatarId (new_descriptor text) (persona_descriptions st) →
  default_persona st' = default_persona st →
  chat_metadata_persona st' = chat_metadata_persona st →
  personas st' !! avatarId = Some n
  ∧ Obj.get avatarId (persona_descriptions st') = Some (new_descriptor text)
  ∧ (∀ c, ¬ holds st' avatarId c)
  ∧ (∀ k, k ≠ avatarId →
       personas st' !! k = personas st !! k
       ∧ Obj.get k (persona_descriptions st')
         = Obj.get k (persona_descriptions st))
  ∧ default_persona st' = default_persona st
  ∧ chat_metadata_persona st' = chat_metadata_persona st
  ∧ (∀ toast,
       user_avatar (setUserAvatar avatarId toast st') = avatarId
       ∧ name1 (setUserAvatar avatarId toast st') = n
       ∧ persona_description (setUserAvatar avatarId toast st') = text
       ∧ persona_description_position (setUserAvatar avatarId toast st')
         = IN_PROMPT
       ∧ persona_description_depth (setUserAvatar avatarId toast st')
         = DEFAULT_DEPTH
       ∧ persona_description_role (setUserAvatar avatarId toast st')
         = DEFAULT_ROLE
       ∧ persona_description_lorebook (setUserAvatar avatarId toast st')
         = EmptyString).
Proof.
  intros Hne Hp Hd Hdef Hchat.
  assert (personas st' !! avatarId = Some n) as Hn
    by (rewrite Hp; apply lookup_insert_eq).
  assert (Obj.get avatarId (persona_descriptions st')
          = Some (new_descriptor text)) as Hget
    by (rewrite Hd; apply obj_get_set_eq).
  split; [done|]. split; [done|].
  split.
  { intros c (d & cs & Hd' & Hcs & _). rewrite Hget in Hd'. by simplify_eq. }
  split.
  { intros k Hk. rewrite Hp, Hd.
    rewrite lookup_insert_ne by done. by rewrite obj_get_set_ne. }
  split; [done|]. split; [done|].
  intros toast. unfold setUserAvatar.
  destruct (selectCurrentPersona_named toast (set_user_avatar avatarId st') n)
    as (Hua & Hname & _ & _ & _ & Hload & _); [done..|].
  simpl in Hload. rewrite Hget in Hload.
  destruct Hload as (H1 & H2 & H3 & H4 & H5). simpl in *. done.
Qed.

(** X17: [createPersona] with a name makes the avatar (whose id is not
    empty) a persona of that name whose descriptor holds the description entered (the empty string
    if the second pop-up is cancelled), the defaults for position, depth
    and role, no lorebook, and no connections: a descriptor the avatar had
    is replaced, and the avatar holds no connection afterwards.  The other
    personas, the default persona and the chat lock are untouched.
    Selecting the avatar then makes the name the user name and the
    description the current one.  [createDummyPersona] does the same under
    an avatar id made of the clock and the name, with an empty description,
    and uploads the default avatar under that id. *)
Theorem created_persona_is_selectable (st : State) (n : string) :
  n ≠ EmptyString →
  (∀ avatarId personaDescription,
     avatarId ≠ EmptyString →
     let text :=
       nullish (js_or personaDescription (Some EmptyString)) EmptyString in
     let st' := createPersona avatarId (Some n) personaDescription st in
     personas st' !! avatarId = Some n
     ∧ Obj.get avatarId (persona_descriptions st') = Some (new_descriptor text)
     ∧ (∀ c, ¬ holds st' avatarId c)
     ∧ (∀ k, k ≠ avatarId →
          personas st' !! k = personas st !! k
          ∧ Obj.get k (persona_descriptions st')
            = Obj.get k (persona_descriptions st))
     ∧ default_persona st' = default_persona st
     ∧ chat_metadata_persona st' = chat_metadata_persona st
     ∧ (∀ toast,
          user_avatar (setUserAvatar avatarId toast st') = avatarId
          ∧ name1 (setUserAvatar avatarId toast st') = n
          ∧ persona_description (setUserAvatar avatarId toast st') = text
          ∧ persona_description_position (setUserAvatar avatarId toast st')
            = IN_PROMPT
          ∧ persona_description_depth (setUserAvatar avatarId toast st')
            = DEFAULT_DEPTH
          ∧ persona_description_role (setUserAvatar avatarId toast st')
            = DEFAULT_ROLE
          ∧ persona_description_lorebook (setUserAvatar avatarId toast st')
            = EmptyString))
  ∧ (∀ now,
       let avatarId := new_avatar_id now n in
       let st' := createDummyPersona (Some n) now st in
       personas st' !! avatarId = Some n
       ∧ Obj.get avatarId (persona_descriptions st')
         = Some (new_descriptor EmptyString)
       ∧ uploadUserAvatar default_user_avatar avatarId ∈ log st'
       ∧ avatarId ≠ EmptyString
       ∧ (∀ toast, name1 (setUserAvatar avatarId toast st') = n)).
Proof.
  intros Hne. pose proof Hne as Ht. apply truthy_Some in Ht. split.
  - intros avatarId personaDescription _ text st'. subst st'.
    unfold createPersona. rewrite Ht. cbn [negb nullish].
    destruct (initPersona_spec avatarId n personaDescription st)
      as (Hp & Hd & Hdef & Hchat & _).
    apply (created_intro avatarId n text st); try done;
      unfold when; by case_match.
  - intros now avatarId st'. subst st'.
    unfold createDummyPersona. rewrite Ht. cbn [negb nullish]. fold avatarId.
    destruct (initPersona_spec avatarId n (Some EmptyString) st)
      as (Hp & Hd & Hdef & Hchat & _).
    destruct (created_intro avatarId n EmptyString st
                (emit (uploadUserAvatar default_user_avatar avatarId)
                   (initPersona avatarId n (Some EmptyString) st)))
      as (H1 & H2 & _ & _ & _ & _ & Hsel); try done.
    split; [done|]. split; [done|]. split; [in_log|].
    split; [apply new_avatar_id_not_empty|].
    intros toast. apply Hsel.
Qed.

Lemma created_persona_is_selectable_witness :
  personas (createPersona "new.png" (Some "Nova") None unbound_avatar)
    !! "new.png" = Some "Nova"
  ∧ name1 (setUserAvatar "new.png" true
             (createPersona "new.png" (Some "Nova") None unbound_avatar))
    = "Nova".
Proof.
  destruct (created_persona_is_selectable unbound_avatar "Nova")
    as [Hcreate _]; [discriminate|].
  destruct (Hcreate "new.png" None) as (Hp & _ & _ & _ & _ & _ & Hsel);
    [discriminate|].
  split; [exact Hp|]. apply (Hsel true).
Defined.

(** ** Locks and the resolver *)

Lemma lockPersona_chat st :
  ∃ st', lockPersona (Some "chat") st = Ok () st'
         ∧ chat_metadata_persona st' = Some (user_avatar st)
         ∧ saveMetadataDebounced ∈ log st'.
Proof.
  unfold lockPersona, lock_switch. simpl.
  destruct (lock_ensure_persona_frame st) as (Hua & _).
  unfold when.
  destruct (persona_show_notifications (lock_ensure_persona st)); simpl;
    eexists; (split; [reflexivity|]); simpl; rewrite Hua; split;
    try done; in_log.
Qed.

Lemma toggleDefaultPersona_sets avatarId quiet st :
  avatarId ≠ EmptyString → is_Some (personas st !! avatarId) →
  default_persona st ≠ Some avatarId →
  default_persona (toggleDefaultPersona avatarId quiet true st)
  = Some avatarId
  ∧ persona_descriptions (toggleDefaultPersona avatarId quiet true st)
    = persona_descriptions st
  ∧ chat_metadata_persona (toggleDefaultPersona avatarId quiet true st)
    = chat_metadata_persona st
  ∧ selected_group (toggleDefaultPersona avatarId quiet true st)
    = selected_group st
  ∧ this_chid_avatar (toggleDefaultPersona avatarId quiet true st)
    = this_chid_avatar st
  ∧ saveSettingsDebounced
    ∈ log (toggleDefaultPersona avatarId quiet true st).
Proof.
  intros Hne [n Hn] Hdef. apply truthy_Some in Hne.
  unfold toggleDefaultPersona. rewrite Hne, Hn. simpl.
  rewrite bool_decide_eq_false_2 by congruence.
  rewrite andb_false_r. unfold when.
  destruct quiet; simpl; case_match; simpl; repeat split; in_log.
Qed.

(** X18: the locks the user sets are the ones the resolver honours.  After
    [lockPersona('chat')], and after the selection of a persona while the
    automatic lock is set, the chat is locked to the persona: when the chat
    is opened again, whatever avatar is selected by then,
    [loadPersonaForCurrentChat] selects the persona from the chat lock,
    provided its avatar is on the server.  After [toggleDefaultPersona]
    has made a persona the default, it is selected in every chat that has
    no usable chat lock and no persona connected to its character. *)
Theorem locks_are_honoured (userAvatars : list string)
    (answer : PopupAnswer) (st : State) :
  (user_avatar st ≠ EmptyString → user_avatar st ∈ userAvatars →
   ∃ st', lockPersona (Some "chat") st = Ok () st'
          ∧ chat_metadata_persona st' = Some (user_avatar st)
          ∧ ∀ other,
              (lpc_resolve userAvatars answer (set_user_avatar other st')).1
              = (Some (user_avatar st), Some lock_chat)
              ∧ user_avatar
                  (loadPersonaForCurrentChat userAvatars answer
                     (set_user_avatar other st'))
                = user_avatar st)
  ∧ (∀ imgfile n toast,
       personas st !! imgfile = Some n → n ≠ EmptyString →
       imgfile ≠ EmptyString → imgfile ∈ userAvatars →
       persona_auto_lock st = true →
       chat_metadata_persona (setUserAvatar imgfile toast st) = Some imgfile
       ∧ ∀ other,
           (lpc_resolve userAvatars answer
              (set_user_avatar other (setUserAvatar imgfile toast st))).1
           = (Some imgfile, Some lock_chat)
           ∧ user_avatar
               (loadPersonaForCurrentChat userAvatars answer
                  (set_user_avatar other (setUserAvatar imgfile toast st)))
             = imgfile)
  ∧ (∀ avatarId quiet,
       avatarId ≠ EmptyString → is_Some (personas st !! avatarId) →
       default_persona st ≠ Some avatarId →
       truthy (chat_metadata_persona st) = false
       ∨ includes userAvatars (chat_metadata_persona st) = false →
       getConnectedPersonas None st = [] →
       default_persona (toggleDefaultPersona avatarId quiet true st)
       = Some avatarId
       ∧ ∀ other,
           (lpc_resolve userAvatars answer
              (set_user_avatar other
                 (toggleDefaultPersona avatarId quiet true st))).1
           = (Some avatarId, Some lock_default)
           ∧ user_avatar
               (loadPersonaForCurrentChat userAvatars answer
                  (set_user_avatar other
                     (toggleDefaultPersona avatarId quiet true st)))
             = avatarId).
Proof.
  split; [|split].
  - intros Hne Hin. destruct (lockPersona_chat st) as (st' & Hok & Hchat & _).
    exists st'. split; [done|]. split; [done|]. intros other.
    destruct (resolver_precedence userAvatars answer
                (set_user_avatar other st')) as [Hlock _].
    by apply (Hlock (user_avatar st)).
  - intros imgfile n toast Hn Hname Hne Hin Hauto.
    assert (chat_metadata_persona (setUserAvatar imgfile toast st)
            = Some imgfile) as Hchat.
    { unfold setUserAvatar.
      destruct (selectCurrentPersona_named toast
                  (set_user_avatar imgfile st) n Hn Hname)
        as (_ & _ & _ & _ & _ & _ & Hchat).
      simpl in *. by rewrite Hauto in Hchat. }
    split; [done|]. intros other.
    destruct (resolver_precedence userAvatars answer
                (set_user_avatar other (setUserAvatar imgfile toast st)))
      as [Hlock _].
    by apply (Hlock imgfile).
  - intros avatarId quiet Hne Hsome Hdef Hlock Hnone.
    destruct (toggleDefaultPersona_sets avatarId quiet st Hne Hsome Hdef)
      as (Hd & Hdescs & Hchat & Hg & Ha & _).
    split; [done|]. intros other.
    set (st' := toggleDefaultPersona avatarId quiet true st) in *.
    destruct (resolver_precedence userAvatars answer
                (set_user_avatar other st')) as [_ Hrest].
    destruct Hrest as [Hdefault _].
    + simpl. by rewrite Hchat.
    + rewrite <- Hnone.
      by apply getConnectedPersonas_ext.
    + by apply (Hdefault avatarId).
Qed.

Lemma locks_are_honoured_witness :
  ∃ st', lockPersona (Some "chat") alice_and_bob = Ok () st'
         ∧ user_avatar
             (loadPersonaForCurrentChat ["alice.png"; "bob.png"] popup_none
                (set_user_avatar "bob.png" st')) = "alice.png".
Proof.
  destruct (locks_are_honoured ["alice.png"; "bob.png"] popup_none
              alice_and_bob) as [Hchat _].
  destruct Hchat as (st' & Hok & _ & Hload).
  - discriminate.
  - apply list_elem_of_here.
  - exists st'. split; [exact Hok|]. apply (Hload "bob.png").
Defined.

(** ** The messages of the chat *)

(** X19: [syncUserNameToPersona], when confirmed, attributes every message
    of the user to the current user name and to the selected avatar, whose
    image path it gives them, and leaves every other message as it is; the
    chat keeps its length and its order, and a second run changes nothing.
    When the confirmation is declined the chat is not touched. *)
Theorem sync_attributes_user_messages (st : State) (chat : list Message) :
  syncUserNameToPersona false st chat = chat
  ∧ length (syncUserNameToPersona true st chat) = length chat
  ∧ (∀ i mes, chat !! i = Some mes →
       syncUserNameToPersona true st chat !! i
       = Some (if is_user mes
               then {| is_user := true; mes_name := name1 st;
                       force_avatar :=
                         Some (USER_AVATAR_PATH +:+ user_avatar st) |}
               else mes))
  ∧ syncUserNameToPersona true st (syncUserNameToPersona true st chat)
    = syncUserNameToPersona true st chat.
Proof.
  unfold syncUserNameToPersona. simpl.
  split; [done|]. split; [apply length_map|]. split.
  - intros i mes Hi. rewrite list_lookup_fmap, Hi. simpl.
    by destruct (is_user mes) eqn:Hu; [rewrite <- Hu|].
  - rewrite List.map_map. apply List.map_ext. intros mes.
    by destruct (is_user mes) eqn:Hu; simpl; [|rewrite Hu].
Qed.

(** ** Operations that add no connection *)

Lemma no_new_connections_same st st' :
  persona_descriptions st' = persona_descriptions st →
  no_new_connections st st'.
Proof. intros Hd k c. unfold holds. by rewrite Hd. Qed.

Lemma no_new_connections_trans st1 st2 st3 :
  no_new_connections st1 st2 → no_new_connections st2 st3 →
  no_new_connections st1 st3.
Proof. unfold no_new_connections. eauto. Qed.

Lemma no_new_connections_set a d' st st' :
  persona_descriptions st' = Obj.set a d' (persona_descriptions st) →
  (∀ cs c, connections d' = Some cs → c ∈ cs → holds st a c) →
  no_new_connections st st'.
Proof.
  intros Hd Hsub k c (d & cs & Hget & Hcs & Hin). rewrite Hd in Hget.
  destruct (decide (k = a)) as [->|Hk].
  - rewrite obj_get_set_eq in Hget. simplify_eq. by apply (Hsub cs).
  - rewrite obj_get_set_ne in Hget by done. by exists d, cs.
Qed.

Lemma no_new_connections_del a st st' :
  persona_descriptions st' = Obj.del a (persona_descriptions st) →
  no_new_connections st st'.
Proof.
  intros Hd k c (d & cs & Hget & Hcs & Hin). rewrite Hd in Hget.
  destruct (decide (k = a)) as [->|Hk].
  - by rewrite obj_get_del_eq in Hget.
  - rewrite obj_get_del_ne in Hget by done. by exists d, cs.
Qed.

Lemma no_new_connections_exclusive st st' :
  no_new_connections st st' → exclusive st → exclusive st'.
Proof. intros Hnn Hex c k1 k2 H1 H2. apply (Hex c); by apply Hnn. Qed.

Lemma remove_all_connections_no_new c st :
  no_new_connections st (remove_all_connections c st).
Proof.
  intros k c' Hh.
  apply (holds_without_connection st (remove_all_connections c st) c)
    in Hh as [Hh _]; [done|].
  intros k'. rewrite remove_all_connections_descriptions.
  pose proof (obj_get_map (λ (_ : string) (d : PersonaDescriptor),
                             without_connection c d) k'
                (persona_descriptions st)) as Hmap.
  exact Hmap.
Qed.

Lemma unlockPersona_no_new type st :
  no_new_connections st (result_state (unlockPersona type st)).
Proof.
  unfold unlockPersona.
  destruct (lock_type_of _) as [[| |]|]; simpl;
    try (by apply no_new_connections_same).
  - apply no_new_connections_same. unfold when.
    by repeat (case_match; simpl).
  - destruct (Obj.get (user_avatar st) (persona_descriptions st))
      as [d|] eqn:Hd; [|by apply no_new_connections_same].
    destruct (connections d) as [cs|] eqn:Hcs;
      [|by apply no_new_connections_same].
    apply (no_new_connections_set (user_avatar st)
             (with_connections (without_current st cs) d)).
    + unfold when. by case_match.
    + simpl. intros cs' c [= <-] Hin.
      apply elem_of_List_filter in Hin as [Hin _]. by exists d, cs.
  - apply no_new_connections_same. apply toggleDefaultPersona_frame.
Qed.

Lemma setUserAvatar_descriptions imgfile toast st :
  persona_descriptions (setUserAvatar imgfile toast st)
  = persona_descriptions st
  ∨ persona_descriptions (setUserAvatar imgfile toast st)
    = Obj.set imgfile empty_descriptor (persona_descriptions st).
Proof.
  unfold setUserAvatar. simpl.
  destruct (truthy (personas st !! imgfile)) eqn:Hn.
  - apply truthy_is_Some in Hn as (n & Hn & Hne).
    destruct (selectCurrentPersona_named toast (set_user_avatar imgfile st) n
                Hn Hne) as (_ & _ & _ & _ & -> & _).
    simpl. destruct (Obj.get imgfile (persona_descriptions st)); auto.
  - rewrite selectCurrentPersona_unnamed by done. by left.
Qed.

Lemma setUserAvatar_no_new imgfile toast st :
  no_new_connections st (setUserAvatar imgfile toast st).
Proof.
  destruct (setUserAvatar_descriptions imgfile toast st) as [Hd|Hd].
  - by apply no_new_connections_same.
  - apply (no_new_connections_set imgfile empty_descriptor _ _ Hd).
    simpl. intros cs c [= <-] Hin. by apply elem_of_nil in Hin.
Qed.

Lemma lpc_resolve_no_new userAvatars answer st :
  no_new_connections st (lpc_resolve userAvatars answer st).2.
Proof.
  unfold lpc_resolve.
  assert (no_new_connections st (lpc_chat_lock userAvatars st).2) as H1.
  { apply no_new_connections_same. unfold lpc_chat_lock.
    by repeat (case_match; simpl). }
  assert (∀ r, no_new_connections r.2 (lpc_connection answer r).2) as H2.
  { intros [[chatPersona connectType] st1]. simpl. unfold lpc_connection.
    case_match; [|by apply no_new_connections_same].
    destruct (getConnectedPersonas None st1) as [|p [|q rest]]; simpl;
      try (by apply no_new_connections_same).
    destruct (persona_allow_multi_connections st1); simpl;
      [|by apply no_new_connections_same].
    unfold askForPersonaSelection.
    destruct answer, (getCurrentConnectionObj st1); simpl;
      try (by apply no_new_connections_same).
    apply (no_new_connections_trans _ (emit (popup_show (p :: q :: rest)) st1));
      [by apply no_new_connections_same|].
    apply remove_all_connections_no_new. }
  specialize (H2 (lpc_chat_lock userAvatars st)).
  assert (∀ r, (lpc_default r).2 = r.2) as H3.
  { intros [[chatPersona connectType] st1]. unfold lpc_default.
    by case_match. }
  specialize (H3 (lpc_connection answer (lpc_chat_lock userAvatars st))).
  destruct (lpc_default _) as [[chatPersona connectType] st3]. simpl in *.
  subst st3.
  apply (no_new_connections_trans _ _ _ H1).
  apply (no_new_connections_trans _ _ _ H2).
  apply no_new_connections_same. unfold lpc_missing, when.
  by repeat (case_match; simpl).
Qed.

Lemma loadPersonaForCurrentChat_no_new userAvatars answer st :
  no_new_connections st (loadPersonaForCurrentChat userAvatars answer st).
Proof.
  unfold loadPersonaForCurrentChat.
  pose proof (lpc_resolve_no_new userAvatars answer st) as Hr.
  destruct (lpc_resolve userAvatars answer st)
    as [[chatPersona connectType] st1]. simpl in Hr.
  apply (no_new_connections_trans _ _ _ Hr).
  unfold lpc_select. case_match; [|by apply no_new_connections_same].
  apply (no_new_connections_trans _
           (setUserAvatar (nullish chatPersona EmptyString) false st1));
    [apply setUserAvatar_no_new|].
  apply no_new_connections_same. unfold when. by case_match.
Qed.

Lemma deleteUserAvatar_no_new confirm request_ok userAvatars answer st :
  no_new_connections st
    (deleteUserAvatar confirm request_ok userAvatars answer st).
Proof.
  unfold deleteUserAvatar.
  case_match; simpl; [by apply no_new_connections_same|].
  destruct confirm; simpl; [|by apply no_new_connections_same].
  destruct request_ok; [|by apply no_new_connections_same].
  eapply no_new_connections_trans; [|apply loadPersonaForCurrentChat_no_new].
  apply (no_new_connections_del (user_avatar st)).
  unfold delete_entries, when. simpl. by repeat (case_match; simpl).
Qed.

(** X20: unlocking, selecting, resolving and deleting give no persona a
    connection it did not hold: after [unlockPersona] (of any type),
    [toggleDefaultPersona], [setUserAvatar], [loadPersonaForCurrentChat]
    (whatever the user answers to its pop-up) and [deleteUserAvatar], every
    connection a persona holds is one it held before.  So these operations
    keep the connections exclusive if they were. *)
Theorem unlocking_and_selecting_add_no_connection (st : State) :
  (∀ type, no_new_connections st (result_state (unlockPersona type st)))
  ∧ (∀ avatarId quiet confirm,
       no_new_connections st (toggleDefaultPersona avatarId quiet confirm st))
  ∧ (∀ imgfile toast,
       imgfile ≠ EmptyString →
       no_new_connections st (setUserAvatar imgfile toast st))
  ∧ (∀ userAvatars answer,
       no_new_connections st
         (loadPersonaForCurrentChat userAvatars answer st))
  ∧ (∀ confirm request_ok userAvatars answer,
       no_new_connections st
         (deleteUserAvatar confirm request_ok userAvatars answer st))
  ∧ (∀ st', no_new_connections st st' → exclusive st → exclusive st').
Proof.
  split; [intros; apply unlockPersona_no_new|].
  split.
  { intros. apply no_new_connections_same, toggleDefaultPersona_frame. }
  split; [intros; apply setUserAvatar_no_new|].
  split; [intros; apply loadPersonaForCurrentChat_no_new|].
  split; [intros; apply deleteUserAvatar_no_new|].
  intros st'. apply no_new_connections_exclusive.
Qed.

Lemma initPersona_no_new avatarId personaName personaDescription st :
  no_new_connections st
    (initPersona avatarId personaName personaDescription st).
Proof.
  apply (no_new_connections_set avatarId
           (new_descriptor
              (nullish (js_or personaDescription (Some EmptyString))
                 EmptyString))); [done|].
  simpl. by intros cs c [=].
Qed.

Lemma updatePersonaNameIfExists_no_new avatarId newName st :
  no_new_connections st (updatePersonaNameIfExists avatarId newName st).
Proof.
  unfold updatePersonaNameIfExists.
  case_bool_decide; simpl; [by apply no_new_connections_same|].
  apply (no_new_connections_set avatarId (new_descriptor EmptyString));
    [done|].
  simpl. by intros cs c [=].
Qed.

Lemma edit_descriptor_no_new f st :
  (∀ d, connections (f d) = connections d) →
  no_new_connections st (edit_descriptor f st).
Proof.
  intros Hf. unfold edit_descriptor, getOrCreatePersonaDescriptor.
  case_match; [|by apply no_new_connections_same].
  destruct (Obj.get (user_avatar st) (persona_descriptions st))
    as [d|] eqn:Hd; simpl.
  - apply (no_new_connections_set (user_avatar st) (f d)); [done|].
    rewrite Hf. intros cs c Hcs Hin. by exists d, cs.
  - apply (no_new_connections_set (user_avatar st) (f (current_descriptor st))).
    + simpl. apply obj_set_set.
    + rewrite Hf. simpl. intros cs c [= <-] Hin. by apply elem_of_nil in Hin.
Qed.

(** X21: creating, duplicating, renaming, binding and unbinding give no
    persona a connection it did not hold, and so keep the connections
    exclusive if they were: the descriptors they write have no connections,
    and the one [bindUserNameToPersona] keeps is the persona's own. *)
Theorem creating_and_naming_add_no_connection (st : State) :
  (∀ avatarId personaName personaDescription,
     no_new_connections st
       (createPersona avatarId personaName personaDescription st))
  ∧ (∀ personaName now,
       no_new_connections st (createDummyPersona personaName now st))
  ∧ (∀ avatarId confirm now,
       no_new_connections st (duplicatePersona avatarId confirm now st))
  ∧ (∀ userName, no_new_connections st (persona_rename_button userName st))
  ∧ (∀ personaName personaUnbind,
       no_new_connections st
         (bindUserNameToPersona personaName personaUnbind st))
  ∧ (∀ st', no_new_connections st st' → exclusive st → exclusive st').
Proof.
  split.
  { intros avatarId personaName personaDescription. unfold createPersona.
    case_match; [by apply no_new_connections_same|].
    eapply no_new_connections_trans; [apply initPersona_no_new|].
    apply no_new_connections_same. unfold when. by case_match. }
  split.
  { intros personaName now. unfold createDummyPersona.
    case_match; [by apply no_new_connections_same|].
    eapply no_new_connections_trans; [apply initPersona_no_new|].
    by apply no_new_connections_same. }
  split.
  { intros avatarId confirm now. unfold duplicatePersona.
    case_match; simpl; [by apply no_new_connections_same|].
    destruct confirm; simpl; [|by apply no_new_connections_same].
    eapply (no_new_connections_set
              (new_avatar_id now (nullish (personas st !! avatarId) EmptyString)));
      [done|].
    simpl. by intros cs c [=]. }
  split.
  { intros userName. unfold persona_rename_button.
    eapply no_new_connections_trans;
      [|apply updatePersonaNameIfExists_no_new].
    by apply no_new_connections_same. }
  split.
  { intros personaName personaUnbind. unfold bindUserNameToPersona.
    case_match; [by apply no_new_connections_same|].
    case_match; [by apply no_new_connections_same|].
    assert (∀ st1, no_new_connections st st1 →
                   no_new_connections st
                     (setPersonaDescription (emit saveSettingsDebounced st1)))
      as Hend.
    { intros st1 Hst1. eapply no_new_connections_trans; [exact Hst1|].
      apply no_new_connections_same. unfold setPersonaDescription, when.
      by case_match. }
    apply Hend. case_match.
    - eapply no_new_connections_trans;
        [|apply updatePersonaNameIfExists_no_new].
      simpl.
      destruct (Obj.get (user_avatar st) (persona_descriptions st)) eqn:Hd;
        [by apply no_new_connections_same|].
      eapply (no_new_connections_set (user_avatar st)); [done|].
      simpl. by intros cs c [=].
    - by apply (no_new_connections_del (user_avatar st)). }
  intros st'. apply no_new_connections_exclusive.
Qed.

(** X22: the handlers of the description panel give no persona a
    connection it did not hold, whatever is selected: they keep the
    connections of the descriptor they edit, and the descriptor they make
    for a persona that has none has no connection. *)
Theorem editing_adds_no_connection (st : State) :
  (∀ value dom_position dom_depth dom_role,
     no_new_connections st
       (onPersonaDescriptionInput value dom_position dom_depth dom_role st))
  ∧ (∀ value,
       no_new_connections st (onPersonaDescriptionPositionInput value st))
  ∧ (∀ value,
       no_new_connections st (onPersonaDescriptionDepthValueInput value st))
  ∧ (∀ value,
       no_new_connections st (onPersonaDescriptionDepthRoleInput value st))
  ∧ (∀ value, no_new_connections st (onPersonaLorebookChange value st)).
Proof.
  assert (∀ f st1,
            persona_descriptions st1 = persona_descriptions st →
            (∀ d, connections (f d) = connections d) →
            no_new_connections st
              (emit saveSettingsDebounced (edit_descriptor f st1))) as Hedit.
  { intros f st1 Hd Hf.
    apply (no_new_connections_trans _ st1);
      [by apply no_new_connections_same|].
    apply (no_new_connections_trans _ (edit_descriptor f st1));
      [by apply edit_descriptor_no_new|].
    by apply no_new_connections_same. }
  split.
  { intros value dom_position dom_depth dom_role.
    unfold onPersonaDescriptionInput. simpl.
    case_match; [|by apply no_new_connections_same].
    destruct (Obj.get (user_avatar st) (persona_descriptions st))
      as [d|] eqn:Hd.
    - apply (no_new_connections_set (user_avatar st)
               (with_description value d)); [done|].
      simpl. intros cs c Hcs Hin. by exists d, cs.
    - eapply (no_new_connections_set (user_avatar st)); [done|].
      simpl. by intros cs c [=]. }
  split; [intros; by apply Hedit|]. split; [intros; by apply Hedit|].
  split; intros; by apply Hedit.
Qed.

(** ** What a restore adds *)

Lemma restore_personas_adds avatarsList es st warnings k :
  personas (restore_personas avatarsList es st warnings).1 !! k
  = match personas st !! k with
    | Some v => Some v
    | None => Obj.get k es
    end.
Proof.
  revert st warnings. induction es as [|[key value] es IH]; intros st warnings.
  { simpl. by destruct (personas st !! k). }
  simpl. case_bool_decide as Hhas.
  - rewrite IH. destruct (personas st !! k) as [v|] eqn:Hk; [done|].
    rewrite decide_False; [done|]. intros ->. rewrite Hk in Hhas.
    by destruct Hhas.
  - assert (personas st !! key = None) as Hnone
      by (by apply eq_None_not_Some).
    assert (∀ st1 ws, personas st1 = <[key := value]> (personas st) →
              personas (restore_personas avatarsList es st1 ws).1 !! k
              = match personas st !! k with
                | Some v => Some v
                | None => if decide (k = key) then Some value
                          else Obj.get k es
                end) as Hstep.
    { intros st1 ws Hp. rewrite IH, Hp.
      destruct (decide (k = key)) as [->|Hk].
      - by rewrite lookup_insert_eq, Hnone.
      - by rewrite lookup_insert_ne. }
    destruct (negb _); by apply Hstep.
Qed.

Lemma restore_personas_uploads avatarsList es st warnings :
  log st `prefix_of` log (restore_personas avatarsList es st warnings).1
  ∧ (∀ k, is_Some (Obj.get k es) → personas st !! k = None →
       includes avatarsList (Some k) = false →
       uploadUserAvatar default_user_avatar k
       ∈ log (restore_personas avatarsList es st warnings).1).
Proof.
  revert st warnings. induction es as [|[key value] es IH]; intros st warnings.
  { simpl. split; [done|]. by intros k [v Hv]. }
  simpl. case_bool_decide as Hhas.
  - destruct (IH st (warnings ++ [persona_already_exists key value]))
      as [Hpre Hup].
    split; [done|]. intros k Hk Hnone Hmiss. apply Hup; [|done..].
    case_decide as Hkey; [|done]. subst k. rewrite Hnone in Hhas.
    by destruct Hhas.
  - destruct (negb (bool_decide (key ∈ avatarsList))) eqn:Hinc.
    + destruct (IH (emit (uploadUserAvatar default_user_avatar key)
                      (set_personas (insert key value) st))
                  (warnings ++ [persona_image_missing key value]))
        as [Hpre Hup].
      simpl in Hpre. split; [by etrans; [apply prefix_app_r|exact Hpre]|].
      intros k Hk Hnone Hmiss. case_decide as Hkey.
      * subst k. eapply elem_of_prefix; [|exact Hpre].
        apply elem_of_app. right. apply list_elem_of_here.
      * apply Hup; [done| |done]. simpl. by rewrite lookup_insert_ne.
    + destruct (IH (set_personas (insert key value) st) warnings)
        as [Hpre Hup].
      split; [done|].
      intros k Hk Hnone Hmiss. case_decide as Hkey.
      * subst k. apply negb_false_iff in Hinc. simpl in Hmiss. congruence.
      * apply Hup; [done| |done]. simpl. by rewrite lookup_insert_ne.
Qed.

Lemma restore_descriptions_adds es st warnings k :
  Obj.get k (persona_descriptions (restore_descriptions es st warnings).1)
  = match Obj.get k (persona_descriptions st) with
    | Some d => Some d
    | None => if truthy (personas st !! k) then Obj.get k es else None
    end
  ∧ log (restore_descriptions es st warnings).1 = log st.
Proof.
  revert st warnings. induction es as [|[key value] es IH]; intros st warnings.
  { simpl. split; [|done].
    destruct (Obj.get k (persona_descriptions st)); [done|]. by case_match. }
  simpl. destruct (Obj.has key (persona_descriptions st)) eqn:Hhas.
  - destruct (IH st (warnings
                     ++ [description_already_exists key (personas st !! key)]))
      as [-> ->].
    split; [|done].
    destruct (Obj.get k (persona_descriptions st)) as [d|] eqn:Hk; [done|].
    rewrite decide_False; [done|]. intros ->.
    apply obj_has_get in Hhas as [d Hd]. congruence.
  - apply obj_has_false in Hhas.
    destruct (truthy (personas st !! key)) eqn:Hname; simpl.
    + destruct (IH (set_persona_descriptions (Obj.set key value) st) warnings)
        as [-> ->].
      split; [|done]. simpl.
      destruct (decide (k = key)) as [->|Hk].
      * by rewrite obj_get_set_eq, Hhas, Hname.
      * by rewrite obj_get_set_ne.
    + destruct (IH st (warnings ++ [persona_does_not_exist key])) as [-> ->].
      split; [|done].
      destruct (Obj.get k (persona_descriptions st)) as [d|]; [done|].
      destruct (decide (k = key)) as [->|Hk]; [by rewrite Hname|done].
Qed.

(** X23: what a restore adds.  After [onPersonasRestoreInput] a key has the
    name it had, or else the name the file gives it; it has the descriptor
    it had, or else, if it then has a name that is not empty, the
    descriptor the file gives it, connections included.  The default
    avatar is uploaded for every persona the restore adds whose image the
    server lacks. *)
Theorem restore_adds_what_is_missing (avatarsList : list string)
    (data : Backup) (st : State) :
  let st' := onPersonasRestoreInput avatarsList (backup_file data) st in
  (∀ k, personas st' !! k
        = match personas st !! k with
          | Some v => Some v
          | None => Obj.get k (backup_personas data)
          end)
  ∧ (∀ k, Obj.get k (persona_descriptions st')
          = match Obj.get k (persona_descriptions st) with
            | Some d => Some d
            | None =>
                if truthy (personas st' !! k)
                then Obj.get k (backup_persona_descriptions data)
                else None
            end)
  ∧ (∀ k, is_Some (Obj.get k (backup_personas data)) →
       personas st !! k = None →
       includes avatarsList (Some k) = false →
       uploadUserAvatar default_user_avatar k ∈ log st')
  ∧ saveSettingsDebounced ∈ log st'.
Proof.
  intros st'. subst st'.
  destruct (onPersonasRestoreInput_stores avatarsList data st)
    as (Hp & Hd & _).
  rewrite Hd.
  assert (∀ k, personas
                 (onPersonasRestoreInput avatarsList (backup_file data) st)
               !! k
               = match personas st !! k with
                 | Some v => Some v
                 | None => Obj.get k (backup_personas data)
                 end) as Hnames.
  { intros k. rewrite Hp. unfold restore_merge.
    pose proof (restore_personas_adds avatarsList (backup_personas data) st []
                  k) as H1.
    destruct (restore_personas avatarsList (backup_personas data) st [])
      as [st1 w1]. simpl in H1.
    pose proof (restore_descriptions_spec (backup_persona_descriptions data)
                  st1 w1) as (Hp2 & _).
    destruct (restore_descriptions (backup_persona_descriptions data) st1 w1)
      as [st2 w2]. simpl in Hp2.
    pose proof (restore_default_spec (backup_default_persona data) st2 w2)
      as (Hp3 & _).
    destruct (restore_default (backup_default_persona data) st2 w2)
      as [st3 w3]. simpl in *. by rewrite Hp3, Hp2. }
  split; [exact Hnames|].
  assert (∀ e, e ∈ log (restore_merge avatarsList data st).1 →
               e ∈ log (onPersonasRestoreInput avatarsList (backup_file data)
                          st)) as Hlog.
  { intros e He. unfold onPersonasRestoreInput.
    destruct (restore_merge avatarsList data st) as [st3 [|w ws]];
      unfold setPersonaDescription, when; simpl in *;
      destruct (bool_decide (persona_description_position st3 = AFTER_CHAR));
      simpl; in_log. }
  split; [|split].
  - intros k. rewrite Hnames. unfold restore_merge.
    pose proof (restore_personas_adds avatarsList (backup_personas data) st []
                  k) as H1.
    pose proof (restore_personas_spec avatarsList (backup_personas data) st [])
      as (Hd1 & _).
    destruct (restore_personas avatarsList (backup_personas data) st [])
      as [st1 w1]. simpl in H1, Hd1.
    pose proof (restore_descriptions_adds (backup_persona_descriptions data)
                  st1 w1 k) as [H2 _].
    destruct (restore_descriptions (backup_persona_descriptions data) st1 w1)
      as [st2 w2]. simpl in H2.
    pose proof (restore_default_spec (backup_default_persona data) st2 w2)
      as (_ & Hd3 & _).
    destruct (restore_default (backup_default_persona data) st2 w2)
      as [st3 w3]. simpl in *. by rewrite Hd3, H2, Hd1, H1.
  - intros k Hk Hnone Hmiss. apply Hlog. unfold restore_merge.
    pose proof (restore_personas_uploads avatarsList (backup_personas data)
                  st []) as [_ Hup].
    specialize (Hup k Hk Hnone Hmiss).
    destruct (restore_personas avatarsList (backup_personas data) st [])
      as [st1 w1]. simpl in Hup.
    pose proof (restore_descriptions_adds (backup_persona_descriptions data)
                  st1 w1 k) as [_ Hl2].
    destruct (restore_descriptions (backup_persona_descriptions data) st1 w1)
      as [st2 w2]. simpl in Hl2.
    unfold restore_default. repeat case_match; simpl; by rewrite Hl2.
  - unfold onPersonasRestoreInput.
    destruct (restore_merge avatarsList data st) as [st3 [|w ws]]; in_log.
Qed.

(** A restore can break the exclusivity of the connections: the descriptor
    of the file comes with its connections. *)
Example restore_adds_connections :
  exclusive alice_connected
  ∧ holds (onPersonasRestoreInput ["alice.png"; "bob.png"]
             (backup_file backup_of_bob) alice_connected)
      "alice.png" (mkConnection character "seraphina.png")
  ∧ holds (onPersonasRestoreInput ["alice.png"; "bob.png"]
             (backup_file backup_of_bob) alice_connected)
      "bob.png" (mkConnection character "seraphina.png").
Proof.
  split.
  - intros c k1 k2 (d1 & cs1 & H1 & _) (d2 & cs2 & H2 & _).
    simpl in H1, H2. repeat case_decide; simplify_eq; done.
  - split; do 2 eexists; (split; [reflexivity|]); simpl;
      (split; [reflexivity|]); apply list_elem_of_here.
Qed.

(** ** The connection of the open chat *)

(** X24: [isPersonaConnectionLocked] accepts exactly the connection that
    [getCurrentConnectionObj] returns: when a character or a group is open,
    a connection is locked if and only if it is that object, whose id is
    not empty and whose type is [group] exactly when a group is open.  When
    [getCurrentConnectionObj] returns [null], the only connection that can
    pass for locked is a character connection with an empty id, and only
    while the open character has an empty avatar. *)
Theorem current_connection_is_the_locked_one (st : State) :
  (∀ c, getCurrentConnectionObj st = Some c →
     conn_id c ≠ EmptyString
     ∧ (conn_type c = group ↔ truthy (selected_group st) = true)
     ∧ ∀ c', isPersonaConnectionLocked st c' = true ↔ c' = c)
  ∧ (getCurrentConnectionObj st = None →
     ∀ c', isPersonaConnectionLocked st c' = true →
           c' = mkConnection character EmptyString
           ∧ this_chid_avatar st = Some EmptyString).
Proof.
  split.
  - intros c Hc. split; [by apply (getCurrentConnectionObj_id st)|].
    split; [|intros c'; by apply isPersonaConnectionLocked_current].
    unfold getCurrentConnectionObj in Hc.
    destruct (truthy (selected_group st)) eqn:Hg.
    + destruct (selected_group st); simpl in Hc; simplify_eq. by simpl.
    + destruct (truthy (this_chid_avatar st)); [|done].
      destruct (this_chid_avatar st); simpl in Hc; simplify_eq. simpl.
      split; intros; discriminate.
  - unfold getCurrentConnectionObj, isPersonaConnectionLocked.
    destruct (truthy (selected_group st)) eqn:Hg.
    { apply truthy_is_Some in Hg as (s & -> & _). done. }
    destruct (truthy (this_chid_avatar st)) eqn:Ha.
    { apply truthy_is_Some in Ha as (s & -> & _). done. }
    intros _ [ty id]. simpl. rewrite orb_false_r, andb_true_iff.
    rewrite !bool_decide_eq_true. intros [-> Hid].
    rewrite <- Hid in Ha |- *. unfold truthy in Ha.
    destruct id; [done|]. done.
Qed.

(** ** The default lock *)

(** X25: for the default lock, locking and unlocking are the same
    operation.  On a persona, [lockPersona('default')] and
    [unlockPersona('default')] both toggle: they make the selected persona
    the default if it is not, and remove the default if it is.  So
    [setPersonaLockState(true, 'default')] on the default persona removes
    the default, and [setPersonaLockState(false, 'default')] on another
    persona makes it the default. *)
Theorem default_lock_toggles (st : State) :
  user_avatar st ≠ EmptyString →
  is_Some (personas st !! user_avatar st) →
  lockPersona (Some "default") st = unlockPersona (Some "default") st
  ∧ setPersonaLockState true (Some "default") st
    = setPersonaLockState false (Some "default") st
  ∧ default_persona (result_state (lockPersona (Some "default") st))
    = (if bool_decide (default_persona st = Some (user_avatar st))
       then None else Some (user_avatar st))
  ∧ throws (lockPersona (Some "default") st) = false.
Proof.
  intros Hne Hsome.
  assert (lockPersona (Some "default") st
          = Ok () (toggleDefaultPersona (user_avatar st) true true st))
    as Hlock.
  { unfold lockPersona. by rewrite lock_ensure_persona_old. }
  split; [by rewrite Hlock|]. split; [simpl; by rewrite Hlock|].
  rewrite Hlock. simpl. split; [|done].
  destruct Hsome as [n Hn]. apply truthy_Some in Hne.
  unfold toggleDefaultPersona. rewrite Hne, Hn. simpl. unfold when.
  case_bool_decide as Hdef.
  - rewrite bool_decide_eq_true_2 by done. by case_match.
  - rewrite bool_decide_eq_false_2 by congruence. by case_match.
Qed.

Lemma default_lock_toggles_witness :
  default_persona alice_default_and_locked = Some "alice.png"
  ∧ default_persona
      (result_state (lockPersona (Some "default") alice_default_and_locked))
    = None.
Proof.
  destruct (default_lock_toggles alice_default_and_locked)
    as (_ & _ & Hdef & _).
  - discriminate.
  - by eexists.
  - split; [reflexivity|]. rewrite Hdef. reflexivity.
Defined.

(** ** A backup and its restore *)

Lemma obj_elem_has {V : Type} (k : string) (v : V) (o : Obj.t V) :
  (k, v) ∈ o → Obj.has k o = true.
Proof.
  intros Hin. apply obj_has_get.
  destruct (Obj.get k o) as [v'|] eqn:Hget; [by eexists|].
  apply obj_get_none_keys in Hget. destruct Hget.
  apply list_elem_of_fmap. by exists (k, v).
Qed.

(** X26: restoring the backup of the present state changes nothing.  In
    whatever order [Object.entries] lists the personas for the file, a
    restore of that file adds no persona and no descriptor and keeps the
    default persona; but for the log, the state is the one
    [setPersonaDescription] leaves, which shows the retired position as
    [IN_PROMPT].  The report says of every persona and of every descriptor
    that it exists already. *)
Theorem restoring_own_backup_changes_nothing (avatarsList : list string)
    (entries : list (string * string)) (st : State) :
  (∀ k v, (k, v) ∈ entries → personas st !! k = Some v) →
  restore_merge avatarsList (onBackupPersonas entries st) st
  = (st, second_report (onBackupPersonas entries st) st)
  ∧ without_log
      (onPersonasRestoreInput avatarsList
         (backup_file (onBackupPersonas entries st)) st)
    = without_log (setPersonaDescription st)
  ∧ (∀ k v, (k, v) ∈ entries →
       persona_already_exists k v
       ∈ second_report (onBackupPersonas entries st) st)
  ∧ (∀ k d, (k, d) ∈ persona_descriptions st →
       description_already_exists k (personas st !! k)
       ∈ second_report (onBackupPersonas entries st) st).
Proof.
  intros Hentries.
  assert (restore_merge avatarsList (onBackupPersonas entries st) st
          = (st, second_report (onBackupPersonas entries st) st)) as Hmerge.
  { apply restore_merge_again; simpl.
    - intros k v Hin. rewrite (Hentries k v Hin). by eexists.
    - intros k d Hin. left. by apply (obj_elem_has k d).
    - done. }
  split; [exact Hmerge|]. split; [|split].
  - unfold onPersonasRestoreInput. rewrite Hmerge.
    destruct (second_report (onBackupPersonas entries st) st);
      unfold setPersonaDescription, when; simpl; by case_match.
  - intros k v Hin. unfold second_report. simpl.
    apply elem_of_app. left. apply list_elem_of_fmap. by exists (k, v).
  - intros k d Hin. unfold second_report. simpl.
    apply elem_of_app. right. apply elem_of_app. left.
    apply list_elem_of_fmap. exists (k, d). split; [|done].
    unfold skipped_description. simpl. by rewrite (obj_elem_has k d).
Qed.

Lemma restoring_own_backup_changes_nothing_witness :
  personas
    (onPersonasRestoreInput ["alice.png"]
       (backup_file
          (onBackupPersonas [("alice.png", "Alice"); ("bob.png", "Bob")]
             bob_is_default)) bob_is_default)
  = personas bob_is_default
  ∧ default_persona
      (onPersonasRestoreInput ["alice.png"]
         (backup_file
            (onBackupPersonas [("alice.png", "Alice"); ("bob.png", "Bob")]
               bob_is_default)) bob_is_default)
    = Some "bob.png".
Proof.
  destruct (restoring_own_backup_changes_nothing ["alice.png"]
              [("alice.png", "Alice"); ("bob.png", "Bob")] bob_is_default)
    as (_ & Hsame & _).
  - intros k v Hin.
    apply elem_of_cons in Hin as [[= -> ->]|Hin]; [reflexivity|].
    apply elem_of_cons in Hin as [[= -> ->]|Hin]; [reflexivity|].
    by apply elem_of_nil in Hin.
  - apply (f_equal personas) in Hsame as Hp.
    apply (f_equal default_persona) in Hsame as Hd.
    split; [exact Hp|exact Hd].
Defined.

(** ** What the resolver never touches *)

(** X27: [loadPersonaForCurrentChat] never changes the names of the
    personas, the settings (multi-connection, automatic lock,
    notifications) or the open chat, whatever the server lists and the user
    answers; its log only grows, and the default persona is kept or
    cleared, never replaced.  [deleteUserAvatar], which ends with it,
    removes the name of the deleted avatar and no other. *)
Theorem resolver_leaves_the_names_alone (userAvatars : list string)
    (answer : PopupAnswer) (st : State) :
  resolver_frame st (loadPersonaForCurrentChat userAvatars answer st)
  ∧ (∀ confirm request_ok,
       personas (deleteUserAvatar confirm request_ok userAvatars answer st)
       = (if truthy (Some (user_avatar st)) && confirm && request_ok
          then delete (user_avatar st) (personas st)
          else personas st)).
Proof.
  split; [apply loadPersonaForCurrentChat_frame|].
  intros confirm request_ok. unfold deleteUserAvatar.
  destruct (truthy (Some (user_avatar st))); simpl; [|done].
  destruct confirm; simpl; [|done]. destruct request_ok; simpl; [|done].
  destruct (loadPersonaForCurrentChat_frame userAvatars answer
              (delete_entries (user_avatar st)
                 (emit (fetch_avatars_delete (user_avatar st))
                    (emit (popup_confirm "Delete Persona") st))))
    as (-> & _).
  unfold delete_entries, when. simpl. by repeat (case_match; simpl).
Qed.

(** * Two defects, at their failing inputs *)

(** ** The connection step in the chat of a group *)

(** C5, at the failing input: in the chat of the group [group-1] exactly
    one persona, Alice, is connected to the group: she holds its
    connection, which [lockPersona('character')] gave her, nobody else
    holds it, and [isPersonaLocked('character')] says so when she is
    selected.  Bob is selected.  The connection step finds no connected
    persona, since [getConnectedPersonas] lists connections of type
    [character] only: whatever avatars the server lists and whatever the
    user would answer, the resolver resolves nothing and Bob stays
    selected. *)
Theorem single_group_connection_is_not_selected :
  getCurrentConnectionObj bob_selected_in_alices_group
  = Some (mkConnection group "group-1")
  ∧ holds bob_selected_in_alices_group "alice.png"
      (mkConnection group "group-1")
  ∧ (∀ k, holds bob_selected_in_alices_group k (mkConnection group "group-1")
          → k = "alice.png")
  ∧ isPersonaLocked (Some "character")
      (set_user_avatar "alice.png" bob_selected_in_alices_group)
    = Ok true (set_user_avatar "alice.png" bob_selected_in_alices_group)
  ∧ chat_metadata_persona bob_selected_in_alices_group = None
  ∧ user_avatar bob_selected_in_alices_group = "bob.png"
  ∧ getConnectedPersonas None bob_selected_in_alices_group = []
  ∧ ∀ userAvatars answer,
      (lpc_resolve userAvatars answer bob_selected_in_alices_group).1
      = (Some EmptyString, None)
      ∧ user_avatar
          (loadPersonaForCurrentChat userAvatars answer
             bob_selected_in_alices_group)
        = "bob.png".
Proof.
  split; [vm_compute; reflexivity|].
  split; [do 2 eexists; split; [vm_compute; reflexivity|];
          split; [reflexivity|]; apply list_elem_of_here|].
  split.
  { intros k (d & cs & Hd & Hcs & Hin).
    assert (persona_descriptions bob_selected_in_alices_group
            = [("alice.png",
                with_connections [mkConnection group "group-1"]
                  empty_descriptor);
               ("bob.png", empty_descriptor)]) as Hdescs
      by (vm_compute; reflexivity).
    rewrite Hdescs in Hd. clear Hdescs. simpl in Hd.
    case_decide as Ha; [done|]. case_decide as Hb; [|done].
    injection Hd as <-. simpl in Hcs. injection Hcs as <-.
    by apply elem_of_nil in Hin. }
  split; [vm_compute; reflexivity|]. split; [vm_compute; reflexivity|].
  split; [vm_compute; reflexivity|]. split; [vm_compute; reflexivity|].
  intros userAvatars answer.
  destruct (resolver_precedence userAvatars answer
              bob_selected_in_alices_group) as [_ Hrest].
  destruct Hrest as [_ Hnothing];
    [left; vm_compute; reflexivity|vm_compute; reflexivity|].
  destruct Hnothing as [Hresolved Hselected]; [vm_compute; reflexivity|].
  split; [exact Hresolved|]. rewrite Hselected. vm_compute. reflexivity.
Qed.

(** ** Duplicating under an avatar id that is in use *)

(** C10, at the failing input.  The persona was made when the clock showed
    1700000000000, so its avatar id is the one [duplicatePersona] builds
    for it when the clock shows that value again.  The id is not fresh, no
    persona is created, and the entries of the original are not left as
    they were: its descriptor is replaced by the copy, which has no
    connections, so the persona loses its connection to the open character,
    and its own image is uploaded over itself. *)
Theorem duplicate_overwrites_on_collision :
  new_avatar_id 1700000000000 "Alice B." = "1700000000000-AliceB.png"
  ∧ personas alice_b_locked !! "1700000000000-AliceB.png" = Some "Alice B."
  ∧ Obj.get "1700000000000-AliceB.png" (persona_descriptions alice_b_locked)
    = Some {| description := Some EmptyString; position := Some IN_PROMPT;
              depth := Some DEFAULT_DEPTH; role := Some DEFAULT_ROLE;
              lorebook := Some EmptyString;
              connections :=
                Some [mkConnection character "seraphina.png"] |}
  ∧ getConnectedPersonas None alice_b_locked = ["1700000000000-AliceB.png"]
  ∧ personas
      (duplicatePersona "1700000000000-AliceB.png" true 1700000000000
         alice_b_locked)
    = personas alice_b_locked
  ∧ (persona_descriptions
       (duplicatePersona "1700000000000-AliceB.png" true 1700000000000
          alice_b_locked)).*1
    = ["1700000000000-AliceB.png"]
  ∧ Obj.get "1700000000000-AliceB.png"
      (persona_descriptions
         (duplicatePersona "1700000000000-AliceB.png" true 1700000000000
            alice_b_locked))
    = Some (new_descriptor EmptyString)
  ∧ getConnectedPersonas None
      (duplicatePersona "1700000000000-AliceB.png" true 1700000000000
         alice_b_locked)
    = []
  ∧ uploadUserAvatar (getUserAvatar "1700000000000-AliceB.png")
      "1700000000000-AliceB.png"
    ∈ log (duplicatePersona "1700000000000-AliceB.png" true 1700000000000
             alice_b_locked).
Proof.
  split; [vm_compute; reflexivity|].
  split; [vm_compute; reflexivity|].
  split; [vm_compute; reflexivity|].
  split; [vm_compute; reflexivity|].
  split; [vm_compute; reflexivity|].
  split; [vm_compute; reflexivity|].
  split; [vm_compute; reflexivity|].
  split; [vm_compute; reflexivity|].
  vm_compute. apply list_elem_of_In. simpl. tauto.
Qed.
